(** * olympia.lib.git: the repository-per-add-on commit pipeline

    A shallow embedding of [src/olympia/lib/git.py] (classes
    [TemporaryWorktree] and [AddonGitRepository]) and the properties its
    specification states about it.

    Conventions of the embedding.
    - Paths and names are [string]s, joined and split the way [os.path]
      does it on POSIX.
    - Git objects are content addressed.  An object id is modelled by the
      object it names (an ideal hash), so a tree entry carries its child
      object and a commit carries its parent commits.
    - Everything the code does to the outside (file system, object store,
      references, the active locale, randomness) is a transition of one
      [World]; a Python exception is the [Raise] outcome of a step, and the
      world it leaves behind is kept. *)

From Stdlib Require Import ZArith NArith Ascii String List Bool Lia DecimalString.
From stdpp Require Import base option list gmap strings fin_maps.

Import ListNotations.
Set Warnings "-register-all".
Local Open Scope string_scope.
Local Open Scope list_scope.

(* ===================================================================== *)
(** ** POSIX path helpers ([os.path]) *)
(* ===================================================================== *)

Module Path.

Definition sep : ascii := "/"%char.

Fixpoint has_sep (p : string) : bool :=
  match p with
  | EmptyString => false
  | String c r => Ascii.eqb c sep || has_sep r
  end.

(** [s.startswith(pre)] *)
Fixpoint startswith (pre s : string) : bool :=
  match pre, s with
  | EmptyString, _ => true
  | String _ _, EmptyString => false
  | String a pre, String b s => Ascii.eqb a b && startswith pre s
  end.

Fixpoint endswith_sep (p : string) : bool :=
  match p with
  | EmptyString => false
  | String c EmptyString => Ascii.eqb c sep
  | String _ r => endswith_sep r
  end.

(** [posixpath.join(a, b)]: an absolute [b] replaces [a]; an empty [a] or
    one that ends with the separator takes [b] as it is; otherwise the
    separator goes in between. *)
Definition join (a b : string) : string :=
  if startswith "/" b then b
  else if (String.eqb a "" || endswith_sep a)%bool then a +:+ b
  else a +:+ "/" +:+ b.

(** [posixpath.basename(p)]: what follows the last separator. *)
Fixpoint basename (p : string) : string :=
  match p with
  | EmptyString => EmptyString
  | String c r =>
      if has_sep r then basename r
      else if Ascii.eqb c sep then r else p
  end.

(** [s[n:]] *)
Fixpoint drop (n : nat) (s : string) : string :=
  match n, s with
  | O, _ => s
  | S _, EmptyString => EmptyString
  | S m, String _ r => drop m r
  end.

(** [p] is [d] itself or lies below the directory [d]. *)
Definition under (d p : string) : bool :=
  String.eqb d p || startswith (d +:+ "/") p.

(** The path [p] (below [src]) after [src] was renamed to [dst]. *)
Definition rebase (src dst p : string) : string :=
  dst +:+ drop (String.length src) p.

End Path.

(* ===================================================================== *)
(** ** [uuid.uuid4().hex] *)
(* ===================================================================== *)

Module Uuid.

Definition hex_digit (d : N) : ascii :=
  match d with
  | 0%N => "0" | 1%N => "1" | 2%N => "2" | 3%N => "3"
  | 4%N => "4" | 5%N => "5" | 6%N => "6" | 7%N => "7"
  | 8%N => "8" | 9%N => "9" | 10%N => "a" | 11%N => "b"
  | 12%N => "c" | 13%N => "d" | 14%N => "e" | _ => "f"
  end%char.

Definition is_hex (c : ascii) : bool :=
  existsb (Ascii.eqb c)
    ["0";"1";"2";"3";"4";"5";"6";"7";"8";"9";"a";"b";"c";"d";"e";"f"]%char.

(** ['%0<width>x' % n], for [n < 16 ^ width]. *)
Fixpoint format_hex (width : nat) (n : N) (acc : string) : string :=
  match width with
  | O => acc
  | S w => format_hex w (n / 16)%N (String (hex_digit (n mod 16)%N) acc)
  end.

(** [uuid.UUID(bytes=os.urandom(16), version=4).int]: sixteen random bytes
    with the variant and version bits forced. *)
Definition uuid4_int (random : N) : N :=
  let i := (random mod 2 ^ 128)%N in
  let i := N.ldiff i (N.shiftl 0xc000 48) in
  let i := N.lor i (N.shiftl 0x8000 48) in
  let i := N.ldiff i (N.shiftl 0xf000 64) in
  N.lor i (N.shiftl 4 76).

(** [UUID.hex]: ['%032x' % self.int]. *)
Definition hex (u : N) : string := format_hex 32 u "".

(** [s[:n]] *)
Fixpoint take (n : nat) (s : string) : string :=
  match n, s with
  | O, _ => EmptyString
  | S _, EmptyString => EmptyString
  | S m, String c r => String c (take m r)
  end.

End Uuid.

(* ===================================================================== *)
(** ** Git objects *)
(* ===================================================================== *)

(** A blob or a tree.  A tree entry is its name with the object it names;
    the entries are kept in the order the object store iterates them. *)
Inductive Object : Type :=
| Blob (data : string)
| Tree (entries : list (string * Object)).

Abbreviation TreeEntry := (string * Object)%type.

Definition entry_name (e : TreeEntry) : string := fst e.
Definition entry_oid (e : TreeEntry) : Object := snd e.

Definition is_tree (o : Object) : bool :=
  match o with Tree _ => true | Blob _ => false end.

(** [pygit2.Signature(name=..., email=...)] *)
Record Signature : Type := mkSignature {
  sig_name : string;
  sig_email : string
}.

(** A commit; its parents are the commits their ids name. *)
Inductive Commit : Type :=
| mkCommit (tree : list TreeEntry) (author committer : Signature)
           (message : string) (parents : list Commit).

Definition commit_tree (c : Commit) : list TreeEntry :=
  match c with mkCommit t _ _ _ _ => t end.
Definition commit_author (c : Commit) : Signature :=
  match c with mkCommit _ a _ _ _ => a end.
Definition commit_committer (c : Commit) : Signature :=
  match c with mkCommit _ _ k _ _ => k end.
Definition commit_message (c : Commit) : string :=
  match c with mkCommit _ _ _ m _ => m end.
Definition commit_parents (c : Commit) : list Commit :=
  match c with mkCommit _ _ _ _ ps => ps end.

(** [tree[name]] for a plain entry name: [None] stands for [KeyError]. *)
Fixpoint tree_getitem (t : list TreeEntry) (name : string) : option TreeEntry :=
  match t with
  | [] => None
  | e :: r => if String.eqb (entry_name e) name then Some e
              else tree_getitem r name
  end.

(** [# A mixture of Blob and TreeEntry]
    [TreeEntryWrapper = namedtuple('Entry', 'tree_entry, path, blob')] *)
Record TreeEntryWrapper : Type := mkWrapper {
  tree_entry : TreeEntry;
  path : string;
  blob : option Object
}.

Definition EXTRACTED_PREFIX : string := "extracted".

(* ===================================================================== *)
(** ** [AddonGitRepository.iter_tree] and [get_root_tree] *)
(* ===================================================================== *)

(** The wrapper of a child, re-yielded by the parent directory [name]. *)
Definition reyield (name : string) (child : TreeEntryWrapper) : TreeEntryWrapper :=
  {| blob := blob child;
     tree_entry := tree_entry child;
     path := Path.join name (path child) |}.

(** [iter_tree] run on the entries of the object [o]; the generator is the
    list of what it yields. *)
Fixpoint iter_object (o : Object) : list TreeEntryWrapper :=
  match o with
  | Blob _ => []
  | Tree entries =>
      (fix each (es : list TreeEntry) : list TreeEntryWrapper :=
         match es with
         | [] => []
         | te :: rest =>
             match entry_oid te with
             | Tree _ =>
                 {| blob := None; tree_entry := te; path := entry_name te |}
                 :: map (reyield (entry_name te)) (iter_object (entry_oid te))
             | Blob _ =>
                 [ {| blob := Some (entry_oid te); tree_entry := te;
                      path := entry_name te |} ]
             end ++ each rest
         end) entries
  end.

Definition iter_tree (tree : list TreeEntry) : list TreeEntryWrapper :=
  iter_object (Tree tree).

Inductive Exn : Type :=
| KeyError (key : string)
| AttributeError (what : string)
| AssertionError
| IndexError
| FileNotFoundError (p : string)
| FileExistsError (p : string)
| OSError (what : string)
| GitError (what : string)
| ExtractionError (archive : string)
| DatabaseError
| RecursionError.

(** [self.git_repository[commit.tree[EXTRACTED_PREFIX].oid]] *)
Definition get_root_tree (commit : Commit) : Exn + Object :=
  match tree_getitem (commit_tree commit) EXTRACTED_PREFIX with
  | None => inl (KeyError EXTRACTED_PREFIX)
  | Some te => inr (entry_oid te)
  end.

(** An uploading user, as far as [get_author] reads it. *)
Record User : Type := mkUser {
  user_name : string;
  user_email : string
}.

(** [AddonGitRepository.get_author] *)
Definition get_author (user : option User) : Signature :=
  match user with
  | Some u => {| sig_name := user_name u; sig_email := user_email u |}
  | None => {| sig_name := "Mozilla Add-ons Robot";
               sig_email := "addons-dev-automation+github@mozilla.com" |}
  end.

(* ===================================================================== *)
(** ** The temporary file system *)
(* ===================================================================== *)

Module Fs.

Inductive Entry : Type := Dir | File (data : string).

(** What exists below [settings.TMP_PATH]: absolute path and kind, every
    directory listed before what it contains. *)
Definition t : Type := list (string * Entry).

Definition lookup (p : string) (fs : t) : option Entry :=
  snd <$> find (fun e => String.eqb (fst e) p) fs.

Definition exists_ (p : string) (fs : t) : bool :=
  match lookup p fs with Some _ => true | None => false end.
Definition isdir (p : string) (fs : t) : bool :=
  match lookup p fs with Some Dir => true | _ => false end.
Definition isfile (p : string) (fs : t) : bool :=
  match lookup p fs with Some (File _) => true | _ => false end.

(** Everything but [p] and what lies below it. *)
Definition remove (p : string) (fs : t) : t :=
  filter (fun e => negb (Path.under p (fst e))) fs.

(** [os.rename(src, dst)] of an existing [src]: [src] and what lies below
    it is re-rooted at [dst], in place; a [dst] in the way is replaced. *)
Definition rename (src dst : string) (fs : t) : t :=
  map (fun e => if Path.under src (fst e)
                then (Path.rebase src dst (fst e), snd e) else e)
      (filter (fun e => Path.under src (fst e) || negb (Path.under dst (fst e))) fs).

(** [os.makedirs(p)] below existing parents. *)
Definition makedirs (p : string) (fs : t) : Exn + t :=
  if exists_ p fs then inl (FileExistsError p) else inr (fs ++ [(p, Dir)]).

(** [os.unlink(p)] *)
Definition unlink (p : string) (fs : t) : Exn + t :=
  if isfile p fs then inr (remove p fs)
  else if exists_ p fs then inl (OSError "is a directory")
  else inl (FileNotFoundError p).

(** [shutil.rmtree(p)] *)
Definition rmtree (p : string) (fs : t) : Exn + t :=
  if isdir p fs then inr (remove p fs)
  else if exists_ p fs then inl (OSError "not a directory")
  else inl (FileNotFoundError p).

(** [shutil.move(src, dst)].  An existing directory [dst] receives [src]
    under its own base name, unless that is taken; then [os.rename], whose
    failure on a missing [src] ends in the copy fallback raising for the
    missing file, and which cannot put a directory in the place of a
    file. *)
Definition move (src dst : string) (fs : t) : Exn + t :=
  let real_dst :=
    if isdir dst fs then Path.join dst (Path.basename src) else dst in
  if isdir dst fs && exists_ real_dst fs
  then inl (OSError "Destination path already exists")
  else if negb (exists_ src fs) then inl (FileNotFoundError src)
  else if isdir src fs && isfile real_dst fs
  then inl (OSError "not a directory")
  else inr (rename src real_dst fs).

End Fs.

(* ===================================================================== *)
(** ** Repositories and the world *)
(* ===================================================================== *)

(** One repository on disk: its local branches ([refs/heads/<name>]), the
    branch its [HEAD] names, the names of its linked worktrees and the
    commits written to its object store. *)
Record Repository : Type := mkRepository {
  refs : gmap string Commit;
  head : string;
  worktrees : list string;
  odb : list Commit
}.

(** The operations on the outside that can fail for reasons of their own
    (I/O errors, a full disk, a lost database connection). *)
Inductive Op : Type :=
| OpMakedirs | OpInitRepository | OpOpenRepository | OpTreeWrite
| OpCreateCommit | OpCreateBranch | OpMkdtemp | OpAddWorktree
| OpIndexRead | OpMove | OpIndexAddAll | OpIndexWrite | OpWriteTree
| OpSetTarget | OpRmtree | OpPrune | OpDeleteBranch | OpVersionUpdate.

#[global] Instance Op_eq_dec : EqDecision Op := ltac:(solve_decision).

Record World : Type := mkWorld {
  (** below [settings.GIT_FILE_STORAGE_PATH]: the paths that exist, each
      with the repository it holds, if it holds one *)
  disk : gmap string (option Repository);
  (** below [settings.TMP_PATH] *)
  tmpfs : Fs.t;
  (** [django.utils.translation]: the language active in this thread *)
  language : string;
  (** [os.urandom]: the random numbers to come, and how many were drawn *)
  entropy : nat -> N;
  draws : nat;
  (** the [git_hash] column of the versions table *)
  git_hash : gmap Z Commit;
  source_git_hash : gmap Z Commit;
  (** which outside operations fail *)
  faults : Op -> bool
}.

Inductive Outcome (A : Type) : Type :=
| Return (a : A)
| Raise (e : Exn).
Arguments Return {A} a.
Arguments Raise {A} e.

(** A piece of Python: from a world to what it returns or raises, and the
    world it leaves. *)
Definition Py (A : Type) : Type := World -> Outcome A * World.

Definition ret {A} (a : A) : Py A := fun w => (Return a, w).
Definition raise {A} (e : Exn) : Py A := fun w => (Raise e, w).
Definition bind {A B} (m : Py A) (k : A -> Py B) : Py B :=
  fun w => match m w with
           | (Return a, w') => k a w'
           | (Raise e, w') => (Raise e, w')
           end.

Declare Scope py_scope.
Delimit Scope py_scope with py.
Notation "x <- m ;; k" := (bind m (fun x => k))
  (at level 100, m at next level, right associativity) : py_scope.
Notation "'let2' a , b <- m ;; k" := (bind m (fun x => let '(a, b) := x in k))
  (at level 100, a name, b name, m at next level, right associativity) : py_scope.
Notation "m ;; k" := (bind m (fun _ => k))
  (at level 100, right associativity) : py_scope.
Local Open Scope py_scope.

Definition get {A} (f : World -> A) : Py A := fun w => (Return (f w), w).
Definition modify (f : World -> World) : Py unit := fun w => (Return tt, f w).
Definition lift {A} (r : Exn + A) : Py A :=
  match r with inl e => raise e | inr a => ret a end.

(** [try: body finally: final] *)
Definition try_finally {A} (body : Py A) (final : Py unit) : Py A :=
  fun w => match body w with
           | (r, w1) => match final w1 with
                        | (Return _, w2) => (r, w2)
                        | (Raise e, w2) => (Raise e, w2)
                        end
           end.

(** [with mgr as v: body], for a context manager whose [__enter__]
    returns [self] (here: as [__enter__] has updated it) and whose
    [__exit__] returns [None]: [__exit__] runs once [__enter__] has
    returned, whatever the body did; what [__exit__] raises replaces the
    outcome of the body. *)
Definition with_ {T A} (mgr : Py T) (enter : T -> Py T)
    (exit : T -> Py unit) (body : T -> Py A) : Py A :=
  self <- mgr ;;
  self <- enter self ;;
  try_finally (body self) (exit self).

(** [for x in xs: body x] *)
Fixpoint for_ {X} (xs : list X) (body : X -> Py unit) : Py unit :=
  match xs with
  | [] => ret tt
  | x :: rest => body x ;; for_ rest body
  end.

(** An outside operation: it raises when the world makes it fail. *)
Definition io (op : Op) (e : Exn) : Py unit :=
  fun w => if faults w op then (Raise e, w) else (Return tt, w).

Definition set_disk (f : gmap string (option Repository) -> gmap string (option Repository)) (w : World) : World :=
  mkWorld (f (disk w)) (tmpfs w) (language w) (entropy w) (draws w)
          (git_hash w) (source_git_hash w) (faults w).
Definition set_tmpfs (f : Fs.t -> Fs.t) (w : World) : World :=
  mkWorld (disk w) (f (tmpfs w)) (language w) (entropy w) (draws w)
          (git_hash w) (source_git_hash w) (faults w).
Definition set_language (l : string) (w : World) : World :=
  mkWorld (disk w) (tmpfs w) l (entropy w) (draws w)
          (git_hash w) (source_git_hash w) (faults w).
Definition set_draws (n : nat) (w : World) : World :=
  mkWorld (disk w) (tmpfs w) (language w) (entropy w) n
          (git_hash w) (source_git_hash w) (faults w).
Definition set_git_hash (f : gmap Z Commit -> gmap Z Commit) (w : World) : World :=
  mkWorld (disk w) (tmpfs w) (language w) (entropy w) (draws w)
          (f (git_hash w)) (source_git_hash w) (faults w).
Definition set_source_git_hash (f : gmap Z Commit -> gmap Z Commit) (w : World) : World :=
  mkWorld (disk w) (tmpfs w) (language w) (entropy w) (draws w)
          (git_hash w) (f (source_git_hash w)) (faults w).

(* ===================================================================== *)
(** ** What the module imports from the rest of the code base *)
(* ===================================================================== *)

(** [django.conf.settings], [olympia.amo] and [olympia.files.utils] are
    not part of the sources at hand; the module is verified against any
    choice of them.
    - [extract_extension_to_dest source dest] populates the directory
      [dest] from the archive at [source], or raises.
    - [get_all_files folder strip_prefix prefix] enumerates what lies below
      [folder], each path with [strip_prefix] taken off and [prefix] put
      in front. *)
Class Externals : Type := {
  GIT_FILE_STORAGE_PATH : string;
  TMP_PATH : string;
  RELEASE_CHANNEL_LISTED : Z;
  RELEASE_CHANNEL_UNLISTED : Z;
  id_to_path : Z -> string;
  extract_extension_to_dest : string -> string -> Fs.t -> Exn + Fs.t;
  get_all_files : Fs.t -> string -> string -> string -> list string
}.

(* ===================================================================== *)
(** ** The object store ([pygit2]) *)
(* ===================================================================== *)

Module Git.

(** A repository handle is the path it was opened at; the handle of a
    linked worktree shares the references and objects of its repository. *)
Abbreviation Handle := string.

(** A branch as looked up: its name and the target it had then. *)
Record Branch : Type := mkBranch {
  branch_repo : Handle;
  branch_name : string;
  target : Commit
}.

Definition the_repo (h : Handle) : Py Repository :=
  fun w => match disk w !! h with
           | Some (Some r) => (Return r, w)
           | _ => (Raise (GitError "repository not found"), w)
           end.

Definition put_repo (h : Handle) (r : Repository) : Py unit :=
  modify (set_disk (fun d => <[h := Some r]> d)).

(** [pygit2.init_repository(path=..., bare=False)]: an empty object store
    whose [HEAD] names the unborn branch master; a repository that is
    there already is left as it is. *)
Definition init_repository (p : string) : Py Handle :=
  io OpInitRepository (GitError "init_repository") ;;
  d <- get disk ;;
  match d !! p with
  | Some (Some _) => ret p
  | _ =>
      put_repo p {| refs := ∅; head := "master"; worktrees := []; odb := [] |} ;;
      ret p
  end.

(** [pygit2.Repository(path)] *)
Definition Repository_open (p : string) : Py Handle :=
  io OpOpenRepository (GitError "Repository") ;;
  _ <- the_repo p ;;
  ret p.

(** [repo.TreeBuilder().write()]: the id of the empty tree. *)
Definition TreeBuilder_write (h : Handle) : Py (list TreeEntry) :=
  _ <- the_repo h ;;
  io OpTreeWrite (GitError "TreeBuilder.write") ;;
  ret [].

(** [repo.create_commit(ref, author, committer, message, tree, parents)].
    The commit is written to the object store.  With a reference name the
    branch behind it becomes the commit; the code passes one (['HEAD'])
    only for a commit without parents, which needs the branch unborn. *)
Definition create_commit (h : Handle) (ref : option string)
    (author committer : Signature) (message : string)
    (tree : list TreeEntry) (parents : list Commit) : Py Commit :=
  r <- the_repo h ;;
  io OpCreateCommit (GitError "create_commit") ;;
  let c := mkCommit tree author committer message parents in
  match ref with
  | None =>
      put_repo h {| refs := refs r; head := head r;
                    worktrees := worktrees r; odb := odb r ++ [c] |} ;;
      ret c
  | Some _ =>
      match refs r !! head r, parents with
      | None, [] =>
          put_repo h {| refs := <[head r := c]> (refs r); head := head r;
                        worktrees := worktrees r; odb := odb r ++ [c] |} ;;
          ret c
      | _, _ => raise (GitError "current tip is not the first parent")
      end
  end.

(** [repo.branches.get(name)] *)
Definition branches_get (h : Handle) (name : string) : Py (option Branch) :=
  r <- the_repo h ;;
  ret (mkBranch h name <$> refs r !! name).

(** [repo.head.peel()] *)
Definition head_peel (h : Handle) : Py Commit :=
  r <- the_repo h ;;
  match refs r !! head r with
  | Some c => ret c
  | None => raise (GitError "reference 'refs/heads/master' not found")
  end.

(** [repo.create_branch(name, commit)] *)
Definition create_branch (h : Handle) (name : string) (c : Commit) : Py Branch :=
  r <- the_repo h ;;
  io OpCreateBranch (GitError "create_branch") ;;
  match refs r !! name with
  | Some _ => raise (GitError "a reference with that name already exists")
  | None =>
      put_repo h {| refs := <[name := c]> (refs r); head := head r;
                    worktrees := worktrees r; odb := odb r |} ;;
      ret (mkBranch h name c)
  end.

(** [branch.set_target(commit.hex)] *)
Definition set_target (b : Branch) (c : Commit) : Py unit :=
  r <- the_repo (branch_repo b) ;;
  io OpSetTarget (GitError "set_target") ;;
  match refs r !! branch_name b with
  | None => raise (GitError "reference not found")
  | Some _ =>
      put_repo (branch_repo b)
        {| refs := <[branch_name b := c]> (refs r); head := head r;
           worktrees := worktrees r; odb := odb r |}
  end.

(** The files a checkout of [tree] puts below [dir]. *)
Definition checkout (dir : string) (tree : list TreeEntry) : Fs.t :=
  map (fun e => (Path.join dir (path e),
                 match blob e with
                 | Some (Blob data) => Fs.File data
                 | _ => Fs.Dir
                 end))
      (iter_tree tree).

(** [repo.add_worktree(name, path)]: a new branch [name] at the commit of
    [HEAD], checked out into the new directory [path]. *)
Definition add_worktree (h : Handle) (name p : string) : Py string :=
  r <- the_repo h ;;
  io OpAddWorktree (GitError "add_worktree") ;;
  fs <- get tmpfs ;;
  match refs r !! head r with
  | None => raise (GitError "reference 'refs/heads/master' not found")
  | Some c =>
      if bool_decide (name ∈ worktrees r) || bool_decide (is_Some (refs r !! name))
         || Fs.exists_ p fs
      then raise (GitError "worktree already exists")
      else
        put_repo h {| refs := <[name := c]> (refs r); head := head r;
                      worktrees := worktrees r ++ [name]; odb := odb r |} ;;
        modify (set_tmpfs (fun fs => fs ++ (p, Fs.Dir) :: checkout p (commit_tree c))) ;;
        ret name
  end.

(** [worktree.repo[worktree.repo.head.target].tree]: the worktree's [HEAD]
    is its own branch. *)
Definition worktree_head_tree (h : Handle) (name : string) : Py (list TreeEntry) :=
  r <- the_repo h ;;
  match refs r !! name with
  | Some c => ret (commit_tree c)
  | None => raise (GitError "reference not found")
  end.

(** [worktree.prune(True)] *)
Definition prune (h : Handle) (name : string) : Py unit :=
  r <- the_repo h ;;
  io OpPrune (GitError "prune") ;;
  put_repo h {| refs := refs r; head := head r;
                worktrees := filter (fun n => n ≠ name) (worktrees r);
                odb := odb r |}.

(** [repo.lookup_branch(name)] *)
Definition lookup_branch (h : Handle) (name : string) : Py (option Branch) :=
  branches_get h name.

(** [branch.delete()]; a branch that is checked out cannot be deleted. *)
Definition branch_delete (b : Branch) : Py unit :=
  r <- the_repo (branch_repo b) ;;
  io OpDeleteBranch (GitError "delete") ;;
  if bool_decide (branch_name b ∈ worktrees r) || String.eqb (branch_name b) (head r)
  then raise (GitError "cannot delete a branch that is checked out")
  else put_repo (branch_repo b)
         {| refs := delete (branch_name b) (refs r); head := head r;
            worktrees := worktrees r; odb := odb r |}.

End Git.

(* ===================================================================== *)
(** ** The index of a worktree *)
(* ===================================================================== *)

Module Index.

(** [p.split('/')] *)
Fixpoint split (p : string) : list string :=
  match p with
  | EmptyString => [EmptyString]
  | String c r =>
      if Ascii.eqb c Path.sep then EmptyString :: split r
      else match split r with
           | [] => [String c EmptyString]
           | s :: ss => String c s :: ss
           end
  end.

(** Git orders the entries of a tree by name, a directory as if its name
    ended with the separator. *)
Definition sort_key (e : TreeEntry) : string :=
  if is_tree (entry_oid e) then entry_name e +:+ "/" else entry_name e.

Fixpoint insert_sorted (e : TreeEntry) (t : list TreeEntry) : list TreeEntry :=
  match t with
  | [] => [e]
  | x :: r => if String.ltb (sort_key e) (sort_key x) then e :: t
              else x :: insert_sorted e r
  end.

Definition upsert (name : string) (o : Object) (t : list TreeEntry) : list TreeEntry :=
  insert_sorted (name, o)
    (filter (fun e => negb (String.eqb (entry_name e) name)) t).

(** The tree [t] with the blob [data] at the path of segments [segs]. *)
Fixpoint tree_put (segs : list string) (data : string) (t : list TreeEntry)
  : list TreeEntry :=
  match segs with
  | [] => t
  | [name] => upsert name (Blob data) t
  | name :: rest =>
      let sub := match tree_getitem t name with
                 | Some (_, Tree es) => es
                 | _ => []
                 end in
      upsert name (Tree (tree_put rest data sub)) t
  end.

(** [index.add_all()] on an index read from an empty tree: every file
    below the work directory [workdir], by its relative path. *)
Definition staged (workdir : string) (fs : Fs.t) : list (string * string) :=
  omap (fun e => match snd e with
                 | Fs.File data =>
                     if Path.startswith (workdir +:+ "/") (fst e)
                     then Some (Path.drop (S (String.length workdir)) (fst e), data)
                     else None
                 | Fs.Dir => None
                 end) fs.

(** [index.write_tree()]: the tree of the staged files. *)
Definition tree_of (files : list (string * string)) : list TreeEntry :=
  fold_left (fun t f => tree_put (split (fst f)) (snd f) t) files [].

Definition read : Py unit := io OpIndexRead (GitError "index.read").

Definition add_all (workdir : string) : Py (list (string * string)) :=
  io OpIndexAddAll (GitError "index.add_all") ;;
  fs <- get tmpfs ;;
  ret (staged workdir fs).

Definition write : Py unit := io OpIndexWrite (GitError "index.write").

Definition write_tree (files : list (string * string)) : Py (list TreeEntry) :=
  io OpWriteTree (GitError "index.write_tree") ;;
  ret (tree_of files).

End Index.

(* ===================================================================== *)
(** ** [class TemporaryWorktree] *)
(* ===================================================================== *)

(** [uuid.uuid4()] *)
Definition uuid4 : Py N :=
  fun w => (Return (Uuid.uuid4_int (entropy w (draws w))),
            set_draws (S (draws w)) w).

(** A file-system operation that the world can make fail. *)
Definition fs_op (op : Op) (f : Fs.t -> Exn + Fs.t) : Py unit :=
  io op (OSError "input/output error") ;;
  fs <- get tmpfs ;;
  fs' <- lift (f fs) ;;
  modify (set_tmpfs (fun _ => fs')).

(** [tempfile.mkdtemp(dir=settings.TMP_PATH)]: a new directory under a
    random name. *)
Definition mkdtemp {ext : Externals} : Py string :=
  u <- uuid4 ;;
  let p := Path.join TMP_PATH ("tmp" +:+ Uuid.take 8 (Uuid.hex u)) in
  fs_op OpMkdtemp (Fs.makedirs p) ;;
  ret p.

Module TemporaryWorktree.

Record t : Type := mk {
  git_repository : Git.Handle;
  name : string;
  temp_directory : string;
  path : string;
  extraction_target_path : string;
  obj : option string;
  repo : option Git.Handle
}.

Definition __init__ {ext : Externals} (repository : Git.Handle) : Py t :=
  u <- uuid4 ;;
  let name := Uuid.hex u in
  temp_directory <- mkdtemp ;;
  let path := Path.join temp_directory name in
  ret {| git_repository := repository;
         name := name;
         temp_directory := temp_directory;
         path := path;
         extraction_target_path := Path.join path EXTRACTED_PREFIX;
         obj := None;
         repo := None |}.

Definition __enter__ (self : t) : Py t :=
  obj <- Git.add_worktree (git_repository self) (name self) (path self) ;;
  repo <- Git.Repository_open (git_repository self) ;;
  (* Clean the workdir (of the newly created worktree) *)
  tree <- Git.worktree_head_tree repo obj ;;
  for_ tree (fun entry =>
    let p := Path.join (path self) (entry_name entry) in
    isfile <- get (fun w => Fs.isfile p (tmpfs w)) ;;
    if isfile then fs_op OpRmtree (Fs.unlink p)
    else fs_op OpRmtree (Fs.rmtree p)) ;;
  fs_op OpMakedirs (Fs.makedirs (extraction_target_path self)) ;;
  ret {| git_repository := git_repository self;
         name := name self;
         temp_directory := temp_directory self;
         path := path self;
         extraction_target_path := extraction_target_path self;
         obj := Some obj;
         repo := Some repo |}.

Definition __exit__ (self : t) : Py unit :=
  (* Remove temp directory *)
  fs_op OpRmtree (Fs.rmtree (temp_directory self)) ;;
  (* Prune temp worktree *)
  match obj self with
  | Some _ => Git.prune (git_repository self) (name self)
  | None => ret tt
  end ;;
  (* Remove worktree ref in upstream repository *)
  b <- Git.lookup_branch (git_repository self) (name self) ;;
  match b with
  | Some b => Git.branch_delete b
  | None => raise (AttributeError "'NoneType' object has no attribute 'delete'")
  end.

End TemporaryWorktree.

(* ===================================================================== *)
(** ** [class AddonGitRepository] *)
(* ===================================================================== *)

(** What the module reads of a file of a version, and of a version.  A
    [repr] depends on the active language. *)
Record FileObj : Type := mkFileObj {
  current_file_path : string;
  file_repr : string -> string
}.

Record Version : Type := mkVersion {
  version_id : Z;
  addon_id : Z;
  addon_repr : string -> string;
  channel : Z;
  all_files : list FileObj;
  source_path : string;
  version_repr : string -> string
}.

(** [BRANCHES[channel]]; in the dict literal the later key wins. *)
Definition BRANCHES {ext : Externals} (channel : Z) : option string :=
  if bool_decide (channel = RELEASE_CHANNEL_UNLISTED) then Some "unlisted"
  else if bool_decide (channel = RELEASE_CHANNEL_LISTED) then Some "listed"
  else None.

(** [str(n)] *)
Definition str (n : Z) : string := DecimalString.NilZero.string_of_int (Z.to_int n).

(** How deep Python lets calls nest. *)
Definition recursion_limit : nat := 1000.

Module AddonGitRepository.

(** An instance: its path, and the [git_repository] its [__dict__] holds
    once the cached property was read. *)
Record t : Type := mk {
  git_repository_path : string;
  cached_git_repository : option Git.Handle
}.

Definition __init__ {ext : Externals} (addon_id : Z) (package_type : string) : Py t :=
  if String.eqb package_type "addon" || String.eqb package_type "source"
  then ret {| git_repository_path :=
                Path.join (Path.join GIT_FILE_STORAGE_PATH (id_to_path addon_id))
                          package_type;
              cached_git_repository := None |}
  else raise AssertionError.

(** [os.path.exists(self.git_repository_path)] *)
Definition is_extracted (self : t) : Py bool :=
  get (fun w => bool_decide (is_Some (disk w !! git_repository_path self))).

(** [os.makedirs(self.git_repository_path)] *)
Definition makedirs (p : string) : Py unit :=
  io OpMakedirs (OSError "input/output error") ;;
  d <- get disk ;;
  match d !! p with
  | Some _ => raise (FileExistsError p)
  | None => modify (set_disk (fun d => <[p := None]> d))
  end.

(** The cached property [git_repository], read at call depth [depth]
    below the recursion limit.  Its body reads [self.git_repository]
    again (for the tree builder) before the outer read has returned. *)
Fixpoint git_repository_at (depth : nat) (self : t) : Py (Git.Handle * t) :=
  match cached_git_repository self with
  | Some h => ret (h, self)
  | None =>
      match depth with
      | O => raise RecursionError
      | S depth =>
          extracted <- is_extracted self ;;
          let2 res, self <-
            (if negb extracted then
               makedirs (git_repository_path self) ;;
               git_repository <- Git.init_repository (git_repository_path self) ;;
               (* Write first commit to 'master' to act as HEAD *)
               let2 inner, self <- git_repository_at depth self ;;
               tree <- Git.TreeBuilder_write inner ;;
               Git.create_commit git_repository (Some "HEAD")
                 (get_author None) (get_author None)
                 "Initializing repository" tree [] ;;
               ret (git_repository, self)
             else
               git_repository <- Git.Repository_open (git_repository_path self) ;;
               ret (git_repository, self)) ;;
          ret (res, {| git_repository_path := git_repository_path self;
                       cached_git_repository := Some res |})
      end
  end.

Definition git_repository (self : t) : Py (Git.Handle * t) :=
  git_repository_at recursion_limit self.

(** [find_or_create_branch]: Lookup or create the branch named [name] *)
Definition find_or_create_branch (self : t) (name : string) : Py (Git.Branch * t) :=
  let2 repo, self <- git_repository self ;;
  branch <- Git.branches_get repo name ;;
  match branch with
  | Some branch => ret (branch, self)
  | None =>
      let2 repo, self <- git_repository self ;;
      let2 repo', self <- git_repository self ;;
      c <- Git.head_peel repo' ;;
      branch <- Git.create_branch repo name c ;;
      ret (branch, self)
  end.

(** The loop of [_commit_through_worktree] over the enumerated [files]. *)
Definition rename_dot_git (worktree_path : string) (files : list string) : Py unit :=
  for_ files (fun filename =>
    if String.eqb (Path.basename filename) ".git" then
      (* For security reasons git doesn't allow adding .git subdirectories
         anywhere in the repository.  So we're going to rename them and add
         a random postfix *)
      u <- uuid4 ;;
      let renamed := filename +:+ "." +:+ Uuid.take 8 (Uuid.hex u) in
      fs_op OpMove (Fs.move (Path.join worktree_path filename)
                            (Path.join worktree_path renamed))
    else ret tt).

(** The body of the [with] statement of [_commit_through_worktree]. *)
Definition commit_in_worktree {ext : Externals}
    (path message : string) (author : option User) (branch : Git.Branch)
    (worktree : TemporaryWorktree.t) : Py Commit :=
  (* Now extract the extension to the workdir *)
  fs <- get tmpfs ;;
  fs <- lift (extract_extension_to_dest path
                (TemporaryWorktree.extraction_target_path worktree) fs) ;;
  modify (set_tmpfs (fun _ => fs)) ;;
  (* Fetch all files and strip the absolute path but keep the
     `extracted/` prefix *)
  let files := get_all_files fs
                 (TemporaryWorktree.extraction_target_path worktree)
                 (TemporaryWorktree.path worktree) "" in
  (* Make sure the index is up to date *)
  Index.read ;;
  rename_dot_git (TemporaryWorktree.path worktree) files ;;
  (* Add all changes to the index (git add --all ...) *)
  staged <- Index.add_all (TemporaryWorktree.path worktree) ;;
  Index.write ;;
  tree <- Index.write_tree staged ;;
  (* Now create an commit directly on top of the respective branch *)
  match TemporaryWorktree.repo worktree with
  | None => raise (AttributeError "'NoneType' object has no attribute 'create_commit'")
  | Some wrepo =>
      commit <- Git.create_commit wrepo None
                  (* author, using the actual uploading user *)
                  (get_author author)
                  (* commiter, using addons-robot *)
                  (get_author None)
                  message tree
                  (* Set the current branch HEAD as the parent of this commit *)
                  [Git.target branch] ;;
      (* And set the commit we just created as HEAD of the relevant
         branch *)
      Git.set_target branch commit ;;
      ret commit
  end.

Definition _commit_through_worktree {ext : Externals} (self : t)
    (path message : string) (author : option User) (branch : Git.Branch)
  : Py (Commit * t) :=
  let2 repo, self <- git_repository self ;;
  commit <-
    with_ (TemporaryWorktree.__init__ repo)
          TemporaryWorktree.__enter__ TemporaryWorktree.__exit__
          (commit_in_worktree path message author branch) ;;
  ret (commit, self).

(** [get_language()] and [activate(language)] of
    [django.utils.translation]. *)
Definition get_language : Py string := get language.
Definition activate (l : string) : Py unit := modify (set_language l).

(** [version.update(git_hash=commit.hex)] *)
Definition version_update_git_hash (version : Version) (c : Commit) : Py unit :=
  io OpVersionUpdate DatabaseError ;;
  modify (set_git_hash (fun m => <[version_id version := c]> m)).

Definition version_update_source_git_hash (version : Version) (c : Commit) : Py unit :=
  io OpVersionUpdate DatabaseError ;;
  modify (set_source_git_hash (fun m => <[version_id version := c]> m)).

Definition extract_and_commit_from_version {ext : Externals}
    (version : Version) (author : option User) : Py t :=
  current_language <- get_language ;;
  try_finally
    ((* Make sure we're always using the en-US locale by default *)
     activate "en-US" ;;
     repo <- __init__ (addon_id version) "addon" ;;
     file_obj <- match all_files version with
                 | f :: _ => ret f
                 | [] => raise IndexError
                 end ;;
     name <- match BRANCHES (channel version) with
             | Some n => ret n
             | None => raise (KeyError (str (channel version)))
             end ;;
     let2 branch, repo <- find_or_create_branch repo name ;;
     lang <- get_language ;;
     let2 commit, repo <-
       _commit_through_worktree repo (current_file_path file_obj)
         ("Create new version " +:+ version_repr version lang +:+ " ("
          +:+ str (version_id version) +:+ ") for " +:+ addon_repr version lang
          +:+ " from " +:+ file_repr file_obj lang)
         author branch ;;
     (* Set the latest git hash on the related version. *)
     version_update_git_hash version commit ;;
     ret repo)
    (activate current_language).

Definition extract_and_commit_source_from_version {ext : Externals}
    (version : Version) (author : option User) : Py t :=
  repo <- __init__ (addon_id version) "source" ;;
  name <- match BRANCHES (channel version) with
          | Some n => ret n
          | None => raise (KeyError (str (channel version)))
          end ;;
  let2 branch, repo <- find_or_create_branch repo name ;;
  lang <- get_language ;;
  let2 commit, repo <-
    _commit_through_worktree repo (source_path version)
      ("Create new version " +:+ version_repr version lang +:+ " ("
       +:+ str (version_id version) +:+ ") for " +:+ addon_repr version lang
       +:+ " from source file")
      author branch ;;
  (* Set the latest git hash on the related version. *)
  version_update_source_git_hash version commit ;;
  ret repo.

End AddonGitRepository.

(* ===================================================================== *)
(** ** What the properties speak about *)
(* ===================================================================== *)

(** The fixed identity of the automation. *)
Definition ROBOT : Signature :=
  {| sig_name := "Mozilla Add-ons Robot";
     sig_email := "addons-dev-automation+github@mozilla.com" |}.

(** The commit a repository starts from. *)
Definition root_commit : Commit :=
  mkCommit [] ROBOT ROBOT "Initializing repository" [].

(** A repository as initialised: its root commit on master. *)
Definition initial_repository : Repository :=
  {| refs := <[ "master" := root_commit ]> ∅; head := "master";
     worktrees := []; odb := [root_commit] |}.

(** The repository at a path, the commit a branch of it points at, and
    the commit its [HEAD] points at. *)
Definition repo_at (w : World) (rp : string) : option Repository :=
  match disk w !! rp with Some (Some r) => Some r | _ => None end.

Definition branch_pointer (w : World) (rp name : string) : option Commit :=
  match repo_at w rp with Some r => refs r !! name | None => None end.

Definition head_commit (w : World) (rp : string) : option Commit :=
  match repo_at w rp with Some r => refs r !! head r | None => None end.

(** The log of a commit: the commit, then the log of its first parent. *)
Fixpoint history (c : Commit) : list Commit :=
  match c with
  | mkCommit _ _ _ _ ps =>
      c :: match ps with
           | p :: _ => history p
           | [] => []
           end
  end.

(** The commits [cs], from first to last, each have the one before as
    their only parent, the first of them [base]. *)
Fixpoint chained (base : Commit) (cs : list Commit) : Prop :=
  match cs with
  | [] => True
  | c :: rest => commit_parents c = [base] /\ chained c rest
  end.

(** The sandbox of a worktree is released: nothing is left of its
    temporary directory, of its linkage and of its branch. *)
Definition released (wt : TemporaryWorktree.t) (w : World) : Prop :=
  (forall p e, In (p, e) (tmpfs w) ->
     Path.under (TemporaryWorktree.temp_directory wt) p = false) /\
  (forall r, repo_at w (TemporaryWorktree.git_repository wt) = Some r ->
     ~ In (TemporaryWorktree.name wt) (worktrees r) /\
     refs r !! TemporaryWorktree.name wt = None).

(** Uploads made one after the other. *)
Definition serially {ext : Externals} (uploads : list (Version * option User)) : Py unit :=
  for_ uploads (fun u =>
    _ <- AddonGitRepository.extract_and_commit_from_version (fst u) (snd u) ;;
    ret tt).

(** The message [extract_and_commit_from_version] commits a version
    with (the reprs taken in en-US). *)
Definition message_of (v : Version) : string :=
  match all_files v with
  | f :: _ =>
      "Create new version " +:+ version_repr v "en-US" +:+ " ("
      +:+ str (version_id v) +:+ ") for " +:+ addon_repr v "en-US"
      +:+ " from " +:+ file_repr f "en-US"
  | [] => ""
  end.

(** Entry names as the object store has them: not empty, no separator,
    no two alike in one tree. *)
Definition valid_name (n : string) : bool :=
  negb (String.eqb n "") && negb (Path.has_sep n).

Fixpoint names_distinct (ns : list string) : bool :=
  match ns with
  | [] => true
  | n :: r => negb (existsb (String.eqb n) r) && names_distinct r
  end.

Fixpoint wf_object (o : Object) : bool :=
  match o with
  | Blob _ => true
  | Tree entries =>
      names_distinct (map fst entries) &&
      (fix all (es : list TreeEntry) : bool :=
         match es with
         | [] => true
         | e :: r => valid_name (fst e) && wf_object (snd e) && all r
         end) entries
  end.

(** The entry a path of segments names below a tree. *)
Fixpoint resolve (segs : list string) (t : list TreeEntry) : option TreeEntry :=
  match segs with
  | [] => None
  | [n] => tree_getitem t n
  | n :: rest =>
      match tree_getitem t n with
      | Some (_, Tree sub) => resolve rest sub
      | _ => None
      end
  end.

(** A piece of Python [respects] a relation between worlds when the
    world it leaves is related to the world it starts from, whatever it
    returns or raises; it respects it [when_raising] when that holds for
    the runs that raise. *)
Definition respects (R : World -> World -> Prop) {A} (m : Py A) : Prop :=
  forall w, R w (snd (m w)).

Definition when_raising (R : World -> World -> Prop) {A} (m : Py A) : Prop :=
  forall w e w', m w = (Raise e, w') -> R w w'.

(** The object stores only grow, and by commits that satisfy [P]. *)
Definition grows (P : Commit -> Prop) (w w' : World) : Prop :=
  forall rp r' c, repo_at w' rp = Some r' -> In c (odb r') ->
    P c \/ exists r, repo_at w rp = Some r /\ In c (odb r).

(** The branches whose names satisfy [S] stay where they point. *)
Definition keeps (S : string -> Prop) (w w' : World) : Prop :=
  forall rp n t, S n -> branch_pointer w rp n = Some t ->
    branch_pointer w' rp n = Some t.

(** A relation between worlds that every step of the module respects:
    it is a preorder that only looks at the repositories, as long as the
    commits that are created satisfy [ok_commit] and the branches that are
    moved or deleted satisfy [ok_move]. *)
Class GitStable (R : World -> World -> Prop)
    (ok_commit : Commit -> Prop) (ok_move : string -> Prop) : Prop := {
  stable_refl :: Reflexive R;
  stable_trans :: Transitive R;
  stable_disk : forall w w', disk w' = disk w -> R w w';
  stable_makedirs : forall p, respects R (AddonGitRepository.makedirs p);
  stable_init_repository : forall p, respects R (Git.init_repository p);
  stable_create_commit : forall h ref a k m t ps,
    ok_commit (mkCommit t a k m ps) ->
    respects R (Git.create_commit h ref a k m t ps);
  stable_create_branch : forall h n c, respects R (Git.create_branch h n c);
  stable_set_target : forall b c,
    ok_move (Git.branch_name b) -> respects R (Git.set_target b c);
  stable_add_worktree : forall h n p, respects R (Git.add_worktree h n p);
  stable_prune : forall h n, respects R (Git.prune h n);
  stable_branch_delete : forall b,
    ok_move (Git.branch_name b) -> respects R (Git.branch_delete b)
}.

(** The repository at [rp] has its [HEAD] on master, at the commit [c];
    and the relation of the worlds that leave that as it is. *)
Definition master_at (c : Commit) (w : World) (rp : string) : Prop :=
  exists r, repo_at w rp = Some r /\ head r = "master" /\
            refs r !! "master" = Some c.

Definition keeps_master (w w' : World) : Prop :=
  forall rp c, master_at c w rp -> master_at c w' rp.

(** Where the repository of the packages of an add-on lives. *)
Definition addon_path {ext : Externals} (addon_id : Z) : string :=
  Path.join (Path.join GIT_FILE_STORAGE_PATH (id_to_path addon_id)) "addon".

(** An instance whose cache, if filled, holds the handle of its path. *)
Definition wf_self (self : AddonGitRepository.t) : Prop :=
  AddonGitRepository.cached_git_repository self = None \/
  AddonGitRepository.cached_git_repository self =
    Some (AddonGitRepository.git_repository_path self).

(* ===================================================================== *)
(** ** Reference collaborators *)
(* ===================================================================== *)

Module Reference.

(** Modelled from the spec: [olympia.files.utils.id_to_path] is not among
    the sources.  "shard-path is a deterministic fan-out transform of the
    numeric id (e.g. splitting digits into nested directories)"; the
    repository's tests expect [1/1/1] for the id 1. *)
Definition id_to_path (pk : Z) : string :=
  let s := str pk in
  let n := String.length s in
  Path.join (Path.join (Path.drop (n - 1) s) (Path.drop (n - 2) s)) s.

(** The archives of the examples: what extraction puts below the
    destination, directories first. *)
Definition archives : list (string * list (string * Fs.Entry)) :=
  [ ("webextension_no_id.xpi",
     [("README.md", Fs.File "# readme"); ("manifest.json", Fs.File "{}")]);
    ("source.zip",
     [(".git", Fs.Dir); (".git/config", Fs.File "");
      ("manifest.json", Fs.File "{}")]);
    ("nested.zip",
     [(".git", Fs.Dir); (".git/.git", Fs.Dir);
      (".git/.git/config", Fs.File "")]) ].

(** Modelled from the spec: [olympia.files.utils.extract_extension_to_dest]
    is not among the sources.  "archive extraction - given a source
    archive path and a destination directory, populates the directory with
    the archive's logical contents, fails with an extraction error kind on
    malformed archives". *)
Definition extract_extension_to_dest (source dest : string) (fs : Fs.t) : Exn + Fs.t :=
  match find (fun a => String.eqb (fst a) source) archives with
  | Some a => inr (fs ++ map (fun e => (Path.join dest (fst e), snd e)) (snd a))
  | None => inl (ExtractionError source)
  end.

(** Modelled from the spec: [olympia.files.utils.get_all_files] is not
    among the sources.  "recursive filesystem enumeration - given a root
    directory, returns all file paths relative to a base".  Directories
    are enumerated too, each before what it contains: the repository's
    test of the clash with [.git] expects the file [.git/config] of an
    archive at [.git.b236f599/config]. *)
Definition get_all_files (fs : Fs.t) (folder strip_prefix prefix : string) : list string :=
  omap (fun e =>
          if Path.startswith (folder +:+ "/") (fst e)
          then Some (Path.join prefix
                       (Path.drop (S (String.length strip_prefix)) (fst e)))
          else None) fs.

#[local] Instance externals : Externals :=
  Build_Externals "/storage/git" "/tmp" 2 1
    Reference.id_to_path Reference.extract_extension_to_dest
    Reference.get_all_files.

(** A world with no repository yet, French active, and the random
    numbers of the repository's test. *)
Definition world (failing : list Op) : World :=
  {| disk := ∅;
     tmpfs := [("/tmp", Fs.Dir)];
     language := "fr";
     entropy := fun _ => 0xb236f5994773477bbcd2d1b75ab1458f%N;
     draws := 0;
     git_hash := ∅;
     source_git_hash := ∅;
     faults := fun op => bool_decide (op ∈ failing) |}.

Definition version (id : Z) (channel : Z) (source : string) : Version :=
  {| version_id := id;
     addon_id := 1;
     addon_repr := fun _ => "<Addon: 1>";
     channel := channel;
     all_files := [ {| current_file_path := "webextension_no_id.xpi";
                       file_repr := fun _ => "<File: 1>" |} ];
     source_path := source;
     version_repr := fun lang => "<Version: 0." +:+ str id +:+ ">" |}.

Definition uploader : User := {| user_name := "A"; user_email := "a@x.com" |}.

End Reference.

(* ===================================================================== *)
(** ** Further notions the properties speak about *)
(* ===================================================================== *)

(** The number of entries below an object, at every depth. *)
Fixpoint count_entries (o : Object) : nat :=
  match o with
  | Blob _ => 0
  | Tree entries =>
      (fix each (es : list TreeEntry) : nat :=
         match es with
         | [] => 0
         | e :: r => S (count_entries (snd e)) + each r
         end) entries
  end.

(** Only the repository at [p] may differ. *)
Definition only (p : string) (w w' : World) : Prop :=
  forall rp, rp <> p -> disk w' !! rp = disk w !! rp.

(** The repositories are as they were. *)
Definition same_disk (w w' : World) : Prop := disk w' = disk w.

(** What [version.update] writes is as it was. *)
Definition same_hashes (w w' : World) : Prop :=
  git_hash w' = git_hash w /\ source_git_hash w' = source_git_hash w.

(** A relation between worlds that does not look at the file system nor
    at how many random numbers were drawn, and that holds across a write
    to a repository whose path satisfies [touch]. *)
Class Footprint (R : World -> World -> Prop) (touch : string -> Prop) : Prop := {
  footprint_refl :: Reflexive R;
  footprint_trans :: Transitive R;
  footprint_tmpfs : forall f w, R w (set_tmpfs f w);
  footprint_draws : forall n w, R w (set_draws n w);
  footprint_disk : forall h x w,
    touch h -> R w (set_disk (fun d => <[h := x]> d) w)
}.

(** Where the repository of the sources of an add-on lives. *)
Definition addon_source_path {ext : Externals} (addon_id : Z) : string :=
  Path.join (Path.join GIT_FILE_STORAGE_PATH (id_to_path addon_id)) "source".

(** What [version.update] and [translation.activate] write is as it
    was. *)
Definition same_records (w w' : World) : Prop :=
  same_hashes w w' /\ language w' = language w.

(** How the run of [m] from [w] ends: raising [e] in a world [w'] with
    [raised e w'], or returning [a] in a world [w'] with [returned a w']. *)
Definition ends {A} (m : Py A) (w : World)
    (raised : Exn -> World -> Prop) (returned : A -> World -> Prop) : Prop :=
  match m w with
  | (Raise e, w') => raised e w'
  | (Return a, w') => returned a w'
  end.

(** The message [extract_and_commit_source_from_version] commits a
    version with, the reprs taken in the language [lang]. *)
Definition source_message_of (v : Version) (lang : string) : string :=
  "Create new version " +:+ version_repr v lang +:+ " ("
  +:+ str (version_id v) +:+ ") for " +:+ addon_repr v lang
  +:+ " from source file".

(** The errors of the file system and of the object store. *)
Definition store_error (e : Exn) : Prop :=
  e = OSError "input/output error" \/ exists s, e = GitError s.

(** Every character of [s] is a lower-case hexadecimal digit. *)
Fixpoint all_hex (s : string) : bool :=
  match s with
  | EmptyString => true
  | String c r => Uuid.is_hex c && all_hex r
  end.

Local Open Scope py_scope.
(* ===================================================================== *)
(** ** Strings and paths *)
(* ===================================================================== *)

#[local] Arguments Ascii.eqb : simpl never.
#[local] Arguments String.eqb : simpl never.

Lemma has_sep_app (a b : string) :
  Path.has_sep (a +:+ b) = Path.has_sep a || Path.has_sep b.
Proof.
  induction a as [|c a IH]; simpl; [reflexivity|].
  rewrite IH. apply orb_assoc.
Qed.

Lemma endswith_sep_has_sep (a : string) :
  Path.endswith_sep a = true -> Path.has_sep a = true.
Proof.
  induction a as [|c a IH]; simpl; [discriminate|].
  destruct a as [|c' a'].
  - intros ->. reflexivity.
  - intros H. rewrite (IH H). apply orb_true_r.
Qed.

Lemma valid_name_spec (n : string) :
  valid_name n = true -> n <> "" /\ Path.has_sep n = false.
Proof.
  unfold valid_name. intros [H1 H2]%andb_true_iff.
  apply negb_true_iff in H1, H2. split; [|assumption].
  intros ->. discriminate.
Qed.

(** Joining a valid name and a relative path puts one separator in
    between. *)
Lemma join_valid (name p : string) :
  valid_name name = true -> Path.startswith "/" p = false ->
  Path.join name p = name +:+ "/" +:+ p.
Proof.
  intros [Hne Hsep]%valid_name_spec Hp. unfold Path.join. rewrite Hp.
  destruct (String.eqb_spec name "") as [->|_]; [congruence|].
  destruct (Path.endswith_sep name) eqn:E.
  - apply endswith_sep_has_sep in E. congruence.
  - reflexivity.
Qed.

Lemma startswith_sep_valid (n rest : string) :
  valid_name n = true -> Path.startswith "/" (n +:+ rest) = false.
Proof.
  intros [Hne Hsep]%valid_name_spec.
  destruct n as [|c n]; [congruence|].
  simpl in *. apply orb_false_iff in Hsep as [Hc _].
  rewrite Ascii.eqb_sym in Hc. unfold Path.sep in Hc. simpl. rewrite Hc. reflexivity.
Qed.

Lemma startswith_sep_name (n : string) :
  valid_name n = true -> Path.startswith "/" n = false.
Proof.
  intros [Hne Hsep]%valid_name_spec.
  destruct n as [|c n]; [congruence|].
  simpl in *. apply orb_false_iff in Hsep as [Hc _].
  rewrite Ascii.eqb_sym in Hc. unfold Path.sep in Hc. rewrite Hc. reflexivity.
Qed.

Lemma has_sep_join (name p : string) :
  valid_name name = true -> Path.has_sep (Path.join name p) = true.
Proof.
  intros Hv. unfold Path.join.
  destruct (Path.startswith "/" p) eqn:Hp.
  - destruct p as [|c p]; [discriminate|].
    simpl in Hp. rewrite andb_true_r in Hp.
    simpl. rewrite Ascii.eqb_sym. unfold Path.sep. rewrite Hp. reflexivity.
  - destruct (valid_name_spec _ Hv) as [Hne Hsep].
    destruct (String.eqb_spec name "") as [->|_]; [congruence|].
    destruct (Path.endswith_sep name) eqn:E.
    + apply endswith_sep_has_sep in E. congruence.
    + simpl. rewrite !has_sep_app. simpl. apply orb_true_r.
Qed.

(* ===================================================================== *)
(** ** Trees *)
(* ===================================================================== *)

(** Induction over an object and the objects of its entries. *)
Lemma Object_nested_ind (P : Object -> Prop) :
  (forall data, P (Blob data)) ->
  (forall entries, Forall (fun e => P (snd e)) entries -> P (Tree entries)) ->
  forall o, P o.
Proof.
  intros HB HT.
  fix IH 1. intros [data|entries].
  - apply HB.
  - apply HT. induction entries as [|e r IHr]; constructor.
    + apply IH.
    + exact IHr.
Qed.

Lemma iter_tree_nil : iter_tree [] = [].
Proof. reflexivity. Qed.

Lemma iter_tree_cons_tree (name : string) (sub rest : list TreeEntry) :
  iter_tree ((name, Tree sub) :: rest) =
  {| tree_entry := (name, Tree sub); path := name; blob := None |}
    :: map (reyield name) (iter_tree sub) ++ iter_tree rest.
Proof. reflexivity. Qed.

Lemma iter_tree_cons_blob (name data : string) (rest : list TreeEntry) :
  iter_tree ((name, Blob data) :: rest) =
  {| tree_entry := (name, Blob data); path := name; blob := Some (Blob data) |}
    :: iter_tree rest.
Proof. reflexivity. Qed.

Lemma tree_getitem_In (t : list TreeEntry) (n : string) (e : TreeEntry) :
  tree_getitem t n = Some e -> In e t /\ fst e = n.
Proof.
  induction t as [|x r IH]; simpl; [discriminate|].
  unfold entry_name. destruct (String.eqb_spec (fst x) n) as [E|E].
  - intros [= <-]. auto.
  - intros H. destruct (IH H). auto.
Qed.

Lemma tree_getitem_first (t : list TreeEntry) (n : string) (e : TreeEntry) :
  tree_getitem t n = Some e ->
  exists pre post, t = pre ++ e :: post /\ fst e = n /\
                   Forall (fun x => fst x <> n) pre.
Proof.
  induction t as [|x r IH]; simpl; [discriminate|].
  unfold entry_name. destruct (String.eqb_spec (fst x) n) as [E|E].
  - intros [= <-]. exists [], r. auto.
  - intros H. destruct (IH H) as (pre & post & -> & Hn & Hpre).
    exists (x :: pre), post. auto.
Qed.

Lemma tree_getitem_None (t : list TreeEntry) (n : string) :
  tree_getitem t n = None -> forall o, ~ In (n, o) t.
Proof.
  induction t as [|x r IH]; simpl; [tauto|].
  unfold entry_name. destruct (String.eqb_spec (fst x) n) as [E|E]; [discriminate|].
  intros H o [->|Hin]; [apply E; reflexivity | exact (IH H o Hin)].
Qed.

Lemma names_distinct_cons (n : string) (ns : list string) :
  names_distinct (n :: ns) = true -> ~ In n ns /\ names_distinct ns = true.
Proof.
  simpl. intros [H1 H2]%andb_true_iff. split; [|assumption].
  apply negb_true_iff in H1. intros Hin.
  assert (existsb (String.eqb n) ns = true); [|congruence].
  apply existsb_exists. exists n. split; [assumption | apply String.eqb_refl].
Qed.

Lemma wf_object_cons (e : TreeEntry) (r : list TreeEntry) :
  wf_object (Tree (e :: r)) = true ->
  valid_name (fst e) = true /\ wf_object (snd e) = true /\
  ~ In (fst e) (map fst r) /\ wf_object (Tree r) = true.
Proof.
  intros H. change (names_distinct (fst e :: map fst r) &&
    (valid_name (fst e) && wf_object (snd e) &&
     (fix all (es : list TreeEntry) : bool :=
        match es with
        | [] => true
        | e :: r => valid_name (fst e) && wf_object (snd e) && all r
        end) r) = true) in H.
  apply andb_true_iff in H as [Hd H].
  apply andb_true_iff in H as [H Hall].
  apply andb_true_iff in H as [Hv Hw].
  apply names_distinct_cons in Hd as [Hn Hd].
  repeat split; try assumption.
  simpl. rewrite Hd. exact Hall.
Qed.

Lemma resolve_head (segs : list string) (t : list TreeEntry) (e : TreeEntry) :
  resolve segs t = Some e ->
  exists n rest x, segs = n :: rest /\ tree_getitem t n = Some x.
Proof.
  destruct segs as [|n rest]; simpl; [discriminate|].
  destruct rest as [|m rest].
  - intros H. exists n, [], e. split; [reflexivity | exact H].
  - destruct (tree_getitem t n) as [x|] eqn:E; [|discriminate].
    intros _. exists n, (m :: rest), x. split; [reflexivity | exact E].
Qed.

Lemma resolve_skip (segs : list string) (x : TreeEntry) (t : list TreeEntry)
    (e : TreeEntry) :
  ~ In (fst x) (map fst t) -> resolve segs t = Some e ->
  resolve segs (x :: t) = Some e.
Proof.
  intros Hx H. destruct (resolve_head _ _ _ H) as (n & rest & y & -> & Hy).
  assert (Hne : String.eqb (entry_name x) n = false).
  { apply String.eqb_neq. intros E. apply Hx.
    apply tree_getitem_In in Hy as [Hin Hfst].
    unfold entry_name in E. rewrite E, <- Hfst. apply in_map. exact Hin. }
  destruct rest as [|m rest]; simpl in *; rewrite Hne; exact H.
Qed.

(** Every path [iter_tree] yields is the names from the traversal root
    down to the entry, joined by the separator, and names that entry. *)
Lemma iter_tree_paths (o : Object) :
  wf_object o = true ->
  forall entries, o = Tree entries ->
  forall w, In w (iter_tree entries) ->
  exists segs, Forall (fun s => valid_name s = true) segs /\
               path w = String.concat "/" segs /\
               resolve segs entries = Some (tree_entry w).
Proof.
  induction o as [data|es IH] using Object_nested_ind; [discriminate|].
  intros Hwf entries [= <-].
  induction es as [|[name obj] rest IHrest]; [intros w []|].
  apply wf_object_cons in Hwf as (Hv & Hobj & Hfresh & Hrest).
  simpl in Hv, Hobj, Hfresh.
  inversion IH as [|? ? IHobj IHtl]; subst.
  specialize (IHrest IHtl Hrest).
  assert (Hself : forall w, w = {| tree_entry := (name, obj); path := name; blob := blob w |} ->
            exists segs, Forall (fun s => valid_name s = true) segs /\
               path w = String.concat "/" segs /\
               resolve segs ((name, obj) :: rest) = Some (tree_entry w)).
  { intros w ->. exists [name]. repeat split.
    - constructor; [assumption | constructor].
    - simpl. unfold entry_name. simpl. rewrite String.eqb_refl. reflexivity. }
  assert (Hrest' : forall w, In w (iter_tree rest) ->
            exists segs, Forall (fun s => valid_name s = true) segs /\
               path w = String.concat "/" segs /\
               resolve segs ((name, obj) :: rest) = Some (tree_entry w)).
  { intros w Hw. destruct (IHrest w Hw) as (segs & Hsegs & Hp & Hr).
    exists segs. repeat split; try assumption.
    apply resolve_skip; assumption. }
  destruct obj as [data|sub].
  - rewrite iter_tree_cons_blob. intros w [<-|Hw]; [apply Hself; reflexivity | auto].
  - rewrite iter_tree_cons_tree. intros w [<-|Hw]; [apply Hself; reflexivity |].
    apply in_app_or in Hw as [Hw|Hw]; [|auto].
    apply in_map_iff in Hw as (w' & <- & Hw').
    destruct (IHobj Hobj sub eq_refl w' Hw') as (segs & Hsegs & Hp & Hr).
    destruct segs as [|s ss]; [discriminate Hr|].
    exists (name :: s :: ss). repeat split.
    + constructor; assumption.
    + simpl path. rewrite Hp.
      inversion Hsegs as [|? ? Hs _]; subst.
      rewrite join_valid; [reflexivity | assumption |].
      simpl. destruct ss; [apply startswith_sep_name | apply startswith_sep_valid];
        assumption.
    + change (resolve (name :: s :: ss) ((name, Tree sub) :: rest))
        with (match tree_getitem ((name, Tree sub) :: rest) name with
              | Some (_, Tree sub) => resolve (s :: ss) sub
              | _ => None
              end).
      simpl. unfold entry_name. simpl. rewrite String.eqb_refl. exact Hr.
Qed.

Lemma iter_tree_blob (o : Object) :
  forall entries, o = Tree entries ->
  forall w, In w (iter_tree entries) ->
  blob w = if is_tree (entry_oid (tree_entry w)) then None
           else Some (entry_oid (tree_entry w)).
Proof.
  induction o as [data|es IH] using Object_nested_ind; [discriminate|].
  intros entries [= <-].
  induction es as [|[name obj] rest IHrest]; [intros w []|].
  inversion IH as [|? ? IHobj IHtl]; subst.
  specialize (IHrest IHtl).
  destruct obj as [data|sub].
  - rewrite iter_tree_cons_blob. intros w [<-|Hw]; [reflexivity | auto].
  - rewrite iter_tree_cons_tree. intros w [<-|Hw]; [reflexivity|].
    apply in_app_or in Hw as [Hw|Hw]; [|auto].
    apply in_map_iff in Hw as (w' & <- & Hw').
    exact (IHobj sub eq_refl w' Hw').
Qed.

Lemma filter_reyield (name : string) (ws : list TreeEntryWrapper) :
  valid_name name = true ->
  List.filter (fun w => negb (Path.has_sep (path w))) (map (reyield name) ws) = [].
Proof.
  intros Hv. induction ws as [|w ws IH]; [reflexivity|].
  simpl. rewrite has_sep_join by assumption. exact IH.
Qed.

(** The entries [iter_tree] yields for the traversal root itself are the
    entries of the tree, in the order of the tree. *)
Lemma iter_tree_top_level (entries : list TreeEntry) :
  wf_object (Tree entries) = true ->
  map tree_entry
      (List.filter (fun w => negb (Path.has_sep (path w))) (iter_tree entries))
  = entries.
Proof.
  induction entries as [|[name obj] rest IH]; [reflexivity|].
  intros (Hv & _ & _ & Hrest)%wf_object_cons. simpl in Hv.
  destruct (valid_name_spec _ Hv) as [_ Hsep].
  destruct obj as [data|sub].
  - rewrite iter_tree_cons_blob. simpl. rewrite Hsep. simpl.
    rewrite IH by assumption. reflexivity.
  - rewrite iter_tree_cons_tree. simpl. rewrite Hsep. simpl.
    rewrite List.filter_app, filter_reyield by assumption. simpl.
    rewrite IH by assumption. reflexivity.
Qed.

(* ===================================================================== *)
(** ** C8, C10: walking a tree *)
(* ===================================================================== *)

(** C8.  [iter_tree] walks a tree depth first: the entry of a directory
    comes immediately before what the walk of the directory yields, then
    come the entries that follow it in the tree, so the children appear in
    the entry order of the tree; the entry of a directory carries no blob
    and the entry of a file carries its blob; every path is the names from
    the traversal root down to the entry, joined by the separator, and
    names that entry from the root.  The walk is a function of the tree,
    so walking again yields the same finite sequence. *)
Theorem iter_tree_depth_first :
  iter_tree [] = [] /\
  (forall name sub rest,
     iter_tree ((name, Tree sub) :: rest) =
     {| tree_entry := (name, Tree sub); path := name; blob := None |}
       :: map (reyield name) (iter_tree sub) ++ iter_tree rest) /\
  (forall name data rest,
     iter_tree ((name, Blob data) :: rest) =
     {| tree_entry := (name, Blob data); path := name;
        blob := Some (Blob data) |} :: iter_tree rest) /\
  (forall name child,
     tree_entry (reyield name child) = tree_entry child /\
     blob (reyield name child) = blob child /\
     path (reyield name child) = Path.join name (path child)) /\
  (forall entries w, In w (iter_tree entries) ->
     blob w = if is_tree (entry_oid (tree_entry w)) then None
              else Some (entry_oid (tree_entry w))) /\
  (forall entries, wf_object (Tree entries) = true ->
     map tree_entry
       (List.filter (fun w => negb (Path.has_sep (path w))) (iter_tree entries))
     = entries) /\
  (forall entries w, wf_object (Tree entries) = true ->
     In w (iter_tree entries) ->
     exists segs, path w = String.concat "/" segs /\
                  resolve segs entries = Some (tree_entry w)).
Proof.
  split; [reflexivity|].
  split; [exact iter_tree_cons_tree|].
  split; [exact iter_tree_cons_blob|].
  split; [intros; repeat split|].
  split; [intros entries w; exact (iter_tree_blob _ entries eq_refl w)|].
  split; [exact iter_tree_top_level|].
  intros entries w Hwf Hw.
  destruct (iter_tree_paths _ Hwf entries eq_refl w Hw) as (segs & _ & Hp & Hr).
  exists segs. split; assumption.
Qed.

(** C10.  [get_root_tree] returns the object of the entry named
    [extracted] of the tree of the commit (the first entry of that name),
    and raises [KeyError] exactly when the tree has no entry of that name,
    as for the root commit of a repository, whose tree is empty. *)
Theorem get_root_tree_extracted_or_KeyError (commit : Commit) :
  match get_root_tree commit with
  | inr o =>
      exists pre post,
        commit_tree commit = pre ++ (EXTRACTED_PREFIX, o) :: post /\
        Forall (fun e => entry_name e <> EXTRACTED_PREFIX) pre
  | inl e =>
      e = KeyError EXTRACTED_PREFIX /\
      forall o, ~ In (EXTRACTED_PREFIX, o) (commit_tree commit)
  end /\
  commit_tree root_commit = [] /\
  get_root_tree root_commit = inl (KeyError EXTRACTED_PREFIX).
Proof.
  split; [|split; reflexivity].
  unfold get_root_tree.
  destruct (tree_getitem (commit_tree commit) EXTRACTED_PREFIX) as [[n o]|] eqn:E.
  - destruct (tree_getitem_first _ _ _ E) as (pre & post & Ht & Hn & Hpre).
    simpl in Hn. subst n. exists pre, post. split; assumption.
  - split; [reflexivity|]. exact (tree_getitem_None _ _ E).
Qed.

(* ===================================================================== *)
(** ** Reasoning about pieces of Python *)
(* ===================================================================== *)

Lemma bind_inv {A B} (m : Py A) (k : A -> Py B) w o w' :
  bind m k w = (o, w') ->
  (exists e, m w = (Raise e, w') /\ o = Raise e) \/
  (exists a w1, m w = (Return a, w1) /\ k a w1 = (o, w')).
Proof.
  unfold bind. destruct (m w) as [[a|e] w1].
  - intros H. right. eauto.
  - intros [= <- <-]. left. eauto.
Qed.

Lemma bind_inv_return {A B} (m : Py A) (k : A -> Py B) w b w' :
  bind m k w = (Return b, w') ->
  exists a w1, m w = (Return a, w1) /\ k a w1 = (Return b, w').
Proof.
  intros [(e & _ & [=])|H]%bind_inv. exact H.
Qed.

Lemma bind_return {A B} (m : Py A) (k : A -> Py B) w a w1 :
  m w = (Return a, w1) -> bind m k w = k a w1.
Proof. unfold bind. intros ->. reflexivity. Qed.

Lemma bind_raise {A B} (m : Py A) (k : A -> Py B) w e w1 :
  m w = (Raise e, w1) -> bind m k w = (Raise e, w1).
Proof. unfold bind. intros ->. reflexivity. Qed.

Lemma try_finally_inv {A} (body : Py A) (final : Py unit) w o w' :
  try_finally body final w = (o, w') ->
  exists r w1, body w = (r, w1) /\
    ((final w1 = (Return tt, w') /\ o = r) \/
     (exists e, final w1 = (Raise e, w') /\ o = Raise e)).
Proof.
  unfold try_finally. destruct (body w) as [r w1].
  destruct (final w1) as [[[]|e] w2] eqn:E; intros [= <- <-]; exists r, w1;
    (split; [reflexivity|]); [left | right]; eauto.
Qed.

Section Respects.

Context (R : World -> World -> Prop) `{!Reflexive R} `{!Transitive R}.

Lemma respects_ret {A} (a : A) : respects R (ret a).
Proof. intros w. reflexivity. Qed.

Lemma respects_raise {A} (e : Exn) : respects R (@raise A e).
Proof. intros w. reflexivity. Qed.

Lemma respects_get {A} (f : World -> A) : respects R (get f).
Proof. intros w. reflexivity. Qed.

Lemma respects_io (op : Op) (e : Exn) : respects R (io op e).
Proof. intros w. unfold io. destruct (faults w op); reflexivity. Qed.

Lemma respects_lift {A} (r : Exn + A) : respects R (lift r).
Proof. destruct r; intros w; reflexivity. Qed.

Lemma respects_bind {A B} (m : Py A) (k : A -> Py B) :
  respects R m -> (forall a, respects R (k a)) -> respects R (bind m k).
Proof.
  intros Hm Hk w. unfold bind. specialize (Hm w).
  destruct (m w) as [[a|e] w1]; simpl in *; [|assumption].
  etransitivity; [exact Hm | apply Hk].
Qed.

Lemma respects_try_finally {A} (body : Py A) (final : Py unit) :
  respects R body -> respects R final -> respects R (try_finally body final).
Proof.
  intros Hb Hf w. unfold try_finally. specialize (Hb w).
  destruct (body w) as [r w1]. specialize (Hf w1).
  destruct (final w1) as [[[]|e] w2]; simpl in *; etransitivity; eassumption.
Qed.

Lemma respects_with {T A} (mgr : Py T) (enter : T -> Py T)
    (exit : T -> Py unit) (body : T -> Py A) :
  respects R mgr -> (forall s, respects R (enter s)) ->
  (forall s, respects R (exit s)) -> (forall s, respects R (body s)) ->
  respects R (with_ mgr enter exit body).
Proof.
  intros. unfold with_.
  apply respects_bind; [assumption | intros s].
  apply respects_bind; [auto | intros s'].
  apply respects_try_finally; auto.
Qed.

Lemma respects_for {X} (xs : list X) (body : X -> Py unit) :
  (forall x, respects R (body x)) -> respects R (for_ xs body).
Proof.
  intros Hb. induction xs as [|x xs IH]; simpl.
  - apply respects_ret.
  - apply respects_bind; auto.
Qed.

Lemma when_raising_bind {A B} (m : Py A) (k : A -> Py B) :
  respects R m -> (forall a, when_raising R (k a)) -> when_raising R (bind m k).
Proof.
  intros Hm Hk w e w' [(e' & Hmw & _)|(a & w1 & Hmw & Hkw)]%bind_inv.
  - specialize (Hm w). rewrite Hmw in Hm. exact Hm.
  - specialize (Hm w). rewrite Hmw in Hm. simpl in Hm.
    etransitivity; [exact Hm | exact (Hk a w1 e w' Hkw)].
Qed.

Lemma respects_when_raising {A} (m : Py A) :
  respects R m -> when_raising R m.
Proof. intros Hm w e w' H. specialize (Hm w). rewrite H in Hm. exact Hm. Qed.

End Respects.

(** Breaks a goal [respects R m] down to the steps of [m]. *)
Ltac respects_step :=
  lazymatch goal with
  | |- respects _ (bind _ _) => apply respects_bind; [try assumption | intros ?]
  | |- respects _ (ret _) => apply respects_ret; assumption
  | |- respects _ (raise _) => apply respects_raise; assumption
  | |- respects _ (get _) => apply respects_get; assumption
  | |- respects _ (io _ _) => apply respects_io; assumption
  | |- respects _ (lift _) => apply respects_lift; assumption
  | |- respects _ (for_ _ _) => apply respects_for; [assumption .. | intros ?]
  | |- respects _ (try_finally _ _) => apply respects_try_finally; [assumption .. | | ]
  | |- respects _ (with_ _ _ _ _) =>
      apply respects_with; [assumption .. | | intros ? | intros ? | intros ?]
  | |- respects _ (match ?x with _ => _ end) => destruct x
  | |- respects _ (let '(_, _) := ?x in _) => destruct x
  end.

(* ===================================================================== *)
(** ** The two relations between worlds *)
(* ===================================================================== *)

Lemma repo_at_insert (h rp : string) (x : option Repository) (w : World) :
  repo_at (set_disk (fun d => <[h := x]> d) w) rp =
  if decide (h = rp) then x else repo_at w rp.
Proof.
  unfold repo_at, set_disk. simpl.
  destruct (decide (h = rp)) as [->|Hne].
  - rewrite lookup_insert_eq. destruct x; reflexivity.
  - rewrite lookup_insert_ne by assumption. reflexivity.
Qed.

Lemma repo_at_disk (w w' : World) (rp : string) :
  disk w' = disk w -> repo_at w' rp = repo_at w rp.
Proof. unfold repo_at. intros ->. reflexivity. Qed.

Lemma repo_at_lookup (w : World) (rp : string) (r : Repository) :
  disk w !! rp = Some (Some r) -> repo_at w rp = Some r.
Proof. unfold repo_at. intros ->. reflexivity. Qed.

#[global] Instance grows_refl P : Reflexive (grows P).
Proof. intros w rp r c Hr Hc. right. eauto. Qed.

#[global] Instance grows_trans P : Transitive (grows P).
Proof.
  intros w1 w2 w3 H12 H23 rp r c Hr Hc.
  destruct (H23 rp r c Hr Hc) as [HP|(r2 & Hr2 & Hc2)]; [left; assumption|].
  exact (H12 rp r2 c Hr2 Hc2).
Qed.

#[global] Instance keeps_refl S : Reflexive (keeps S).
Proof. intros w rp n t _ H. exact H. Qed.

#[global] Instance keeps_trans S : Transitive (keeps S).
Proof. intros w1 w2 w3 H12 H23 rp n t HS H. eauto. Qed.

Lemma grows_disk P (w w' : World) : disk w' = disk w -> grows P w w'.
Proof.
  intros Hd rp r c Hr Hc. right. exists r.
  rewrite <- (repo_at_disk w w') by assumption. auto.
Qed.

Lemma grows_insert P (h : string) (x : option Repository) (w : World) :
  (forall r', x = Some r' -> forall c, In c (odb r') ->
     P c \/ exists r, repo_at w h = Some r /\ In c (odb r)) ->
  grows P w (set_disk (fun d => <[h := x]> d) w).
Proof.
  intros H rp r' c. rewrite repo_at_insert.
  destruct (decide (h = rp)) as [<-|Hne].
  - intros -> Hc. exact (H r' eq_refl c Hc).
  - intros Hr Hc. right. eauto.
Qed.

Lemma keeps_disk S (w w' : World) : disk w' = disk w -> keeps S w w'.
Proof.
  intros Hd rp n t _. unfold branch_pointer.
  rewrite (repo_at_disk w w') by assumption. auto.
Qed.

Lemma keeps_insert S (h : string) (x : option Repository) (w : World) :
  (forall r n t, S n -> repo_at w h = Some r -> refs r !! n = Some t ->
     exists r', x = Some r' /\ refs r' !! n = Some t) ->
  keeps S w (set_disk (fun d => <[h := x]> d) w).
Proof.
  intros H rp n t HS. unfold branch_pointer. rewrite repo_at_insert.
  destruct (decide (h = rp)) as [<-|Hne]; [|auto].
  destruct (repo_at w h) as [r|] eqn:Hr; [|discriminate].
  intros Ht. destruct (H r n t HS eq_refl Ht) as (r' & -> & Hr'). exact Hr'.
Qed.

(** Runs a primitive of the object store on a world [w], case by case. *)
Ltac run_primitive w :=
  intros w;
  cbv beta iota delta [bind io modify get ret raise lift fs_op uuid4
                       Git.the_repo Git.put_repo Git.branches_get];
  simpl;
  repeat (case_match; simpl in *; simplify_eq); simpl.

Section Primitives.

Context (P : Commit -> Prop) (S : string -> Prop).

Ltac grows_cases :=
  first
    [ reflexivity
    | apply grows_disk; reflexivity
    | apply grows_insert; intros ? [= <-] ? []
    | apply grows_insert; intros ? [= <-] c_ Hc_; simpl in Hc_;
      try apply in_app_or in Hc_;
      try (destruct Hc_ as [Hc_|[<-|[]]]; [|left; assumption]);
      right; eexists; (split; [apply repo_at_lookup; eassumption | assumption]) ].

Ltac keeps_cases :=
  first
    [ reflexivity
    | apply keeps_disk; reflexivity
    | apply keeps_insert; intros r_ n_ t_ HS_ Hr_ Ht_;
      unfold repo_at in Hr_; simplify_option_eq;
      eexists; (split; [reflexivity|]); simpl; try assumption ].

#[global] Instance grows_stable : GitStable (grows P) P (fun _ => True).
Proof.
  split; try apply _.
  - apply grows_disk.
  - intros p. unfold AddonGitRepository.makedirs. run_primitive w; grows_cases.
  - intros p. unfold Git.init_repository. run_primitive w; grows_cases.
  - intros h ref a k m t ps HP. unfold Git.create_commit.
    run_primitive w; grows_cases.
  - intros h n c. unfold Git.create_branch. run_primitive w; grows_cases.
  - intros b c _. unfold Git.set_target. run_primitive w; grows_cases.
  - intros h n p. unfold Git.add_worktree. run_primitive w; grows_cases.
  - intros h n. unfold Git.prune. run_primitive w; grows_cases.
  - intros b _. unfold Git.branch_delete. run_primitive w; grows_cases.
Qed.

#[global] Instance keeps_stable : GitStable (keeps S) (fun _ => True) (fun n => ~ S n).
Proof.
  split; try apply _.
  - apply keeps_disk.
  - intros p. unfold AddonGitRepository.makedirs. run_primitive w; keeps_cases.
  - intros p. unfold Git.init_repository. run_primitive w; keeps_cases.
  - intros h ref a k m t ps _. unfold Git.create_commit.
    run_primitive w; keeps_cases;
      try (rewrite lookup_insert_ne; [assumption | congruence]).
  - intros h n c. unfold Git.create_branch. run_primitive w; keeps_cases;
      try (rewrite lookup_insert_ne; [assumption | congruence]).
  - intros b c HS. unfold Git.set_target. run_primitive w; keeps_cases;
      try (rewrite lookup_insert_ne; [assumption | congruence]).
  - intros h n p. unfold Git.add_worktree. run_primitive w; keeps_cases.
    rewrite lookup_insert_ne; [assumption|]. intros <-.
    repeat match goal with
           | H : _ || _ = false |- _ => apply orb_false_iff in H as [? ?]
           end.
    match goal with
    | H : bool_decide (is_Some _) = false |- _ =>
        apply bool_decide_eq_false in H; apply H; eauto
    end.
  - intros h n. unfold Git.prune. run_primitive w; keeps_cases.
  - intros b HS. unfold Git.branch_delete. run_primitive w; keeps_cases;
      try (rewrite lookup_delete_ne; [assumption | congruence]).
Qed.

End Primitives.

(* ===================================================================== *)
(** ** Every step of the module respects a stable relation *)
(* ===================================================================== *)

Lemma format_hex_length (width : nat) (n : N) (acc : string) :
  String.length (Uuid.format_hex width n acc) = width + String.length acc.
Proof.
  revert n acc. induction width as [|width IH]; intros n acc; simpl.
  - reflexivity.
  - rewrite IH. simpl. lia.
Qed.

Lemma hex_length (u : N) : String.length (Uuid.hex u) = 32.
Proof. unfold Uuid.hex. rewrite format_hex_length. reflexivity. Qed.

Lemma respects_with_inv (R : World -> World -> Prop)
    `{!Reflexive R} `{!Transitive R} {T A} (I : T -> Prop)
    (mgr : Py T) (enter : T -> Py T) (exit : T -> Py unit) (body : T -> Py A) :
  respects R mgr -> (forall w s w', mgr w = (Return s, w') -> I s) ->
  (forall s, respects R (enter s)) ->
  (forall s w s' w', I s -> enter s w = (Return s', w') -> I s') ->
  (forall s, I s -> respects R (exit s)) ->
  (forall s, respects R (body s)) ->
  respects R (with_ mgr enter exit body).
Proof.
  intros Hm HI He HIe Hx Hb w. unfold with_, bind.
  specialize (Hm w). destruct (mgr w) as [[s|e] w1] eqn:Em; [|exact Hm].
  simpl in Hm. specialize (He s w1).
  destruct (enter s w1) as [[s'|e] w2] eqn:Ee;
    [|simpl in *; etransitivity; eassumption].
  simpl in He.
  assert (Hs' : I s') by (eapply HIe; [eapply HI|]; eassumption).
  pose proof (respects_try_finally R _ _ (Hb s') (Hx s' Hs') w2) as Ht.
  etransitivity; [exact Hm|]. etransitivity; [exact He | exact Ht].
Qed.

Section Programs.

Context {ext : Externals}.
Context (R : World -> World -> Prop) (ok_commit : Commit -> Prop)
        (ok_move : string -> Prop) `{!GitStable R ok_commit ok_move}.

Lemma respects_unchanged {A} (m : Py A) :
  (forall w, snd (m w) = w) -> respects R m.
Proof. intros H w. rewrite H. reflexivity. Qed.

Lemma respects_modify (f : World -> World) :
  (forall w, disk (f w) = disk w) -> respects R (modify f).
Proof. intros H w. apply stable_disk. apply H. Qed.

Lemma respects_uuid4 : respects R uuid4.
Proof. intros w. apply stable_disk. reflexivity. Qed.

Lemma respects_fs_op op f : respects R (fs_op op f).
Proof.
  run_primitive w; first [reflexivity | apply stable_disk; reflexivity].
Qed.

Lemma respects_the_repo h : respects R (Git.the_repo h).
Proof. apply respects_unchanged. run_primitive w; reflexivity. Qed.

Lemma respects_branches_get h n : respects R (Git.branches_get h n).
Proof. apply respects_unchanged. run_primitive w; reflexivity. Qed.

Lemma respects_head_peel h : respects R (Git.head_peel h).
Proof.
  apply respects_unchanged. unfold Git.head_peel. run_primitive w; reflexivity.
Qed.

Lemma respects_worktree_head_tree h n : respects R (Git.worktree_head_tree h n).
Proof.
  apply respects_unchanged. unfold Git.worktree_head_tree.
  run_primitive w; reflexivity.
Qed.

Lemma respects_Repository_open p : respects R (Git.Repository_open p).
Proof.
  apply respects_unchanged. unfold Git.Repository_open.
  run_primitive w; reflexivity.
Qed.

Lemma respects_TreeBuilder_write h : respects R (Git.TreeBuilder_write h).
Proof.
  apply respects_unchanged. unfold Git.TreeBuilder_write.
  run_primitive w; reflexivity.
Qed.

Lemma st_bind {A B} (m : Py A) (k : A -> Py B) :
  respects R m -> (forall a, respects R (k a)) -> respects R (bind m k).
Proof. apply respects_bind; apply _. Qed.

Lemma st_ret {A} (a : A) : respects R (ret a).
Proof. apply respects_ret; apply _. Qed.

Lemma st_raise {A} (e : Exn) : respects R (@raise A e).
Proof. apply respects_raise; apply _. Qed.

Lemma st_get {A} (f : World -> A) : respects R (get f).
Proof. apply respects_get; apply _. Qed.

Lemma st_io op e : respects R (io op e).
Proof. apply respects_io; apply _. Qed.

Lemma st_lift {A} (r : Exn + A) : respects R (lift r).
Proof. apply respects_lift; apply _. Qed.

Lemma st_for {X} (xs : list X) (body : X -> Py unit) :
  (forall x, respects R (body x)) -> respects R (for_ xs body).
Proof. apply respects_for; apply _. Qed.

Lemma st_try_finally {A} (body : Py A) (final : Py unit) :
  respects R body -> respects R final -> respects R (try_finally body final).
Proof. apply respects_try_finally; apply _. Qed.

(** One step of a program, by the lemma of the primitive or by the rule
    of the control structure. *)
Ltac stable_step :=
  lazymatch goal with
  | |- respects _ (bind _ _) => apply st_bind; [|intros ?]
  | |- respects _ (ret _) => apply st_ret
  | |- respects _ (raise _) => apply st_raise
  | |- respects _ (get _) => apply st_get
  | |- respects _ (io _ _) => apply st_io
  | |- respects _ (lift _) => apply st_lift
  | |- respects _ (for_ _ _) => apply st_for; intros ?
  | |- respects _ (try_finally _ _) => apply st_try_finally
  | |- respects _ (modify _) => apply respects_modify; reflexivity
  | |- respects _ uuid4 => apply respects_uuid4
  | |- respects _ (fs_op _ _) => apply respects_fs_op
  | |- respects _ (Git.the_repo _) => apply respects_the_repo
  | |- respects _ (Git.branches_get _ _) => apply respects_branches_get
  | |- respects _ (Git.head_peel _) => apply respects_head_peel
  | |- respects _ (Git.worktree_head_tree _ _) => apply respects_worktree_head_tree
  | |- respects _ (Git.Repository_open _) => apply respects_Repository_open
  | |- respects _ (Git.TreeBuilder_write _) => apply respects_TreeBuilder_write
  | |- respects _ (AddonGitRepository.makedirs _) => apply stable_makedirs
  | |- respects _ (Git.init_repository _) => apply stable_init_repository
  | |- respects _ (Git.create_branch _ _ _) => apply stable_create_branch
  | |- respects _ (Git.add_worktree _ _ _) => apply stable_add_worktree
  | |- respects _ (Git.prune _ _) => apply stable_prune
  | |- respects _ (Git.create_commit _ _ _ _ _ _ _) =>
      apply stable_create_commit; auto
  | |- respects _ (Git.set_target _ _) => apply stable_set_target; auto
  | |- respects _ (Git.branch_delete _) => apply stable_branch_delete; auto
  | |- respects _ (match ?x with _ => _ end) => destruct x
  | |- respects _ (let '(_, _) := ?x in _) => destruct x
  end.

Ltac stable_program := repeat stable_step.

Lemma respects_mkdtemp : respects R mkdtemp.
Proof using GitStable0. unfold mkdtemp. stable_program. Qed.

Lemma respects_worktree_init h : respects R (TemporaryWorktree.__init__ h).
Proof using GitStable0.
  unfold TemporaryWorktree.__init__. stable_program. apply respects_mkdtemp.
Qed.

Lemma respects_worktree_enter s : respects R (TemporaryWorktree.__enter__ s).
Proof using GitStable0. unfold TemporaryWorktree.__enter__. stable_program. Qed.

(** The branch a lookup finds carries the name that was looked up. *)
Lemma respects_lookup_branch {A} h n (k : option Git.Branch -> Py A) :
  respects R (k None) ->
  (forall t, respects R (k (Some (Git.mkBranch h n t)))) ->
  respects R (bind (Git.lookup_branch h n) k).
Proof using GitStable0.
  intros HN HS w. unfold Git.lookup_branch, Git.branches_get, Git.the_repo, bind, ret.
  destruct (disk w !! h) as [[r|]|]; try reflexivity.
  destruct (refs r !! n) as [t|]; simpl; [apply HS | apply HN].
Qed.

Lemma respects_worktree_exit s :
  ok_move (TemporaryWorktree.name s) -> respects R (TemporaryWorktree.__exit__ s).
Proof using GitStable0.
  intros Hn. unfold TemporaryWorktree.__exit__.
  apply st_bind; [stable_program|intros _].
  apply st_bind; [stable_program|intros _].
  apply respects_lookup_branch; [stable_program|intros t].
  apply stable_branch_delete. exact Hn.
Qed.

Lemma respects_git_repository_at depth self :
  (forall tree, ok_commit (mkCommit tree ROBOT ROBOT "Initializing repository" [])) ->
  respects R (AddonGitRepository.git_repository_at depth self).
Proof using GitStable0.
  intros Hroot. revert self.
  induction depth as [|depth IH]; intros self; simpl.
  - stable_program.
  - unfold AddonGitRepository.is_extracted. stable_program. apply IH.
Qed.

Lemma respects_git_repository self :
  (forall tree, ok_commit (mkCommit tree ROBOT ROBOT "Initializing repository" [])) ->
  respects R (AddonGitRepository.git_repository self).
Proof using GitStable0. apply respects_git_repository_at. Qed.

Lemma respects_find_or_create_branch self name :
  (forall tree, ok_commit (mkCommit tree ROBOT ROBOT "Initializing repository" [])) ->
  respects R (AddonGitRepository.find_or_create_branch self name).
Proof using GitStable0.
  intros Hroot. unfold AddonGitRepository.find_or_create_branch.
  pose proof (respects_git_repository) as Hg.
  stable_program; apply Hg; assumption.
Qed.

Lemma respects_rename_dot_git p files :
  respects R (AddonGitRepository.rename_dot_git p files).
Proof using GitStable0.
  unfold AddonGitRepository.rename_dot_git. stable_program.
Qed.

Lemma respects_commit_in_worktree path message author branch worktree :
  (forall tree, ok_commit (mkCommit tree (get_author author) (get_author None)
                             message [Git.target branch])) ->
  ok_move (Git.branch_name branch) ->
  respects R (AddonGitRepository.commit_in_worktree path message author branch worktree).
Proof using GitStable0.
  intros Hc Hm. unfold AddonGitRepository.commit_in_worktree.
  unfold Index.read, Index.add_all, Index.write, Index.write_tree.
  pose proof respects_rename_dot_git as Hr.
  stable_program. apply Hr.
Qed.

End Programs.

(* ===================================================================== *)
(** ** What the steps return *)
(* ===================================================================== *)

(** Runs the primitives in the hypothesis [H], case by case. *)
Ltac run_in H :=
  cbv beta iota delta [bind io modify get ret raise lift fs_op uuid4
                       Git.the_repo Git.put_repo Git.branches_get] in H;
  simpl in H;
  repeat (case_match; simpl in *; simplify_eq).

Tactic Notation "inv_bind" hyp(H) "as" simple_intropattern(a) ident(w) ident(Hm) :=
  apply bind_inv_return in H as (a & w & Hm & H).

Lemma ret_inv {A} (a b : A) w w' : ret a w = (Return b, w') -> a = b /\ w = w'.
Proof. intros [= -> ->]. auto. Qed.

Lemma add_worktree_returns h n p w x w' :
  Git.add_worktree h n p w = (Return x, w') -> x = n.
Proof. unfold Git.add_worktree. intros H. run_in H. reflexivity. Qed.

Lemma Repository_open_returns p w x w' :
  Git.Repository_open p w = (Return x, w') -> x = p /\ w' = w.
Proof. unfold Git.Repository_open. intros H. run_in H. auto. Qed.

Lemma Repository_open_exists p w x w' :
  Git.Repository_open p w = (Return x, w') ->
  exists r, disk w !! p = Some (Some r).
Proof. unfold Git.Repository_open. intros H. run_in H. eauto. Qed.

Lemma branches_get_returns h n w x w' :
  Git.branches_get h n w = (Return x, w') ->
  w' = w /\ exists r, repo_at w h = Some r /\ x = Git.mkBranch h n <$> refs r !! n.
Proof.
  intros H. run_in H. split; [reflexivity|].
  eexists. split; [apply repo_at_lookup; eassumption | reflexivity].
Qed.

Lemma create_branch_returns h n c w x w' :
  Git.create_branch h n c w = (Return x, w') -> x = Git.mkBranch h n c.
Proof. unfold Git.create_branch. intros H. run_in H. reflexivity. Qed.

Lemma worktree_init_returns {ext : Externals} h w s w' :
  TemporaryWorktree.__init__ h w = (Return s, w') ->
  TemporaryWorktree.git_repository s = h /\
  TemporaryWorktree.obj s = None /\
  exists u, TemporaryWorktree.name s = Uuid.hex u.
Proof.
  unfold TemporaryWorktree.__init__. intros H.
  inv_bind H as u w1 Hu. inv_bind H as d w2 Hd.
  apply ret_inv in H as [<- _]. simpl. eauto.
Qed.

Lemma worktree_enter_returns s w s' w' :
  TemporaryWorktree.__enter__ s w = (Return s', w') ->
  s' = {| TemporaryWorktree.git_repository := TemporaryWorktree.git_repository s;
          TemporaryWorktree.name := TemporaryWorktree.name s;
          TemporaryWorktree.temp_directory := TemporaryWorktree.temp_directory s;
          TemporaryWorktree.path := TemporaryWorktree.path s;
          TemporaryWorktree.extraction_target_path :=
            TemporaryWorktree.extraction_target_path s;
          TemporaryWorktree.obj := Some (TemporaryWorktree.name s);
          TemporaryWorktree.repo := Some (TemporaryWorktree.git_repository s) |}.
Proof.
  unfold TemporaryWorktree.__enter__. intros H.
  inv_bind H as obj w1 Hobj. apply add_worktree_returns in Hobj as ->.
  inv_bind H as repo w2 Hrepo. apply Repository_open_returns in Hrepo as [-> _].
  inv_bind H as tree w3 Htree. inv_bind H as x4 w4 H4. inv_bind H as x5 w5 H5.
  apply ret_inv in H as [<- _]. reflexivity.
Qed.

Lemma find_or_create_branch_name self name w b self' w' :
  AddonGitRepository.find_or_create_branch self name w = (Return (b, self'), w') ->
  Git.branch_name b = name.
Proof.
  unfold AddonGitRepository.find_or_create_branch. intros H.
  inv_bind H as [repo self1] w1 H1.
  inv_bind H as found w2 H2. apply branches_get_returns in H2 as (-> & r & Hr & ->).
  destruct (refs r !! name) as [t|]; simpl in H.
  - apply ret_inv in H as [[= <- <-] _]. reflexivity.
  - inv_bind H as [repo2 self2] w3 H3.
    inv_bind H as [repo3 self3] w4 H4.
    inv_bind H as c w5 H5. inv_bind H as b' w6 H6.
    apply create_branch_returns in H6 as ->.
    apply ret_inv in H as [[= <- <-] _]. reflexivity.
Qed.

Section Pipeline.

Context {ext : Externals}.
Context (R : World -> World -> Prop) (ok_commit : Commit -> Prop)
        (ok_move : string -> Prop) `{!GitStable R ok_commit ok_move}.

(** A step that is respected, and whose results all satisfy [Q], may be
    followed by steps that are respected for such results. *)
Lemma st_bind_returning {A B} (Q : A -> Prop) (m : Py A) (k : A -> Py B) :
  respects R m -> (forall w a w', m w = (Return a, w') -> Q a) ->
  (forall a, Q a -> respects R (k a)) -> respects R (bind m k).
Proof using GitStable0.
  intros Hm HQ Hk w. unfold bind. specialize (Hm w).
  destruct (m w) as [[a|e] w1] eqn:E; simpl in *; [|assumption].
  etransitivity; [exact Hm | apply Hk; eapply HQ; eassumption].
Qed.

Lemma st_bind_ret {A B} (a : A) (k : A -> Py B) :
  respects R (k a) -> respects R (bind (ret a) k).
Proof. intros H w. exact (H w). Qed.

Lemma st_bind_raise {A B} (e : Exn) (k : A -> Py B) :
  respects R (bind (raise e) k).
Proof using GitStable0. intros w. reflexivity. Qed.

Lemma respects_commit_through_worktree self path message author branch :
  (forall tree, ok_commit (mkCommit tree ROBOT ROBOT "Initializing repository" [])) ->
  (forall tree, ok_commit (mkCommit tree (get_author author) (get_author None)
                             message [Git.target branch])) ->
  ok_move (Git.branch_name branch) ->
  (forall n, String.length n = 32 -> ok_move n) ->
  respects R (AddonGitRepository._commit_through_worktree
                self path message author branch).
Proof using GitStable0.
  intros Hroot Hc Hb Hn. unfold AddonGitRepository._commit_through_worktree.
  apply (respects_bind R); [apply (respects_git_repository R ok_commit ok_move); assumption|].
  intros [repo self1].
  apply (respects_bind R); [|intros c; apply respects_ret; apply _].
  apply (respects_with_inv R
           (fun s => String.length (TemporaryWorktree.name s) = 32)).
  - apply (respects_worktree_init R ok_commit ok_move).
  - intros w s w' (_ & _ & u & ->)%worktree_init_returns. apply hex_length.
  - apply (respects_worktree_enter R ok_commit ok_move).
  - intros s w s' w' Hs ->%worktree_enter_returns. exact Hs.
  - intros s Hs. apply (respects_worktree_exit R ok_commit ok_move). auto.
  - intros s. apply (respects_commit_in_worktree R ok_commit ok_move); assumption.
Qed.

Lemma respects_extract_and_commit_from_version version author :
  (forall tree, ok_commit (mkCommit tree ROBOT ROBOT "Initializing repository" [])) ->
  (forall tree msg t, ok_commit (mkCommit tree (get_author author) ROBOT msg [t])) ->
  (forall n, BRANCHES (channel version) = Some n -> ok_move n) ->
  (forall n, String.length n = 32 -> ok_move n) ->
  respects R (AddonGitRepository.extract_and_commit_from_version version author).
Proof using GitStable0.
  intros Hroot Hc Hb Hn.
  unfold AddonGitRepository.extract_and_commit_from_version,
    AddonGitRepository.get_language, AddonGitRepository.activate,
    AddonGitRepository.__init__, AddonGitRepository.version_update_git_hash.
  apply (respects_bind R); [apply respects_get; apply _ | intros lang0].
  apply (respects_try_finally R); [|apply (respects_modify R ok_commit ok_move); reflexivity].
  apply (respects_bind R); [apply (respects_modify R ok_commit ok_move); reflexivity | intros _].
  apply (respects_bind R);
    [simpl; apply respects_ret; apply _ | intros repo].
  destruct (all_files version) as [|file_obj files];
    [apply st_bind_raise | apply st_bind_ret].
  destruct (BRANCHES (channel version)) as [name|] eqn:Ename;
    [apply st_bind_ret | apply st_bind_raise].
  eapply (st_bind_returning (fun x => Git.branch_name (fst x) = name)).
  - apply (respects_find_or_create_branch R ok_commit ok_move); assumption.
  - intros w [b self'] w' H. exact (find_or_create_branch_name _ _ _ _ _ _ H).
  - intros [branch repo'] Hbn. simpl in Hbn.
    apply (respects_bind R); [apply respects_get; apply _ | intros lang].
    apply (respects_bind R).
    + apply respects_commit_through_worktree; auto.
      rewrite Hbn. auto.
    + intros [commit repo''].
      apply (respects_bind R); [|intros _; apply respects_ret; apply _].
      apply (respects_bind R); [apply respects_io; apply _ | intros _].
      apply (respects_modify R ok_commit ok_move); reflexivity.
Qed.

Lemma respects_extract_and_commit_source_from_version version author :
  (forall tree, ok_commit (mkCommit tree ROBOT ROBOT "Initializing repository" [])) ->
  (forall tree msg t, ok_commit (mkCommit tree (get_author author) ROBOT msg [t])) ->
  (forall n, BRANCHES (channel version) = Some n -> ok_move n) ->
  (forall n, String.length n = 32 -> ok_move n) ->
  respects R (AddonGitRepository.extract_and_commit_source_from_version version author).
Proof using GitStable0.
  intros Hroot Hc Hb Hn.
  unfold AddonGitRepository.extract_and_commit_source_from_version,
    AddonGitRepository.get_language, AddonGitRepository.__init__,
    AddonGitRepository.version_update_source_git_hash.
  apply (respects_bind R);
    [simpl; apply respects_ret; apply _ | intros repo].
  destruct (BRANCHES (channel version)) as [name|] eqn:Ename;
    [apply st_bind_ret | apply st_bind_raise].
  eapply (st_bind_returning (fun x => Git.branch_name (fst x) = name)).
  - apply (respects_find_or_create_branch R ok_commit ok_move); assumption.
  - intros w [b self'] w' H. exact (find_or_create_branch_name _ _ _ _ _ _ H).
  - intros [branch repo'] Hbn. simpl in Hbn.
    apply (respects_bind R); [apply respects_get; apply _ | intros lang].
    apply (respects_bind R).
    + apply respects_commit_through_worktree; auto.
      rewrite Hbn. auto.
    + intros [commit repo''].
      apply (respects_bind R); [|intros _; apply respects_ret; apply _].
      apply (respects_bind R); [apply respects_io; apply _ | intros _].
      apply (respects_modify R ok_commit ok_move); reflexivity.
Qed.

End Pipeline.

Lemma with_inv_return {T A} (mgr : Py T) (enter : T -> Py T)
    (exit : T -> Py unit) (body : T -> Py A) w a w' :
  with_ mgr enter exit body w = (Return a, w') ->
  exists s0 w0 s w1 w2,
    mgr w = (Return s0, w0) /\ enter s0 w0 = (Return s, w1) /\
    body s w1 = (Return a, w2) /\ exit s w2 = (Return tt, w').
Proof.
  unfold with_. intros H.
  inv_bind H as s0 w0 H0. inv_bind H as s w1 H1.
  apply try_finally_inv in H as (r & w2 & Hb & [[Hx ->]|(e & _ & [=])]).
  exists s0, w0, s, w1, w2. auto.
Qed.

Lemma create_commit_returns h a k m t ps w c w' :
  Git.create_commit h None a k m t ps w = (Return c, w') ->
  c = mkCommit t a k m ps /\ keeps (fun _ => True) w w'.
Proof.
  intros H. split.
  - unfold Git.create_commit in H. run_in H. reflexivity.
  - pose proof (stable_create_commit (GitStable := keeps_stable (fun _ => True))
                  h None a k m t ps I w) as Hk.
    rewrite H in Hk. exact Hk.
Qed.

Lemma set_target_returns b c w x w' :
  Git.set_target b c w = (Return x, w') ->
  branch_pointer w' (Git.branch_repo b) (Git.branch_name b) = Some c.
Proof.
  unfold Git.set_target. intros H. run_in H.
  unfold branch_pointer. rewrite repo_at_insert.
  rewrite decide_True by reflexivity. simpl. apply lookup_insert_eq.
Qed.

Lemma commit_in_worktree_returns {ext : Externals}
    path message author branch worktree w c w' :
  AddonGitRepository.commit_in_worktree path message author branch worktree w
    = (Return c, w') ->
  (exists tree, c = mkCommit tree (get_author author) ROBOT message
                      [Git.target branch]) /\
  branch_pointer w' (Git.branch_repo branch) (Git.branch_name branch) = Some c.
Proof.
  unfold AddonGitRepository.commit_in_worktree. intros H.
  inv_bind H as fs w1 H1. inv_bind H as fs' w2 H2. inv_bind H as x3 w3 H3.
  inv_bind H as x4 w4 H4. inv_bind H as x5 w5 H5. inv_bind H as staged w6 H6.
  inv_bind H as x7 w7 H7. inv_bind H as tree w8 H8.
  destruct (TemporaryWorktree.repo worktree) as [wrepo|]; [|discriminate].
  inv_bind H as c' w9 H9. inv_bind H as x10 w10 H10.
  apply ret_inv in H as [<- <-].
  apply create_commit_returns in H9 as [-> _].
  split; [eexists; reflexivity|].
  exact (set_target_returns _ _ _ _ _ H10).
Qed.

Lemma ne_length (a b : string) : String.length a <> String.length b -> a <> b.
Proof. intros H ->. apply H. reflexivity. Qed.

(** A commit that [_commit_through_worktree] returns is the commit it
    made on top of the target of the branch, and the branch points at it,
    unless the branch bears a name as random names are. *)
Lemma commit_through_worktree_returns {ext : Externals}
    self path message author branch w c self' w' :
  AddonGitRepository._commit_through_worktree self path message author branch w
    = (Return (c, self'), w') ->
  (exists tree, c = mkCommit tree (get_author author) ROBOT message
                      [Git.target branch]) /\
  (String.length (Git.branch_name branch) <> 32 ->
   branch_pointer w' (Git.branch_repo branch) (Git.branch_name branch) = Some c).
Proof.
  unfold AddonGitRepository._commit_through_worktree. intros H.
  inv_bind H as [repo self1] w1 H1. inv_bind H as c' w2 H2.
  apply ret_inv in H as [[= <- <-] <-].
  apply with_inv_return in H2 as (s0 & w3 & s & w4 & w5 & Hi & He & Hb & Hx).
  apply commit_in_worktree_returns in Hb as [Hc Hp].
  split; [exact Hc|]. intros Hlen.
  apply worktree_init_returns in Hi as (_ & _ & u & Hu).
  apply worktree_enter_returns in He.
  pose proof (respects_worktree_exit
                (keeps (fun n => n = Git.branch_name branch))
                (fun _ => True) (fun n => n <> Git.branch_name branch)) as Hk.
  assert (Hne : TemporaryWorktree.name s <> Git.branch_name branch).
  { rewrite He. simpl. rewrite Hu. apply ne_length. rewrite hex_length.
    congruence. }
  specialize (Hk s Hne w5). rewrite Hx in Hk.
  exact (Hk _ _ _ eq_refl Hp).
Qed.

(* ===================================================================== *)
(** ** C7: the identities on a commit *)
(* ===================================================================== *)

(** C7.  Every commit the pipeline writes to an object store has the
    fixed service identity as its committer; its author is the identity of
    the uploading user when one is given and the fixed service identity
    otherwise, but for the root commit of a repository the upload
    initialises, whose author is the service identity as well.  The commit
    an upload returns is authored by the uploader in that sense. *)
Theorem commits_carry_the_identities {ext : Externals}
    (version : Version) (author : option User) (w : World) :
  get_author None =
    {| sig_name := "Mozilla Add-ons Robot";
       sig_email := "addons-dev-automation+github@mozilla.com" |} /\
  (forall u, get_author (Some u) =
     {| sig_name := user_name u; sig_email := user_email u |}) /\
  (forall upload,
     upload = AddonGitRepository.extract_and_commit_from_version \/
     upload = AddonGitRepository.extract_and_commit_source_from_version ->
     forall rp r' c,
       repo_at (snd (upload version author w)) rp = Some r' -> In c (odb r') ->
       (commit_committer c = get_author None /\
        (commit_author c = get_author author \/
         commit_author c = get_author None /\ commit_parents c = [])) \/
       (exists r, repo_at w rp = Some r /\ In c (odb r))) /\
  (forall self path message branch c self' w',
     AddonGitRepository._commit_through_worktree
       self path message author branch w = (Return (c, self'), w') ->
     commit_committer c = get_author None /\
     commit_author c = get_author author /\
     commit_message c = message /\
     commit_parents c = [Git.target branch]).
Proof.
  split; [reflexivity|]. split; [reflexivity|]. split.
  - set (P := fun c => commit_committer c = get_author None /\
                (commit_author c = get_author author \/
                 commit_author c = get_author None /\ commit_parents c = [])).
    assert (Hroot : forall tree,
              P (mkCommit tree ROBOT ROBOT "Initializing repository" [])).
    { intros tree. split; [reflexivity|]. right. split; reflexivity. }
    assert (Hc : forall tree msg t,
              P (mkCommit tree (get_author author) ROBOT msg [t])).
    { intros tree msg t. split; [reflexivity|]. left. reflexivity. }
    intros upload [->| ->] rp r' c Hr Hin.
    + exact (respects_extract_and_commit_from_version (grows P) P (fun _ => True)
               version author Hroot Hc (fun _ _ => I) (fun _ _ => I) w rp r' c Hr Hin).
    + exact (respects_extract_and_commit_source_from_version (grows P) P
               (fun _ => True) version author Hroot Hc (fun _ _ => I)
               (fun _ _ => I) w rp r' c Hr Hin).
  - intros self path message branch c self' w' H.
    apply commit_through_worktree_returns in H as [(tree & ->) _].
    repeat split.
Qed.

(* ===================================================================== *)
(** ** C9: the active language *)
(* ===================================================================== *)


(* ===================================================================== *)
(** ** C3: opening or initialising the repository *)
(* ===================================================================== *)

Lemma git_repository_at_step depth self :
  AddonGitRepository.git_repository_at (S depth) self =
  match AddonGitRepository.cached_git_repository self with
  | Some h => ret (h, self)
  | None =>
      extracted <- AddonGitRepository.is_extracted self ;;
      let2 res, self' <-
        (if negb extracted then
           AddonGitRepository.makedirs
             (AddonGitRepository.git_repository_path self) ;;
           git_repository <-
             Git.init_repository (AddonGitRepository.git_repository_path self) ;;
           let2 inner, self0 <-
             AddonGitRepository.git_repository_at depth self ;;
           tree <- Git.TreeBuilder_write inner ;;
           Git.create_commit git_repository (Some "HEAD")
             (get_author None) (get_author None)
             "Initializing repository" tree [] ;;
           ret (git_repository, self0)
         else
           git_repository <-
             Git.Repository_open (AddonGitRepository.git_repository_path self) ;;
           ret (git_repository, self)) ;;
      ret (res, {| AddonGitRepository.git_repository_path :=
                     AddonGitRepository.git_repository_path self';
                   AddonGitRepository.cached_git_repository := Some res |})
  end.
Proof. reflexivity. Qed.

Lemma git_repository_at_cached depth self h w :
  AddonGitRepository.cached_git_repository self = Some h ->
  AddonGitRepository.git_repository_at depth self w = (Return (h, self), w).
Proof. intros Hc. destruct depth; simpl; rewrite Hc; reflexivity. Qed.

(** Reading the property when the path exists: the repository is opened,
    nothing changes. *)
Lemma git_repository_at_existing depth self w :
  AddonGitRepository.cached_git_repository self = None ->
  is_Some (disk w !! AddonGitRepository.git_repository_path self) ->
  AddonGitRepository.git_repository_at (S depth) self w =
  (let2 h, self' <-
     (h <- Git.Repository_open (AddonGitRepository.git_repository_path self) ;;
      ret (h, self)) ;;
   ret (h, {| AddonGitRepository.git_repository_path :=
                AddonGitRepository.git_repository_path self';
              AddonGitRepository.cached_git_repository := Some h |})) w.
Proof.
  intros Hc Hex. simpl. rewrite Hc.
  unfold AddonGitRepository.is_extracted.
  unfold bind at 1. unfold get.
  rewrite bool_decide_eq_true_2 by assumption. reflexivity.
Qed.

Lemma Repository_open_unchanged p w :
  snd (Git.Repository_open p w) = w.
Proof. unfold Git.Repository_open. revert w. run_primitive w; reflexivity. Qed.

Lemma git_repository_at_existing_unchanged depth self w :
  is_Some (disk w !! AddonGitRepository.git_repository_path self) ->
  snd (AddonGitRepository.git_repository_at depth self w) = w.
Proof.
  intros Hex.
  destruct (AddonGitRepository.cached_git_repository self) as [h|] eqn:Hc.
  - rewrite (git_repository_at_cached _ _ h) by assumption. reflexivity.
  - destruct depth as [|depth]; [simpl; rewrite Hc; reflexivity|].
    rewrite git_repository_at_existing by assumption.
    pose proof (Repository_open_unchanged
                  (AddonGitRepository.git_repository_path self) w) as Ho.
    unfold bind.
    destruct (Git.Repository_open _ w) as [[h|e] w1]; simpl in *; subst;
      reflexivity.
Qed.

Lemma makedirs_run p w :
  faults w OpMakedirs = false -> disk w !! p = None ->
  AddonGitRepository.makedirs p w =
  (Return tt, set_disk (fun d => <[p := None]> d) w).
Proof.
  intros F Hd. unfold AddonGitRepository.makedirs, bind, io, get, modify.
  rewrite F. cbv beta iota. rewrite Hd. reflexivity.
Qed.

Lemma init_repository_run p w :
  faults w OpInitRepository = false -> disk w !! p = Some None ->
  Git.init_repository p w =
  (Return p, set_disk (fun d => <[p := Some {| refs := ∅; head := "master";
                                               worktrees := []; odb := [] |}]> d) w).
Proof.
  intros F Hd. unfold Git.init_repository, bind, io, get, ret, Git.put_repo, modify.
  rewrite F. cbv beta iota. rewrite Hd. reflexivity.
Qed.

Lemma Repository_open_run p r w :
  faults w OpOpenRepository = false -> disk w !! p = Some (Some r) ->
  Git.Repository_open p w = (Return p, w).
Proof.
  intros F Hd. unfold Git.Repository_open, bind, io, ret, Git.the_repo.
  rewrite F. cbv beta iota. rewrite Hd. reflexivity.
Qed.

Lemma TreeBuilder_write_run h r w :
  faults w OpTreeWrite = false -> disk w !! h = Some (Some r) ->
  Git.TreeBuilder_write h w = (Return [], w).
Proof.
  intros F Hd. unfold Git.TreeBuilder_write, bind, io, ret, Git.the_repo.
  rewrite Hd. cbv beta iota. rewrite F. reflexivity.
Qed.

Lemma create_root_commit_run h r w a k m t :
  faults w OpCreateCommit = false -> disk w !! h = Some (Some r) ->
  refs r !! head r = None ->
  Git.create_commit h (Some "HEAD") a k m t [] w =
  (Return (mkCommit t a k m []),
   set_disk (fun d => <[h := Some {| refs := <[head r := mkCommit t a k m []]> (refs r);
                                     head := head r;
                                     worktrees := worktrees r;
                                     odb := odb r ++ [mkCommit t a k m []] |}]> d) w).
Proof.
  intros F Hd Hr.
  unfold Git.create_commit, bind, io, ret, Git.the_repo, Git.put_repo, modify.
  rewrite Hd. cbv beta iota. rewrite F. cbv beta iota. rewrite Hr. reflexivity.
Qed.

(** Evaluates the first step of a sequence by the given tactic. *)
Ltac step tac := erewrite bind_return; [|solve [tac]].

(** Initialising at a path that does not exist, when no operation fails:
    the read inside the body of the property finds the path and opens the
    repository; one level of nesting is all it takes. *)
Lemma git_repository_at_fresh depth self w :
  AddonGitRepository.cached_git_repository self = None ->
  disk w !! AddonGitRepository.git_repository_path self = None ->
  faults w OpMakedirs = false -> faults w OpInitRepository = false ->
  faults w OpOpenRepository = false -> faults w OpTreeWrite = false ->
  faults w OpCreateCommit = false ->
  AddonGitRepository.git_repository_at (S (S depth)) self w =
  (Return (AddonGitRepository.git_repository_path self,
           {| AddonGitRepository.git_repository_path :=
                AddonGitRepository.git_repository_path self;
              AddonGitRepository.cached_git_repository :=
                Some (AddonGitRepository.git_repository_path self) |}),
   set_disk (fun d => <[AddonGitRepository.git_repository_path self :=
                          Some initial_repository]> d) w).
Proof.
  intros Hc Hd F1 F2 F3 F4 F5.
  rewrite git_repository_at_step.
  set (p := AddonGitRepository.git_repository_path self) in *.
  rewrite Hc.
  step ltac:(unfold AddonGitRepository.is_extracted, get; reflexivity).
  rewrite bool_decide_eq_false_2 by (fold p; rewrite Hd; intros [? [=]]).
  simpl negb. cbv iota.
  erewrite bind_return; cycle 1.
  { step ltac:(apply makedirs_run; assumption).
    step ltac:(apply init_repository_run;
               [assumption | apply lookup_insert_eq]).
    erewrite bind_return; cycle 1.
    { rewrite git_repository_at_existing;
        [|assumption|fold p; simpl; rewrite lookup_insert_eq; eauto].
      fold p.
      erewrite bind_return; cycle 1.
      { step ltac:(eapply Repository_open_run;
                   [assumption | simpl; apply lookup_insert_eq]).
        reflexivity. }
      reflexivity. }
    cbv beta iota.
    step ltac:(eapply TreeBuilder_write_run;
               [assumption | simpl; apply lookup_insert_eq]).
    step ltac:(eapply create_root_commit_run;
               [assumption | simpl; apply lookup_insert_eq | apply lookup_empty]).
    reflexivity. }
  unfold ret, set_disk. simpl. rewrite !insert_insert_eq. reflexivity.
Qed.

Lemma recursion_limit_deep : recursion_limit = S (S 998).
Proof. reflexivity. Qed.

(** The body of the property at a path that does not exist raises
    whenever its initialisation raises. *)
Ltac fresh_body_raises H Hc Hd :=
  exfalso; rewrite git_repository_at_step in H;
  rewrite Hc in H; revert H;
  erewrite bind_return by
    (unfold AddonGitRepository.is_extracted, get; reflexivity);
  rewrite bool_decide_eq_false_2 by (rewrite Hd; intros [? [=]]);
  simpl negb; cbv iota;
  erewrite (bind_raise (A := Git.Handle * AddonGitRepository.t));
    [discriminate|].

(** What reading the property returns, and what it does to get there:
    nothing, or the initialisation of a path that did not exist. *)
Lemma git_repository_at_returns depth self w h self' w' :
  wf_self self ->
  AddonGitRepository.git_repository_at (S (S depth)) self w
    = (Return (h, self'), w') ->
  h = AddonGitRepository.git_repository_path self /\
  AddonGitRepository.git_repository_path self' =
    AddonGitRepository.git_repository_path self /\
  AddonGitRepository.cached_git_repository self' =
    Some (AddonGitRepository.git_repository_path self) /\
  (w' = w \/
   disk w !! AddonGitRepository.git_repository_path self = None /\
   w' = set_disk (fun d => <[AddonGitRepository.git_repository_path self :=
                               Some initial_repository]> d) w) /\
  (AddonGitRepository.cached_git_repository self = None ->
   exists r, disk w' !! AddonGitRepository.git_repository_path self
             = Some (Some r)).
Proof.
  intros Hwf H.
  destruct (AddonGitRepository.cached_git_repository self) as [h0|] eqn:Hc.
  { rewrite (git_repository_at_cached _ _ h0) in H by assumption.
    injection H as <- <- <-.
    destruct Hwf as [Hn|Hs]; [congruence|].
    rewrite Hs in Hc. injection Hc as <-.
    repeat split; auto. congruence. }
  destruct (disk w !! AddonGitRepository.git_repository_path self)
    as [x|] eqn:Hd.
  { rewrite git_repository_at_existing in H by eauto.
    inv_bind H as [h1 self1] w1 H1. apply ret_inv in H as [[= <- <-] <-].
    inv_bind H1 as h2 w2 H2. apply ret_inv in H1 as [[= <- <-] <-].
    destruct (Repository_open_exists _ _ _ _ H2) as [r Hr].
    apply Repository_open_returns in H2 as [-> ->].
    repeat split; eauto. }
  destruct (faults w OpMakedirs) eqn:F1.
  { fresh_body_raises H Hc Hd.
    erewrite bind_raise; [reflexivity|].
    unfold AddonGitRepository.makedirs, bind, io. rewrite F1. reflexivity. }
  destruct (faults w OpInitRepository) eqn:F2.
  { fresh_body_raises H Hc Hd.
    erewrite bind_return by (apply makedirs_run; assumption).
    erewrite bind_raise; [reflexivity|].
    unfold Git.init_repository, bind, io. simpl. rewrite F2. reflexivity. }
  destruct (faults w OpOpenRepository) eqn:F3.
  { fresh_body_raises H Hc Hd.
    erewrite bind_return by (apply makedirs_run; assumption).
    erewrite bind_return by
      (apply init_repository_run; [assumption | apply lookup_insert_eq]).
    erewrite bind_raise; [reflexivity|].
    rewrite git_repository_at_existing
      by (try assumption; simpl; rewrite lookup_insert_eq; eauto).
    erewrite bind_raise; [reflexivity|].
    erewrite bind_raise; [reflexivity|].
    unfold Git.Repository_open, bind, io. simpl. rewrite F3. reflexivity. }
  assert (Hinner : forall w2,
            faults w2 OpOpenRepository = false ->
            (exists r, disk w2 !! AddonGitRepository.git_repository_path self
                       = Some (Some r)) ->
            AddonGitRepository.git_repository_at (S depth) self w2 =
            (Return (AddonGitRepository.git_repository_path self,
                     {| AddonGitRepository.git_repository_path :=
                          AddonGitRepository.git_repository_path self;
                        AddonGitRepository.cached_git_repository :=
                          Some (AddonGitRepository.git_repository_path self) |}),
             w2)).
  { intros w2 F [r Hr]. rewrite git_repository_at_existing by eauto.
    erewrite bind_return; cycle 1.
    { erewrite bind_return by (eapply Repository_open_run; eassumption).
      reflexivity. }
    reflexivity. }
  destruct (faults w OpTreeWrite) eqn:F4.
  { fresh_body_raises H Hc Hd.
    erewrite bind_return by (apply makedirs_run; assumption).
    erewrite bind_return by
      (apply init_repository_run; [assumption | apply lookup_insert_eq]).
    erewrite bind_return by
      (apply Hinner; [assumption | simpl; rewrite lookup_insert_eq; eauto]).
    cbv beta iota.
    erewrite bind_raise; [reflexivity|].
    unfold Git.TreeBuilder_write, bind, io, Git.the_repo. simpl.
    rewrite lookup_insert_eq. simpl. rewrite F4. reflexivity. }
  destruct (faults w OpCreateCommit) eqn:F5.
  { fresh_body_raises H Hc Hd.
    erewrite bind_return by (apply makedirs_run; assumption).
    erewrite bind_return by
      (apply init_repository_run; [assumption | apply lookup_insert_eq]).
    erewrite bind_return by
      (apply Hinner; [assumption | simpl; rewrite lookup_insert_eq; eauto]).
    cbv beta iota.
    erewrite bind_return by
      (eapply TreeBuilder_write_run;
         [assumption | simpl; apply lookup_insert_eq]).
    erewrite bind_raise; [reflexivity|].
    unfold Git.create_commit, bind, io, Git.the_repo. simpl.
    rewrite lookup_insert_eq. simpl. rewrite F5. reflexivity. }
  rewrite git_repository_at_fresh in H by assumption.
  injection H as <- <- <-.
  split; [reflexivity|]. split; [reflexivity|]. split; [reflexivity|].
  split; [right; split; reflexivity|].
  intros _. simpl. rewrite lookup_insert_eq. eauto.
Qed.

Lemma git_repository_returns self w h self' w' :
  wf_self self ->
  AddonGitRepository.git_repository self w = (Return (h, self'), w') ->
  h = AddonGitRepository.git_repository_path self /\
  AddonGitRepository.git_repository_path self' =
    AddonGitRepository.git_repository_path self /\
  AddonGitRepository.cached_git_repository self' =
    Some (AddonGitRepository.git_repository_path self) /\
  (w' = w \/
   disk w !! AddonGitRepository.git_repository_path self = None /\
   w' = set_disk (fun d => <[AddonGitRepository.git_repository_path self :=
                               Some initial_repository]> d) w) /\
  (AddonGitRepository.cached_git_repository self = None ->
   exists r, disk w' !! AddonGitRepository.git_repository_path self
             = Some (Some r)).
Proof.
  unfold AddonGitRepository.git_repository. rewrite recursion_limit_deep.
  apply git_repository_at_returns.
Qed.

(* ===================================================================== *)
(** ** C3: opening or initialising the repository *)
(* ===================================================================== *)

(** C3.  Read on an instance for a path that does not exist, the property
    [git_repository] creates the path and initialises a repository whose
    default branch points at the root commit: empty tree, no parents, the
    fixed identity as author and committer, the fixed message.  It does so
    whenever no outside operation fails, and what it leaves when it
    returns is that and nothing else.  Read for a path that exists, it
    opens the repository and changes nothing.  So a second instance for
    the same add-on and package type gets a handle to the same repository,
    with the same root commit. *)
Theorem git_repository_opens_or_initialises {ext : Externals}
    (addon_id : Z) (package_type : string) (w : World)
    (self : AddonGitRepository.t) :
  AddonGitRepository.__init__ addon_id package_type w = (Return self, w) ->
  (commit_tree root_commit = [] /\ commit_parents root_commit = [] /\
   commit_author root_commit = get_author None /\
   commit_committer root_commit = get_author None /\
   commit_message root_commit = "Initializing repository" /\
   refs initial_repository !! head initial_repository = Some root_commit /\
   odb initial_repository = [root_commit]) /\
  (forall w0, AddonGitRepository.__init__ addon_id package_type w0
              = (Return self, w0)) /\
  (disk w !! AddonGitRepository.git_repository_path self = None ->
   (faults w OpMakedirs = false -> faults w OpInitRepository = false ->
    faults w OpOpenRepository = false -> faults w OpTreeWrite = false ->
    faults w OpCreateCommit = false ->
    exists self',
      AddonGitRepository.git_repository self w =
      (Return (AddonGitRepository.git_repository_path self, self'),
       set_disk (fun d => <[AddonGitRepository.git_repository_path self :=
                              Some initial_repository]> d) w)) /\
   (forall h self' w',
      AddonGitRepository.git_repository self w = (Return (h, self'), w') ->
      h = AddonGitRepository.git_repository_path self /\
      w' = set_disk (fun d => <[h := Some initial_repository]> d) w /\
      repo_at w' h = Some initial_repository /\
      head_commit w' h = Some root_commit)) /\
  (is_Some (disk w !! AddonGitRepository.git_repository_path self) ->
   snd (AddonGitRepository.git_repository self w) = w) /\
  (forall h1 self1 w1,
     AddonGitRepository.git_repository self w = (Return (h1, self1), w1) ->
     snd (AddonGitRepository.git_repository self w1) = w1 /\
     (forall h2 self2 w2,
        AddonGitRepository.git_repository self w1 = (Return (h2, self2), w2) ->
        h2 = h1 /\ w2 = w1 /\ head_commit w2 h2 = head_commit w1 h1) /\
     (faults w OpOpenRepository = false ->
      exists self2,
        AddonGitRepository.git_repository self w1 = (Return (h1, self2), w1))).
Proof.
  intros Hinit.
  assert (Hc : AddonGitRepository.cached_git_repository self = None).
  { unfold AddonGitRepository.__init__ in Hinit.
    destruct (_ || _) in Hinit; [|discriminate].
    injection Hinit as <-. reflexivity. }
  assert (Hwf : wf_self self) by (left; exact Hc).
  split; [repeat split|].
  split.
  { intros w0. unfold AddonGitRepository.__init__ in *.
    destruct (_ || _); [|discriminate].
    injection Hinit as <-. reflexivity. }
  split; [|split].
  - intros Hd. split.
    + intros F1 F2 F3 F4 F5. eexists.
      unfold AddonGitRepository.git_repository.
      rewrite recursion_limit_deep.
      apply git_repository_at_fresh; assumption.
    + intros h self' w' H.
      pose proof (git_repository_returns _ _ _ _ _ Hwf H)
        as (-> & _ & _ & [->|[_ ->]] & Hex).
      * destruct (Hex Hc) as [r Hr]. congruence.
      * split; [reflexivity|]. split; [reflexivity|].
        unfold head_commit. rewrite repo_at_insert.
        rewrite decide_True by reflexivity. split; reflexivity.
  - intros Hex. apply git_repository_at_existing_unchanged. exact Hex.
  - intros h1 self1 w1 H.
    pose proof (git_repository_returns _ _ _ _ _ Hwf H)
      as (-> & _ & _ & Hw & Hex).
    destruct (Hex Hc) as [r Hr].
    assert (Hsome : is_Some (disk w1 !! AddonGitRepository.git_repository_path self))
      by eauto.
    split; [apply git_repository_at_existing_unchanged; exact Hsome|].
    split.
    + intros h2 self2 w2 H2.
      pose proof (git_repository_at_existing_unchanged recursion_limit self w1 Hsome)
        as Hu.
      unfold AddonGitRepository.git_repository in H2. rewrite H2 in Hu.
      simpl in Hu. subst w2.
      pose proof (git_repository_returns _ _ _ _ _ Hwf H2) as (-> & _).
      auto.
    + intros F3. eexists.
      unfold AddonGitRepository.git_repository.
      rewrite recursion_limit_deep.
      rewrite git_repository_at_existing by assumption.
      erewrite bind_return; cycle 1.
      { erewrite bind_return; [reflexivity|].
        eapply Repository_open_run; [|exact Hr].
        destruct Hw as [->|[_ ->]]; exact F3. }
      reflexivity.
Qed.

(* ===================================================================== *)
(** ** Finding or creating a branch *)
(* ===================================================================== *)

Lemma head_peel_returns h w c w' :
  Git.head_peel h w = (Return c, w') ->
  w' = w /\ head_commit w h = Some c.
Proof.
  unfold Git.head_peel. intros H. run_in H. split; [reflexivity|].
  unfold head_commit, repo_at.
  repeat match goal with Hx : disk _ !! _ = _ |- _ => rewrite Hx end.
  assumption.
Qed.

Lemma create_branch_effect h n c w b w' :
  Git.create_branch h n c w = (Return b, w') ->
  b = Git.mkBranch h n c /\
  exists r, repo_at w h = Some r /\ refs r !! n = None /\
    w' = set_disk (fun d => <[h := Some {| refs := <[n := c]> (refs r);
                                           head := head r;
                                           worktrees := worktrees r;
                                           odb := odb r |}]> d) w.
Proof.
  unfold Git.create_branch. intros H. run_in H. split; [reflexivity|].
  eexists. split; [apply repo_at_lookup; eassumption|]. auto.
Qed.

Lemma git_repository_cached self w :
  AddonGitRepository.cached_git_repository self =
    Some (AddonGitRepository.git_repository_path self) ->
  AddonGitRepository.git_repository self w =
  (Return (AddonGitRepository.git_repository_path self, self), w).
Proof. intros Hc. apply git_repository_at_cached. exact Hc. Qed.

Lemma branch_pointer_fresh w rp n :
  disk w !! rp = None -> branch_pointer w rp n = None.
Proof. unfold branch_pointer, repo_at. intros ->. reflexivity. Qed.

Lemma head_commit_initial w rp :
  head_commit (set_disk (fun d => <[rp := Some initial_repository]> d) w) rp
  = Some root_commit.
Proof.
  unfold head_commit. rewrite repo_at_insert, decide_True by reflexivity.
  reflexivity.
Qed.

(** What [find_or_create_branch] returns: the branch as it was, the world
    unchanged; or, where there was none, a new branch at the commit of
    [HEAD], which is the root commit when the repository is new. *)
Lemma find_or_create_branch_returns self name w b self' w' :
  wf_self self ->
  AddonGitRepository.find_or_create_branch self name w = (Return (b, self'), w') ->
  AddonGitRepository.git_repository_path self' =
    AddonGitRepository.git_repository_path self /\
  AddonGitRepository.cached_git_repository self' =
    Some (AddonGitRepository.git_repository_path self) /\
  Git.branch_repo b = AddonGitRepository.git_repository_path self /\
  Git.branch_name b = name /\
  branch_pointer w' (AddonGitRepository.git_repository_path self) name
    = Some (Git.target b) /\
  ((branch_pointer w (AddonGitRepository.git_repository_path self) name
      = Some (Git.target b) /\ w' = w) \/
   (branch_pointer w (AddonGitRepository.git_repository_path self) name = None /\
    head_commit w' (AddonGitRepository.git_repository_path self)
      = Some (Git.target b) /\
    (is_Some (disk w !! AddonGitRepository.git_repository_path self) ->
     head_commit w (AddonGitRepository.git_repository_path self)
       = Some (Git.target b)) /\
    (disk w !! AddonGitRepository.git_repository_path self = None ->
     Git.target b = root_commit /\
     master_at root_commit w' (AddonGitRepository.git_repository_path self)))) /\
  language w' = language w.
Proof.
  intros Hwf H. unfold AddonGitRepository.find_or_create_branch in H.
  set (rp := AddonGitRepository.git_repository_path self) in *.
  inv_bind H as [repo self1] w1 H1.
  pose proof (git_repository_returns _ _ _ _ _ Hwf H1)
    as (-> & Hp1 & Hc1 & Hw1 & _).
  fold rp in Hp1, Hc1, Hw1.
  inv_bind H as found w2 H2.
  apply branches_get_returns in H2 as (-> & r & Hr & ->).
  fold rp in Hr.
  destruct (refs r !! name) as [t|] eqn:Ht; simpl in H.
  - apply ret_inv in H as [[= <- <-] <-]. simpl.
    assert (Hptr : branch_pointer w1 rp name = Some t)
      by (unfold branch_pointer; rewrite Hr; exact Ht).
    assert (Hlang : language w1 = language w)
      by (destruct Hw1 as [->|[_ ->]]; reflexivity).
    repeat split; try assumption.
    destruct Hw1 as [->|[Hd ->]]; [left; auto|right].
    unfold branch_pointer in Hptr. rewrite repo_at_insert in Hptr.
    rewrite decide_True in Hptr by reflexivity.
    rewrite repo_at_insert, decide_True in Hr by reflexivity.
    injection Hr as <-. simpl in Hptr.
    apply lookup_insert_Some in Hptr as [[<- <-]|[_ Hempty]];
      [|rewrite lookup_empty in Hempty; discriminate].
    split; [apply branch_pointer_fresh; exact Hd|].
    split; [apply head_commit_initial|].
    split; [intros [x Hx]; congruence|].
    intros _. split; [reflexivity|].
    exists initial_repository.
    rewrite repo_at_insert, decide_True by reflexivity. auto.
  - assert (Hc1' : AddonGitRepository.cached_git_repository self1 =
                   Some (AddonGitRepository.git_repository_path self1))
      by (rewrite Hp1; exact Hc1).
    rewrite (bind_return _ _ _ _ _ (git_repository_cached self1 w1 Hc1')) in H.
    rewrite (bind_return _ _ _ _ _ (git_repository_cached self1 w1 Hc1')) in H.
    rewrite Hp1 in H.
    inv_bind H as c w3 H3. apply head_peel_returns in H3 as [-> Hhead].
    inv_bind H as b' w4 H4.
    apply create_branch_effect in H4 as (-> & r' & Hr' & Hn & ->).
    apply ret_inv in H as [[= <- <-] <-]. simpl.
    fold rp in Hhead, Hr'. fold rp.
    rewrite Hr in Hr'. injection Hr' as <-.
    assert (Hne : head r <> name).
    { intros E. unfold head_commit in Hhead. rewrite Hr, E in Hhead. congruence. }
    assert (Hlang : language w1 = language w)
      by (destruct Hw1 as [->|[_ ->]]; reflexivity).
    split; [assumption|]. split; [assumption|].
    split; [reflexivity|]. split; [reflexivity|].
    split.
    { unfold branch_pointer. rewrite repo_at_insert, decide_True by reflexivity.
      simpl. apply lookup_insert_eq. }
    split; [|exact Hlang].
    right.
    assert (Hhead' : head_commit
              (set_disk (fun d => <[rp := Some {| refs := <[name := c]> (refs r);
                                                  head := head r;
                                                  worktrees := worktrees r;
                                                  odb := odb r |}]> d) w1) rp
              = Some c).
    { unfold head_commit in *. rewrite repo_at_insert, decide_True by reflexivity.
      simpl. rewrite lookup_insert_ne by congruence.
      rewrite Hr in Hhead. exact Hhead. }
    destruct Hw1 as [->|[Hd ->]].
    + split; [unfold branch_pointer; rewrite Hr; exact Ht|].
      split; [exact Hhead'|]. split; [intros _; exact Hhead|].
      intros Hd. unfold repo_at in Hr. rewrite Hd in Hr. discriminate.
    + split; [apply branch_pointer_fresh; exact Hd|].
      split; [exact Hhead'|].
      split; [intros [x Hx]; congruence|].
      intros _. rewrite head_commit_initial in Hhead.
      injection Hhead as <-. split; [reflexivity|].
      rewrite repo_at_insert, decide_True in Hr by reflexivity.
      injection Hr as <-.
      eexists. rewrite repo_at_insert, decide_True by reflexivity.
      split; [reflexivity|]. split; [reflexivity|]. simpl.
      rewrite lookup_insert_ne by (simpl in Hne; congruence).
      apply lookup_insert_eq.
Qed.

#[global] Instance keeps_master_refl : Reflexive keeps_master.
Proof. intros w rp c H. exact H. Qed.

#[global] Instance keeps_master_trans : Transitive keeps_master.
Proof. intros w1 w2 w3 H12 H23 rp c H. eauto. Qed.

Lemma keeps_master_disk (w w' : World) : disk w' = disk w -> keeps_master w w'.
Proof.
  intros Hd rp c (r & Hr & Hm). exists r.
  rewrite (repo_at_disk w w') by assumption. auto.
Qed.

Lemma keeps_master_insert (h : string) (x : option Repository) (w : World) :
  (forall r c, repo_at w h = Some r -> head r = "master" ->
     refs r !! "master" = Some c ->
     exists r', x = Some r' /\ head r' = "master" /\ refs r' !! "master" = Some c) ->
  keeps_master w (set_disk (fun d => <[h := x]> d) w).
Proof.
  intros H rp c (r & Hr & Hh & Hm). unfold master_at.
  rewrite repo_at_insert. destruct (decide (h = rp)) as [<-|Hne]; [|eauto].
  destruct (H r c Hr Hh Hm) as (r' & -> & Hh' & Hm'). eauto.
Qed.

Ltac keeps_master_cases :=
  first
    [ reflexivity
    | apply keeps_master_disk; reflexivity
    | apply keeps_master_insert; intros r_ c_ Hr_ Hh_ Hm_;
      unfold repo_at in Hr_; simplify_option_eq;
      eexists; (split; [reflexivity|]); simpl; (split; [assumption|]);
      try assumption ].

#[global] Instance keeps_master_stable :
  GitStable keeps_master (fun _ => True) (fun n => n <> "master").
Proof.
  split; try apply _.
  - apply keeps_master_disk.
  - intros p. unfold AddonGitRepository.makedirs.
    run_primitive w; keeps_master_cases.
  - intros p. unfold Git.init_repository. run_primitive w; keeps_master_cases.
  - intros h ref a k m t ps _. unfold Git.create_commit.
    run_primitive w; keeps_master_cases; congruence.
  - intros h n c. unfold Git.create_branch.
    run_primitive w; keeps_master_cases.
    rewrite lookup_insert_ne; [assumption | congruence].
  - intros b c HS. unfold Git.set_target.
    run_primitive w; keeps_master_cases.
    rewrite lookup_insert_ne; [assumption | congruence].
  - intros h n p. unfold Git.add_worktree.
    run_primitive w; keeps_master_cases.
    rewrite lookup_insert_ne; [assumption|]. intros ->.
    repeat match goal with
           | H : _ || _ = false |- _ => apply orb_false_iff in H as [? ?]
           end.
    match goal with
    | H : bool_decide (is_Some _) = false |- _ =>
        apply bool_decide_eq_false in H; apply H; eauto
    end.
  - intros h n. unfold Git.prune. run_primitive w; keeps_master_cases.
  - intros b HS. unfold Git.branch_delete.
    run_primitive w; keeps_master_cases.
    rewrite lookup_delete_ne; [assumption | congruence].
Qed.

(* ===================================================================== *)
(** ** One upload *)
(* ===================================================================== *)

Lemma bind_ret_l {A B} (a : A) (k : A -> Py B) w : bind (ret a) k w = k a w.
Proof. reflexivity. Qed.

Lemma BRANCHES_names {ext : Externals} (c : Z) (n : string) :
  BRANCHES c = Some n -> n = "listed" \/ n = "unlisted".
Proof.
  unfold BRANCHES. repeat case_bool_decide; intros [= <-]; auto.
Qed.

Lemma init_addon {ext : Externals} (id : Z) (w : World) :
  AddonGitRepository.__init__ id "addon" w =
  (Return {| AddonGitRepository.git_repository_path := addon_path id;
             AddonGitRepository.cached_git_repository := None |}, w).
Proof. reflexivity. Qed.

Lemma master_at_disk c w w' rp :
  disk w' = disk w -> master_at c w rp -> master_at c w' rp.
Proof. intros Hd. apply keeps_master_disk. exact Hd. Qed.

Lemma branch_pointer_disk w w' rp n :
  disk w' = disk w -> branch_pointer w' rp n = branch_pointer w rp n.
Proof. intros Hd. unfold branch_pointer. rewrite (repo_at_disk w w' rp Hd). reflexivity. Qed.

(** An upload that returns has put one commit on the branch of the
    channel: authored as [get_author] says, committed by the service, with
    the message of the version, on top of where the branch was, or of the
    commit of [HEAD] where there was no such branch, which is the root
    commit in a repository the upload initialises. *)
Lemma upload_returns {ext : Externals} (v : Version) (a : option User)
    (w : World) self' w' n :
  AddonGitRepository.extract_and_commit_from_version v a w = (Return self', w') ->
  BRANCHES (channel v) = Some n ->
  exists tree t0,
    branch_pointer w' (addon_path (addon_id v)) n =
      Some (mkCommit tree (get_author a) ROBOT (message_of v) [t0]) /\
    git_hash w' !! version_id v =
      Some (mkCommit tree (get_author a) ROBOT (message_of v) [t0]) /\
    (branch_pointer w (addon_path (addon_id v)) n = Some t0 \/
     branch_pointer w (addon_path (addon_id v)) n = None /\
     (is_Some (disk w !! addon_path (addon_id v)) ->
      head_commit w (addon_path (addon_id v)) = Some t0) /\
     (disk w !! addon_path (addon_id v) = None -> t0 = root_commit)) /\
    (disk w !! addon_path (addon_id v) = None \/
     master_at root_commit w (addon_path (addon_id v)) ->
     master_at root_commit w' (addon_path (addon_id v))) /\
    language w' = language w.
Proof.
  intros H Hn. unfold AddonGitRepository.extract_and_commit_from_version in H.
  set (rp := addon_path (addon_id v)) in *.
  inv_bind H as lang0 w0 H0. apply ret_inv in H0 as [<- <-].
  apply try_finally_inv in H as (r & w5 & Hb & [[Hf <-]|(e & Hf & [=])]).
  injection Hf as <-.
  inv_bind Hb as x1 w1 H1.
  assert (w1 = set_language "en-US" w) as -> by (injection H1; auto).
  clear H1 x1.
  rewrite (bind_return _ _ _ _ _ (init_addon _ _)) in Hb. fold rp in Hb.
  destruct (all_files v) as [|file_obj files] eqn:Hfiles; [discriminate|].
  rewrite bind_ret_l in Hb.
  rewrite Hn in Hb. rewrite bind_ret_l in Hb.
  inv_bind Hb as [branch repo1] w2 H2.
  assert (Hwf0 : wf_self {| AddonGitRepository.git_repository_path := rp;
                            AddonGitRepository.cached_git_repository := None |})
    by (left; reflexivity).
  pose proof (find_or_create_branch_returns _ _ _ _ _ _ Hwf0 H2)
    as (Hp & Hc & Hrepo & Hname & Hptr2 & Hcases & Hlang).
  simpl in Hp, Hc, Hrepo, Hcases, Hptr2. fold rp in Hp, Hc, Hrepo, Hcases, Hptr2.
  inv_bind Hb as lang w3 H3. apply ret_inv in H3 as [<- <-].
  simpl in Hlang. rewrite Hlang in Hb.
  assert (Hmsg : "Create new version " +:+ version_repr v "en-US" +:+ " (" +:+
                 str (version_id v) +:+ ") for " +:+ addon_repr v "en-US" +:+
                 " from " +:+ file_repr file_obj "en-US" = message_of v)
    by (unfold message_of; rewrite Hfiles; reflexivity).
  rewrite Hmsg in Hb. clear Hmsg.
  inv_bind Hb as [commit repo2] w4 H4.
  inv_bind Hb as x6 w6 H6. apply ret_inv in Hb as [_ <-].
  pose proof (respects_commit_through_worktree keeps_master (fun _ => True)
                (fun n => n <> "master") repo1 (current_file_path file_obj)
                (message_of v) a branch (fun _ => I) (fun _ => I)) as Hkm.
  assert (Hnm : n <> "master" /\ String.length n <> 32).
  { apply BRANCHES_names in Hn as [->| ->]; split; simpl; congruence. }
  destruct Hnm as [Hnm Hn32].
  specialize (Hkm ltac:(rewrite Hname; exact Hnm)
                  ltac:(intros m Hm ->; discriminate Hm) w2).
  rewrite H4 in Hkm. simpl in Hkm.
  apply commit_through_worktree_returns in H4 as [(tree & ->) Hptr4].
  rewrite Hname, Hrepo in Hptr4. specialize (Hptr4 Hn32).
  unfold AddonGitRepository.version_update_git_hash in H6.
  inv_bind H6 as x7 w7 H7.
  assert (w7 = w4) as -> by (unfold io in H7; destruct (faults w4 _); congruence).
  injection H6 as H6. subst w6.
  exists tree, (Git.target branch).
  split; [rewrite <- Hptr4; apply branch_pointer_disk; reflexivity|].
  split; [simpl; apply lookup_insert_eq|].
  split.
  { destruct Hcases as [[Hsome _]|(Hnone & _ & Hex & Hfresh)].
    - left. rewrite <- Hsome. symmetry. apply branch_pointer_disk. reflexivity.
    - right. split; [rewrite <- Hnone; symmetry; apply branch_pointer_disk; reflexivity|].
      split; [exact Hex | intros Hd; exact (proj1 (Hfresh Hd))]. }
  split; [|reflexivity].
  intros Hstart.
  apply (master_at_disk _ w4); [reflexivity|]. apply Hkm.
  destruct Hstart as [Hd|Hm].
  - destruct Hcases as [[Hsome _]|(_ & _ & _ & Hfresh)].
    + rewrite branch_pointer_fresh in Hsome by exact Hd. discriminate.
    + exact (proj2 (Hfresh Hd)).
  - pose proof (respects_find_or_create_branch keeps_master (fun _ => True)
                  (fun n => n <> "master")
                  {| AddonGitRepository.git_repository_path := rp;
                     AddonGitRepository.cached_git_repository := None |}
                  n (fun _ => I) (set_language "en-US" w)) as Hkf.
    rewrite H2 in Hkf. apply Hkf.
    apply (master_at_disk _ w); [reflexivity | exact Hm].
Qed.

(* ===================================================================== *)
(** ** C5: uploads made one after the other *)
(* ===================================================================== *)

Lemma upload_returns_channel {ext : Externals} (v : Version) (a : option User)
    (w : World) self' w' :
  AddonGitRepository.extract_and_commit_from_version v a w = (Return self', w') ->
  exists n, BRANCHES (channel v) = Some n.
Proof.
  intros H. unfold AddonGitRepository.extract_and_commit_from_version in H.
  inv_bind H as lang0 w0 H0.
  apply try_finally_inv in H as (r & w5 & Hb & [[Hf <-]|(e & Hf & [=])]).
  inv_bind Hb as x1 w1 H1. inv_bind Hb as repo w2 H2. inv_bind Hb as f w3 H3.
  destruct (BRANCHES (channel v)) as [n|]; [eauto | discriminate].
Qed.

Lemma history_step (c base : Commit) :
  commit_parents c = [base] -> history c = c :: history base.
Proof. destruct c as [t a k m ps]. simpl. intros ->. reflexivity. Qed.

Lemma last_cons {A} (a d : A) (l : list A) : List.last (a :: l) d = List.last l a.
Proof.
  revert a d. induction l as [|b l IH]; intros a d; [reflexivity|].
  change (List.last (a :: b :: l) d) with (List.last (b :: l) d).
  rewrite (IH b d), (IH b a). reflexivity.
Qed.

(** The log of the last commit of a chain: the chain backwards, then the
    log of its base. *)
Lemma history_chained (cs : list Commit) (base : Commit) :
  chained base cs -> history (List.last cs base) = rev cs ++ history base.
Proof.
  revert base. induction cs as [|c cs IH]; intros base; [reflexivity|].
  intros [Hp Hc]. rewrite last_cons, (IH c Hc), (history_step c base Hp).
  simpl. rewrite <- app_assoc. reflexivity.
Qed.

Lemma serially_cons {ext : Externals} u rest w w' :
  serially (u :: rest) w = (Return tt, w') ->
  exists self1 w1,
    AddonGitRepository.extract_and_commit_from_version (fst u) (snd u) w
      = (Return self1, w1) /\
    serially rest w1 = (Return tt, w').
Proof.
  unfold serially. simpl. intros H.
  inv_bind H as x w1 H1. inv_bind H1 as self1 w2 H2.
  apply ret_inv in H1 as [_ <-]. destruct w'; eauto.
Qed.

(** C5.  Uploads of versions of one add-on on one channel, made one after
    the other and all returning, put one commit each on the branch of the
    channel: each commit has exactly one parent, the commit the branch
    pointed at when the upload started (for the first upload on a new
    branch, the commit of [HEAD]), and the branch then points at the
    commit.  So the log of the branch is the commits of the uploads, the
    latest first, with their messages in the order of the uploads, on top
    of the log of where the branch started: the root commit alone in a
    repository that the first upload initialises. *)
Theorem serial_uploads_form_a_chain {ext : Externals}
    (uploads : list (Version * option User)) (id ch : Z) (n : string)
    (w w' : World) :
  uploads <> [] ->
  (forall u, In u uploads -> addon_id (fst u) = id /\ channel (fst u) = ch) ->
  BRANCHES ch = Some n ->
  serially uploads w = (Return tt, w') ->
  exists base commits,
    length commits = length uploads /\
    Forall2 (fun u c =>
               commit_message c = message_of (fst u) /\
               commit_author c = get_author (snd u) /\
               commit_committer c = get_author None /\
               length (commit_parents c) = 1)
            uploads commits /\
    chained base commits /\
    branch_pointer w' (addon_path id) n = Some (List.last commits base) /\
    history (List.last commits base) = rev commits ++ history base /\
    (branch_pointer w (addon_path id) n = Some base \/
     branch_pointer w (addon_path id) n = None /\
     (is_Some (disk w !! addon_path id) ->
      head_commit w (addon_path id) = Some base)) /\
    (disk w !! addon_path id = None ->
     base = root_commit /\
     history (List.last commits base) = rev commits ++ [root_commit]).
Proof.
  intros Hne Hall Hn H.
  assert (Hmain : exists base commits,
    Forall2 (fun u c =>
               commit_message c = message_of (fst u) /\
               commit_author c = get_author (snd u) /\
               commit_committer c = get_author None /\
               length (commit_parents c) = 1)
            uploads commits /\
    chained base commits /\
    branch_pointer w' (addon_path id) n = Some (List.last commits base) /\
    (branch_pointer w (addon_path id) n = Some base \/
     branch_pointer w (addon_path id) n = None /\
     (is_Some (disk w !! addon_path id) ->
      head_commit w (addon_path id) = Some base) /\
     (disk w !! addon_path id = None -> base = root_commit))).
  { revert w H Hne Hall.
    induction uploads as [|u rest IH]; intros w H Hne Hall; [congruence|].
    apply serially_cons in H as (self1 & w1 & Hu & Hrest).
    destruct (Hall u (or_introl eq_refl)) as [Hid Hch].
    assert (Hn' : BRANCHES (channel (fst u)) = Some n) by (rewrite Hch; exact Hn).
    destruct (upload_returns _ _ _ _ _ _ Hu Hn')
      as (tree & t0 & Hptr & _ & Hbase & _ & _).
    rewrite Hid in Hptr, Hbase.
    set (c1 := mkCommit tree (get_author (snd u)) ROBOT (message_of (fst u)) [t0])
      in *.
    assert (Hc1 : commit_message c1 = message_of (fst u) /\
                  commit_author c1 = get_author (snd u) /\
                  commit_committer c1 = get_author None /\
                  length (commit_parents c1) = 1) by (repeat split).
    destruct rest as [|u2 rest'].
    - injection Hrest as <-. exists t0, [c1].
      split; [constructor; [exact Hc1 | constructor]|].
      split; [split; [reflexivity | exact I]|].
      split; [exact Hptr | exact Hbase].
    - destruct (IH w1 Hrest ltac:(discriminate)
                  (fun u' Hu' => Hall u' (or_intror Hu')))
        as (base' & cs' & HF & Hch' & Hptr' & Hbase').
      assert (base' = c1) as ->.
      { destruct Hbase' as [Hs|[Hnone _]]; congruence. }
      exists t0, (c1 :: cs').
      split; [constructor; assumption|].
      split; [split; [reflexivity | exact Hch']|].
      split; [rewrite last_cons; exact Hptr' | exact Hbase]. }
  destruct Hmain as (base & commits & HF & Hch & Hptr & Hbase).
  exists base, commits.
  split; [symmetry; exact (Forall2_length _ _ _ HF)|].
  split; [exact HF|]. split; [exact Hch|]. split; [exact Hptr|].
  split; [apply history_chained; exact Hch|].
  split.
  - destruct Hbase as [Hs|(Hnone & Hex & _)]; [left; exact Hs | right; auto].
  - intros Hd. assert (base = root_commit) as ->.
    { destruct Hbase as [Hs|(_ & _ & Hfresh)]; [|exact (Hfresh Hd)].
      rewrite branch_pointer_fresh in Hs by exact Hd. discriminate. }
    split; [reflexivity|]. rewrite history_chained by exact Hch. reflexivity.
Qed.

(* ===================================================================== *)
(** ** C4: finding or creating a branch *)
(* ===================================================================== *)

(** Uploads of versions of one add-on that start in a world without its
    repository and all return leave the [HEAD] of the repository on
    master, at the root commit. *)
Lemma serial_uploads_keep_root {ext : Externals}
    (uploads : list (Version * option User)) (id : Z) (w w' : World) :
  (forall u, In u uploads -> addon_id (fst u) = id) ->
  disk w !! addon_path id = None \/ master_at root_commit w (addon_path id) ->
  uploads <> [] ->
  serially uploads w = (Return tt, w') ->
  master_at root_commit w' (addon_path id).
Proof.
  revert w. induction uploads as [|u rest IH]; intros w Hall Hstart Hne H;
    [congruence|].
  apply serially_cons in H as (self1 & w1 & Hu & Hrest).
  destruct (upload_returns_channel _ _ _ _ _ Hu) as [n Hn].
  destruct (upload_returns _ _ _ _ _ _ Hu Hn) as (_ & _ & _ & _ & _ & Hm & _).
  rewrite (Hall u (or_introl eq_refl)) in Hm. specialize (Hm Hstart).
  destruct rest as [|u2 rest'].
  - unfold serially in Hrest. simpl in Hrest. injection Hrest as <-. exact Hm.
  - apply (IH w1).
    + intros u' Hu'. apply Hall. right. exact Hu'.
    + right. exact Hm.
    + discriminate.
    + exact Hrest.
Qed.

(** C4.  [find_or_create_branch] leaves every branch there is where it
    points, whatever it returns or raises.  When it returns, the branch it
    returns bears the name asked for: the branch of that name as it was,
    the world unchanged; or else a new branch at the commit of [HEAD],
    which is the root commit in a repository it had to initialise.  So in
    a repository whose [HEAD] stayed at the root commit, as it does
    through uploads, the first upload on a second channel puts a commit
    whose parent is the root commit on the new branch, and leaves the
    branch of the other channel where it points. *)
Theorem find_or_create_branch_finds_or_creates {ext : Externals}
    (self : AddonGitRepository.t) (name : string) (w : World) :
  wf_self self ->
  (forall rp n t,
     branch_pointer w rp n = Some t ->
     branch_pointer
       (snd (AddonGitRepository.find_or_create_branch self name w)) rp n
     = Some t) /\
  (forall b self' w',
     AddonGitRepository.find_or_create_branch self name w
       = (Return (b, self'), w') ->
     Git.branch_repo b = AddonGitRepository.git_repository_path self /\
     Git.branch_name b = name /\
     branch_pointer w' (AddonGitRepository.git_repository_path self) name
       = Some (Git.target b) /\
     ((branch_pointer w (AddonGitRepository.git_repository_path self) name
         = Some (Git.target b) /\ w' = w) \/
      (branch_pointer w (AddonGitRepository.git_repository_path self) name
         = None /\
       head_commit w' (AddonGitRepository.git_repository_path self)
         = Some (Git.target b) /\
       (is_Some (disk w !! AddonGitRepository.git_repository_path self) ->
        head_commit w (AddonGitRepository.git_repository_path self)
          = Some (Git.target b)) /\
       (disk w !! AddonGitRepository.git_repository_path self = None ->
        Git.target b = root_commit)))) /\
  (forall (uploads : list (Version * option User)) (v : Version)
          (a : option User) (w0 w1 : World) self1 w2,
     uploads <> [] ->
     (forall u, In u uploads -> addon_id (fst u) = addon_id v) ->
     disk w0 !! addon_path (addon_id v) = None ->
     serially uploads w0 = (Return tt, w1) ->
     BRANCHES (channel v) = Some "unlisted" ->
     branch_pointer w1 (addon_path (addon_id v)) "unlisted" = None ->
     AddonGitRepository.extract_and_commit_from_version v a w1
       = (Return self1, w2) ->
     commit_parents root_commit = [] /\
     (exists tree,
        branch_pointer w2 (addon_path (addon_id v)) "unlisted" =
        Some (mkCommit tree (get_author a) ROBOT (message_of v) [root_commit])) /\
     (forall t,
        branch_pointer w1 (addon_path (addon_id v)) "listed" = Some t ->
        branch_pointer w2 (addon_path (addon_id v)) "listed" = Some t)).
Proof.
  intros Hwf. split; [|split].
  - intros rp n t Ht.
    exact (respects_find_or_create_branch (keeps (fun _ => True))
             (fun _ => True) (fun n => ~ True) self name (fun _ => I)
             w rp n t I Ht).
  - intros b self' w' H.
    destruct (find_or_create_branch_returns _ _ _ _ _ _ Hwf H)
      as (_ & _ & Hrepo & Hname & Hptr & Hcases & _).
    split; [exact Hrepo|]. split; [exact Hname|]. split; [exact Hptr|].
    destruct Hcases as [Hsame|(Hnone & Hhead & Hex & Hfresh)];
      [left; exact Hsame | right].
    repeat split; try assumption. intros Hd. exact (proj1 (Hfresh Hd)).
  - intros uploads v a w0 w1 self1 w2 Hne Hall Hd Hs Hn Hnone Hu.
    pose proof (serial_uploads_keep_root uploads (addon_id v) w0 w1 Hall
                  (or_introl Hd) Hne Hs) as Hm.
    split; [reflexivity|]. split.
    + destruct (upload_returns _ _ _ _ _ _ Hu Hn)
        as (tree & t0 & Hptr & _ & Hbase & _ & _).
      exists tree.
      destruct Hbase as [Hs'|(_ & Hex & _)]; [congruence|].
      destruct Hm as (r & Hr & Hh & Hmaster).
      assert (t0 = root_commit) as ->; [|exact Hptr].
      assert (Hsome : is_Some (disk w1 !! addon_path (addon_id v))).
      { unfold repo_at in Hr.
        destruct (disk w1 !! addon_path (addon_id v)); [eauto | discriminate]. }
      specialize (Hex Hsome). unfold head_commit in Hex.
      rewrite Hr, Hh, Hmaster in Hex. congruence.
    + intros t Ht. change w2 with (snd (Return self1, w2)). rewrite <- Hu.
      refine (respects_extract_and_commit_from_version
                (keeps (fun n => n = "listed")) (fun _ => True)
                (fun n => ~ n = "listed") v a (fun _ => I) (fun _ _ _ => I)
                _ _ w1 _ _ _ eq_refl Ht).
      * intros n' Hn'. rewrite Hn in Hn'. injection Hn' as <-. discriminate.
      * intros n' Hlen ->. discriminate Hlen.
Qed.

(* ===================================================================== *)
(** ** The sandbox around the commit *)
(* ===================================================================== *)

(** [_commit_through_worktree], once the sandbox is entered: the outcome
    of the body, unless the release raises, which then is the outcome. *)
Lemma commit_through_worktree_trace {ext : Externals}
    self path message author branch w repo self1 w0 wt0 w0' wt w1 r w2 :
  AddonGitRepository.git_repository self w = (Return (repo, self1), w0) ->
  TemporaryWorktree.__init__ repo w0 = (Return wt0, w0') ->
  TemporaryWorktree.__enter__ wt0 w0' = (Return wt, w1) ->
  AddonGitRepository.commit_in_worktree path message author branch wt w1
    = (r, w2) ->
  AddonGitRepository._commit_through_worktree self path message author branch w
  = match TemporaryWorktree.__exit__ wt w2 with
    | (Return _, w') =>
        (match r with
         | Return c => Return (c, self1)
         | Raise e => Raise e
         end, w')
    | (Raise e', w') => (Raise e', w')
    end.
Proof.
  intros Hg Hi He Hb. unfold AddonGitRepository._commit_through_worktree.
  rewrite (bind_return _ _ _ _ _ Hg). cbv beta iota.
  unfold with_. unfold bind at 1.
  rewrite (bind_return _ _ _ _ _ Hi), (bind_return _ _ _ _ _ He).
  unfold try_finally. rewrite Hb.
  destruct (TemporaryWorktree.__exit__ wt w2) as [[[]|e'] w'];
    destruct r; reflexivity.
Qed.

Lemma set_target_raises b c w e w' :
  Git.set_target b c w = (Raise e, w') -> w' = w.
Proof. unfold Git.set_target. intros H. run_in H; reflexivity. Qed.

(** While the body of the sandbox raises, no branch moves. *)
Lemma commit_in_worktree_raising {ext : Externals}
    path message author branch worktree :
  when_raising (keeps (fun _ => True))
    (AddonGitRepository.commit_in_worktree path message author branch worktree).
Proof.
  set (R := keeps (fun _ : string => True)).
  assert (Hmod : forall f, (forall w, disk (f w) = disk w) -> respects R (modify f))
    by (intros f Hf; apply (respects_modify R (fun _ => True) (fun n => ~ True)); exact Hf).
  unfold AddonGitRepository.commit_in_worktree.
  unfold Index.read, Index.add_all, Index.write, Index.write_tree.
  repeat (apply (when_raising_bind R);
          [first [ apply respects_get; apply _
                 | apply respects_lift; apply _
                 | apply respects_io; apply _
                 | apply Hmod; reflexivity
                 | apply (respects_rename_dot_git R (fun _ => True) (fun n => ~ True))
                 | repeat (apply (respects_bind R); [|intros ?]);
                   first [ apply respects_get; apply _
                         | apply respects_io; apply _
                         | apply respects_ret; apply _ ] ]
          | intros ?]).
  destruct (TemporaryWorktree.repo worktree) as [wrepo|];
    [|apply respects_when_raising; apply respects_raise; apply _].
  apply (when_raising_bind R);
    [apply (stable_create_commit (R := R)); exact I | intros commit].
  intros w e w' H.
  apply bind_inv in H as [(e' & H & _)|(x & w1 & _ & H)]; [|discriminate].
  apply set_target_raises in H as ->. reflexivity.
Qed.

Lemma Fs_remove_under (d : string) (fs : Fs.t) p e :
  In (p, e) (Fs.remove d fs) -> Path.under d p = false.
Proof.
  unfold Fs.remove. intros H.
  apply list_elem_of_In, list_elem_of_filter in H as [H _].
  simpl in H. destruct (Path.under d p); [contradiction | reflexivity].
Qed.

(** A release that returns has released the sandbox. *)
Lemma worktree_exit_releases (wt : TemporaryWorktree.t) w w' :
  TemporaryWorktree.obj wt <> None ->
  TemporaryWorktree.__exit__ wt w = (Return tt, w') ->
  released wt w'.
Proof.
  intros Hobj H. unfold TemporaryWorktree.__exit__ in H.
  inv_bind H as x1 w1 H1.
  assert (Hfs : (forall p e, In (p, e) (tmpfs w1) ->
                   Path.under (TemporaryWorktree.temp_directory wt) p = false)).
  { unfold fs_op in H1. inv_bind H1 as x2 w2 H2.
    assert (w2 = w) as -> by (unfold io in H2; destruct (faults w _); congruence).
    inv_bind H1 as fs w3 H3. apply ret_inv in H3 as [<- <-].
    inv_bind H1 as fs' w4 H4. injection H1 as <-.
    unfold Fs.rmtree in H4.
    destruct (Fs.isdir _ _); [|destruct (Fs.exists_ _ _); discriminate].
    apply ret_inv in H4 as [<- <-]. subst. simpl.
    intros p e. apply Fs_remove_under. }
  destruct (TemporaryWorktree.obj wt) as [o|]; [|congruence].
  inv_bind H as x2 w2 H2. inv_bind H as found w3 H3.
  apply branches_get_returns in H3 as (-> & r & Hr & ->).
  unfold Git.prune in H2. inv_bind H2 as r1 w4 H4.
  assert (Hr1 : w4 = w1 /\ repo_at w1 (TemporaryWorktree.git_repository wt) = Some r1).
  { unfold Git.the_repo in H4.
    destruct (disk w1 !! TemporaryWorktree.git_repository wt) as [[r0|]|] eqn:E;
      try discriminate.
    injection H4 as <- <-. split; [reflexivity | apply repo_at_lookup; exact E]. }
  destruct Hr1 as [-> Hr1].
  inv_bind H2 as x5 w5 H5.
  assert (w5 = w1) as -> by (unfold io in H5; destruct (faults w1 _); congruence).
  injection H2 as H2. subst w2.
  rewrite repo_at_insert, decide_True in Hr by reflexivity.
  injection Hr as <-. simpl in H.
  destruct (refs r1 !! TemporaryWorktree.name wt) as [t|] eqn:Et;
    simpl in H; [|discriminate].
  unfold Git.branch_delete in H. run_in H.
  rewrite lookup_insert_eq in H2. injection H2 as <-.
  split.
  - exact Hfs.
  - intros r'. rewrite repo_at_insert, decide_True by reflexivity.
    intros [= <-]. simpl. split.
    + intros Hin. apply list_elem_of_In, list_elem_of_filter in Hin as [Hne _].
      apply Hne. reflexivity.
    + apply lookup_delete_eq.
Qed.

(* ===================================================================== *)
(** ** C2: a failure inside the sandbox *)
(* ===================================================================== *)

(** From the call to the release, only the branch of the sandbox moves. *)
Lemma commit_through_worktree_keeps_on_failure {ext : Externals}
    self path message author branch w repo self1 w0 wt0 w0' wt w1 e w2 :
  AddonGitRepository.git_repository self w = (Return (repo, self1), w0) ->
  TemporaryWorktree.__init__ repo w0 = (Return wt0, w0') ->
  TemporaryWorktree.__enter__ wt0 w0' = (Return wt, w1) ->
  AddonGitRepository.commit_in_worktree path message author branch wt w1
    = (Raise e, w2) ->
  keeps (fun n => n <> TemporaryWorktree.name wt) w
    (snd (TemporaryWorktree.__exit__ wt w2)).
Proof.
  intros Hg Hi He Hb.
  set (S := fun n : string => n <> TemporaryWorktree.name wt).
  pose proof (respects_git_repository (keeps S) (fun _ => True)
                (fun n => ~ S n) self (fun _ => I) w) as K0.
  pose proof (respects_worktree_init (keeps S) (fun _ => True)
                (fun n => ~ S n) repo w0) as K1.
  pose proof (respects_worktree_enter (keeps S) (fun _ => True)
                (fun n => ~ S n) wt0 w0') as K2.
  pose proof (commit_in_worktree_raising _ _ _ _ _ _ _ _ Hb) as K3.
  pose proof (respects_worktree_exit (keeps S) (fun _ => True)
                (fun n => ~ S n) wt (fun H => H eq_refl) w2) as K4.
  rewrite Hg in K0. rewrite Hi in K1. rewrite He in K2. simpl in K0, K1, K2.
  intros rp n t Hn Hp.
  apply K4; [exact Hn|]. apply K3; [exact I|].
  apply K2; [exact Hn|]. apply K1; [exact Hn|]. apply K0; assumption.
Qed.

(** C2.  When the body of the sandbox raises, be it in the extraction, in
    the staging or in the creation of the commit, the release of the
    sandbox is run on what the failure left; no branch but the one of the
    sandbox has moved, so the commit is on no branch; and when the release
    returns, the error of the body is the one raised to the caller, with
    the temporary directory, the linked worktree and the branch of the
    sandbox gone. *)
Theorem failure_in_sandbox_is_raised_and_released {ext : Externals}
    self path message author branch w repo self1 w0 wt0 w0' wt w1 e w2 :
  AddonGitRepository.git_repository self w = (Return (repo, self1), w0) ->
  TemporaryWorktree.__init__ repo w0 = (Return wt0, w0') ->
  TemporaryWorktree.__enter__ wt0 w0' = (Return wt, w1) ->
  AddonGitRepository.commit_in_worktree path message author branch wt w1
    = (Raise e, w2) ->
  let run :=
    AddonGitRepository._commit_through_worktree self path message author
      branch w in
  snd run = snd (TemporaryWorktree.__exit__ wt w2) /\
  (forall rp n t, n <> TemporaryWorktree.name wt ->
     branch_pointer w rp n = Some t -> branch_pointer (snd run) rp n = Some t) /\
  (String.length (Git.branch_name branch) <> 32 ->
   forall t,
     branch_pointer w (Git.branch_repo branch) (Git.branch_name branch) = Some t ->
     branch_pointer (snd run) (Git.branch_repo branch) (Git.branch_name branch)
       = Some t) /\
  (forall w', TemporaryWorktree.__exit__ wt w2 = (Return tt, w') ->
     run = (Raise e, w') /\ released wt w').
Proof.
  intros Hg Hi He Hb run.
  assert (Hrun : snd run = snd (TemporaryWorktree.__exit__ wt w2)).
  { unfold run. rewrite (commit_through_worktree_trace _ _ _ _ _ _ _ _ _ _ _ _ _
                           _ _ Hg Hi He Hb).
    destruct (TemporaryWorktree.__exit__ wt w2) as [[[]|e'] w']; reflexivity. }
  pose proof (commit_through_worktree_keeps_on_failure _ _ _ _ _ _ _ _ _ _ _ _
                _ _ _ Hg Hi He Hb) as K.
  pose proof (worktree_enter_returns _ _ _ _ He) as Hwt.
  apply worktree_init_returns in Hi as Hn. destruct Hn as (_ & _ & u & Hu).
  split; [exact Hrun|]. split; [|split].
  - intros rp n t Hn Hp. rewrite Hrun. exact (K rp n t Hn Hp).
  - intros Hlen t Hp. rewrite Hrun. apply K; [|exact Hp].
    rewrite Hwt. simpl. rewrite Hu. apply ne_length. rewrite hex_length.
    exact Hlen.
  - intros w' Hx. split.
    + unfold run. rewrite (commit_through_worktree_trace _ _ _ _ _ _ _ _ _ _ _ _
                             _ _ _ Hg Hi He Hb), Hx. reflexivity.
    + apply (worktree_exit_releases wt w2 w'); [|exact Hx].
      rewrite Hwt. discriminate.
Qed.

(* ===================================================================== *)
(** ** C6: an error of the release *)
(* ===================================================================== *)

Lemma worktree_exit_rmtree_fault (wt : TemporaryWorktree.t) w :
  faults w OpRmtree = true ->
  TemporaryWorktree.__exit__ wt w = (Raise (OSError "input/output error"), w).
Proof.
  intros Hf. unfold TemporaryWorktree.__exit__, fs_op, io, bind.
  rewrite Hf. reflexivity.
Qed.

(** C6, as the code has it.  The release of the sandbox is not guarded:
    an error of one of its steps is raised to the caller in place of the
    outcome of the body, be that a commit or an error, and the steps after
    it are not run (when the removal of the temporary directory fails,
    nothing is released); the commit of a body that returned stays on the
    branch although the call raised. *)
Theorem release_error_replaces_outcome {ext : Externals}
    self path message author branch w repo self1 w0 wt0 w0' wt w1 r w2 :
  AddonGitRepository.git_repository self w = (Return (repo, self1), w0) ->
  TemporaryWorktree.__init__ repo w0 = (Return wt0, w0') ->
  TemporaryWorktree.__enter__ wt0 w0' = (Return wt, w1) ->
  AddonGitRepository.commit_in_worktree path message author branch wt w1
    = (r, w2) ->
  let run :=
    AddonGitRepository._commit_through_worktree self path message author
      branch w in
  (forall e' w', TemporaryWorktree.__exit__ wt w2 = (Raise e', w') ->
     run = (Raise e', w') /\
     (forall c, r = Return c ->
        String.length (Git.branch_name branch) <> 32 ->
        branch_pointer w' (Git.branch_repo branch) (Git.branch_name branch)
          = Some c)) /\
  (faults w2 OpRmtree = true ->
     run = (Raise (OSError "input/output error"), w2)).
Proof.
  intros Hg Hi He Hb run.
  assert (Hrun : forall e' w', TemporaryWorktree.__exit__ wt w2 = (Raise e', w') ->
                   run = (Raise e', w')).
  { intros e' w' Hx. unfold run.
    rewrite (commit_through_worktree_trace _ _ _ _ _ _ _ _ _ _ _ _ _ _ _
               Hg Hi He Hb), Hx. reflexivity. }
  split.
  - intros e' w' Hx. split; [exact (Hrun _ _ Hx)|].
    intros c -> Hlen.
    apply commit_in_worktree_returns in Hb as [_ Hp].
    pose proof (worktree_enter_returns _ _ _ _ He) as Hwt.
    apply worktree_init_returns in Hi as (_ & _ & u & Hu).
    assert (Hne : TemporaryWorktree.name wt <> Git.branch_name branch).
    { rewrite Hwt. simpl. rewrite Hu. apply ne_length. rewrite hex_length.
      congruence. }
    pose proof (respects_worktree_exit
                  (keeps (fun n => n = Git.branch_name branch))
                  (fun _ => True) (fun n => n <> Git.branch_name branch)
                  wt Hne w2) as K.
    rewrite Hx in K. exact (K _ _ _ eq_refl Hp).
  - intros Hf. apply Hrun. apply worktree_exit_rmtree_fault. exact Hf.
Qed.

(** With a temporary directory that cannot be removed, an upload whose
    commit went onto the branch raises, and the version is left without
    its hash; and the error of a failed extraction is replaced by that of
    the release. *)
Lemma release_error_aborts_and_masks :
  let v := Reference.version 7 2 "broken.zip" in
  let ok := AddonGitRepository.extract_and_commit_from_version
              (ext := Reference.externals) v None (Reference.world [OpRmtree]) in
  let ko := AddonGitRepository.extract_and_commit_source_from_version
              (ext := Reference.externals) v None in
  (fst ok = Raise (OSError "input/output error") /\
   git_hash (snd ok) !! 7%Z = None /\
   (exists tree,
      branch_pointer (snd ok) "/storage/git/1/1/1/addon" "listed" =
        Some (mkCommit tree ROBOT ROBOT
                "Create new version <Version: 0.7> (7) for <Addon: 1> from <File: 1>"
                [root_commit])) /\
   Fs.isdir "/tmp/tmpb236f599" (tmpfs (snd ok)) = true) /\
  (fst (ko (Reference.world [])) = Raise (ExtractionError "broken.zip") /\
   fst (ko (Reference.world [OpRmtree])) = Raise (OSError "input/output error")).
Proof.
  vm_compute. repeat split; try reflexivity. eexists. reflexivity.
Qed.

(** With a temporary directory that cannot be removed, the error of a
    failed extraction does not reach the caller, and the sandbox stays:
    the temporary directory, the linked worktree and its branch. *)
Lemma failed_extraction_with_failing_release :
  let v := Reference.version 7 2 "broken.zip" in
  let upload := AddonGitRepository.extract_and_commit_source_from_version
                  (ext := Reference.externals) v None in
  let name := "b236f5994773477bbcd2d1b75ab1458f" in
  fst (upload (Reference.world [])) = Raise (ExtractionError "broken.zip") /\
  fst (upload (Reference.world [OpRmtree]))
    = Raise (OSError "input/output error") /\
  Fs.isdir "/tmp/tmpb236f599" (tmpfs (snd (upload (Reference.world [OpRmtree]))))
    = true /\
  (exists r,
     repo_at (snd (upload (Reference.world [OpRmtree])))
       "/storage/git/1/1/1/source" = Some r /\
     worktrees r = [name] /\
     refs r !! name = Some root_commit /\
     refs r !! "listed" = Some root_commit).
Proof.
  vm_compute. repeat split. eexists. repeat split.
Qed.

Lemma failure_in_sandbox_is_raised_and_released_witness :
  let self := AddonGitRepository.mk "/storage/git/1/1/1/source" None in
  let branch := Git.mkBranch "/storage/git/1/1/1/source" "master" root_commit in
  exists wt w2 w',
    TemporaryWorktree.__exit__ wt w2 = (Return tt, w') /\
    AddonGitRepository._commit_through_worktree (ext := Reference.externals)
      self "broken.zip" "message" None branch (Reference.world [])
    = (Raise (ExtractionError "broken.zip"), w') /\
    released wt w'.
Proof.
  intros self branch.
  pose (w := Reference.world []).
  pose (g := AddonGitRepository.git_repository self w).
  pose (repo := "/storage/git/1/1/1/source").
  pose (i := TemporaryWorktree.__init__ (ext := Reference.externals) repo (snd g)).
  pose (wt0 := match fst i with
               | Return s => s
               | Raise _ => TemporaryWorktree.mk "" "" "" "" "" None None
               end).
  pose (n := TemporaryWorktree.__enter__ wt0 (snd i)).
  pose (wt := match fst n with Return s => s | Raise _ => wt0 end).
  pose (b := AddonGitRepository.commit_in_worktree (ext := Reference.externals)
               "broken.zip" "message" None branch wt (snd n)).
  pose (x := TemporaryWorktree.__exit__ wt (snd b)).
  exists wt, (snd b), (snd x).
  assert (Hx : x = (Return tt, snd x)) by (vm_compute; reflexivity).
  split; [exact Hx|].
  refine (proj2 (proj2 (proj2
            (failure_in_sandbox_is_raised_and_released
               (ext := Reference.externals) self "broken.zip" "message" None
               branch w repo (AddonGitRepository.mk repo (Some repo)) (snd g)
               wt0 (snd i) wt (snd n) (ExtractionError "broken.zip") (snd b)
               _ _ _ _))) (snd x) Hx); vm_compute; reflexivity.
Defined.

Lemma release_error_replaces_outcome_witness :
  let self := AddonGitRepository.mk "/storage/git/1/1/1/addon" None in
  let branch := Git.mkBranch "/storage/git/1/1/1/addon" "master" root_commit in
  exists w',
    AddonGitRepository._commit_through_worktree (ext := Reference.externals)
      self "webextension_no_id.xpi" "message" None branch
      (Reference.world [OpRmtree])
    = (Raise (OSError "input/output error"), w').
Proof.
  intros self branch.
  pose (w := Reference.world [OpRmtree]).
  pose (g := AddonGitRepository.git_repository self w).
  pose (repo := "/storage/git/1/1/1/addon").
  pose (i := TemporaryWorktree.__init__ (ext := Reference.externals) repo (snd g)).
  pose (wt0 := match fst i with
               | Return s => s
               | Raise _ => TemporaryWorktree.mk "" "" "" "" "" None None
               end).
  pose (n := TemporaryWorktree.__enter__ wt0 (snd i)).
  pose (wt := match fst n with Return s => s | Raise _ => wt0 end).
  pose (b := AddonGitRepository.commit_in_worktree (ext := Reference.externals)
               "webextension_no_id.xpi" "message" None branch wt (snd n)).
  exists (snd b).
  refine (proj2 (release_error_replaces_outcome
            (ext := Reference.externals) self "webextension_no_id.xpi"
            "message" None branch w repo (AddonGitRepository.mk repo (Some repo))
            (snd g) wt0 (snd i) wt (snd n) (fst b) (snd b) _ _ _ _) _);
    vm_compute; reflexivity.
Defined.

(* ===================================================================== *)
(** ** C1: directories named [.git] *)
(* ===================================================================== *)

(** The archive of the repository's test: the directory [.git] at the top
    of the archive is committed under its new name, with what it holds. *)
Example dot_git_at_the_top_is_renamed :
  let v := Reference.version 7 2 "source.zip" in
  let run := AddonGitRepository.extract_and_commit_source_from_version
               (ext := Reference.externals) v None (Reference.world []) in
  exists self,
    fst run = Return self /\
    branch_pointer (snd run) "/storage/git/1/1/1/source" "listed" =
      Some (mkCommit
              [("extracted",
                Tree [(".git.b236f599", Tree [("config", Blob "")]);
                      ("manifest.json", Blob "{}")])]
              ROBOT ROBOT
              "Create new version <Version: 0.7> (7) for <Addon: 1> from source file"
              [root_commit]).
Proof. vm_compute. eexists. split; reflexivity. Qed.

(** C1, where the code departs from it.  The paths are enumerated before
    the loop renames any, a directory before what it holds: once a
    directory [.git] has its new name, the enumerated path of a [.git]
    below it names nothing, the move of it raises, and nothing is
    committed. *)
Theorem dot_git_below_dot_git_is_not_committed :
  let v := Reference.version 8 2 "nested.zip" in
  let run := AddonGitRepository.extract_and_commit_source_from_version
               (ext := Reference.externals) v None (Reference.world []) in
  Reference.get_all_files
    [("/t/w/extracted", Fs.Dir); ("/t/w/extracted/.git", Fs.Dir);
     ("/t/w/extracted/.git/.git", Fs.Dir);
     ("/t/w/extracted/.git/.git/config", Fs.File "")]
    "/t/w/extracted" "/t/w" ""
  = ["extracted/.git"; "extracted/.git/.git"; "extracted/.git/.git/config"] /\
  fst run =
    Raise (FileNotFoundError
             "/tmp/tmpb236f599/b236f5994773477bbcd2d1b75ab1458f/extracted/.git/.git") /\
  branch_pointer (snd run) "/storage/git/1/1/1/source" "listed"
    = Some root_commit /\
  source_git_hash (snd run) !! 8%Z = None.
Proof. vm_compute. repeat split. Qed.

(* ===================================================================== *)
(** ** The theorems at the reference collaborators *)
(* ===================================================================== *)

Lemma git_repository_opens_or_initialises_witness :
  let self := AddonGitRepository.mk "/storage/git/1/1/1/addon" None in
  exists self',
    AddonGitRepository.git_repository self (Reference.world []) =
    (Return ("/storage/git/1/1/1/addon", self'),
     set_disk (fun d => <["/storage/git/1/1/1/addon" := Some initial_repository]> d)
       (Reference.world [])).
Proof.
  intros self.
  refine (proj1 (proj1 (proj2 (proj2
            (git_repository_opens_or_initialises (ext := Reference.externals)
               1 "addon" (Reference.world []) self _))) _) _ _ _ _ _);
    vm_compute; reflexivity.
Defined.

Lemma find_or_create_branch_finds_or_creates_witness :
  let rp := "/storage/git/1/1/1/addon" in
  let self := AddonGitRepository.mk rp None in
  let run := AddonGitRepository.find_or_create_branch self "listed"
               (Reference.world []) in
  exists b self',
    fst run = Return (b, self') /\
    Git.branch_name b = "listed" /\
    Git.target b = root_commit /\
    branch_pointer (snd run) rp "listed" = Some (Git.target b).
Proof.
  intros rp self run.
  exists (Git.mkBranch rp "listed" root_commit),
         (AddonGitRepository.mk rp (Some rp)).
  split; [vm_compute; reflexivity|].
  destruct (proj1 (proj2 (find_or_create_branch_finds_or_creates
                            (ext := Reference.externals) self "listed"
                            (Reference.world []) (or_introl eq_refl)))
              (Git.mkBranch rp "listed" root_commit)
              (AddonGitRepository.mk rp (Some rp)) (snd run))
    as (_ & Hn & Hp & _).
  - vm_compute. reflexivity.
  - repeat split; assumption.
Defined.

Lemma serial_uploads_form_a_chain_witness :
  let uploads := [(Reference.version 7 2 "", None);
                  (Reference.version 8 2 "", Some Reference.uploader)] in
  let w' := snd (serially (ext := Reference.externals) uploads (Reference.world [])) in
  exists base commits,
    length commits = 2%nat /\
    chained base commits /\
    branch_pointer w' "/storage/git/1/1/1/addon" "listed"
      = Some (List.last commits base).
Proof.
  intros uploads w'.
  destruct (serial_uploads_form_a_chain (ext := Reference.externals)
              uploads 1 2 "listed" (Reference.world []) w')
    as (base & commits & Hlen & _ & Hch & Hp & _).
  - discriminate.
  - intros u [<-|[<-|[]]]; split; reflexivity.
  - reflexivity.
  - vm_compute. reflexivity.
  - exists base, commits. repeat split; assumption.
Defined.

(* ===================================================================== *)
(** ** More on walking a tree *)
(* ===================================================================== *)

Lemma count_entries_cons (e : TreeEntry) (r : list TreeEntry) :
  count_entries (Tree (e :: r)) = S (count_entries (snd e)) + count_entries (Tree r).
Proof. reflexivity. Qed.

(** X1.  [iter_tree] yields one entry for every entry of the tree and of
    the trees below it: as many as there are. *)
Theorem iter_tree_yields_every_entry_once (entries : list TreeEntry) :
  length (iter_tree entries) = count_entries (Tree entries).
Proof.
  assert (H : forall o es, o = Tree es ->
                length (iter_tree es) = count_entries (Tree es)).
  { induction o as [data|es IH] using Object_nested_ind; [discriminate|].
    intros es' [= <-].
    induction es as [|[name obj] rest IHrest]; [reflexivity|].
    inversion IH as [|? ? IHobj IHtl]; subst.
    specialize (IHrest IHtl). rewrite count_entries_cons.
    destruct obj as [data|sub].
    - rewrite iter_tree_cons_blob. simpl length. rewrite IHrest. reflexivity.
    - rewrite iter_tree_cons_tree. simpl length.
      rewrite length_app, length_map, IHrest.
      rewrite (IHobj sub eq_refl). reflexivity. }
  exact (H _ entries eq_refl).
Qed.

Lemma resolve_names (segs : list string) :
  forall (t : list TreeEntry) (e : TreeEntry),
  wf_object (Tree t) = true -> resolve segs t = Some e ->
  Forall (fun s => valid_name s = true) segs.
Proof.
  assert (Hin : forall (t : list TreeEntry) x, wf_object (Tree t) = true -> In x t ->
            valid_name (fst x) = true /\ wf_object (snd x) = true).
  { induction t as [|y r IH]; [intros x _ []|].
    intros x (Hv & Hw & _ & Hr)%wf_object_cons [<-|Hx]; [auto|].
    exact (IH x Hr Hx). }
  induction segs as [|n rest IH]; [constructor|].
  intros t e Hwf H.
  destruct rest as [|m rest].
  - simpl in H. apply tree_getitem_In in H as [Hx <-].
    constructor; [exact (proj1 (Hin _ _ Hwf Hx)) | constructor].
  - change (resolve (n :: m :: rest) t)
      with (match tree_getitem t n with
            | Some (_, Tree sub) => resolve (m :: rest) sub
            | _ => None
            end) in H.
    destruct (tree_getitem t n) as [[n' [data|sub]]|] eqn:E; try discriminate.
    apply tree_getitem_In in E as [Hx Hn]. simpl in Hn. subst n'.
    destruct (Hin _ _ Hwf Hx) as [Hv Hsub]. simpl in Hv, Hsub.
    constructor; [exact Hv|]. exact (IH sub e Hsub H).
Qed.

Lemma concat_not_absolute (segs : list string) :
  segs <> [] -> Forall (fun s => valid_name s = true) segs ->
  Path.startswith "/" (String.concat "/" segs) = false.
Proof.
  intros Hne Hv. destruct segs as [|s ss]; [congruence|].
  inversion Hv as [|? ? Hs _]; subst. simpl.
  destruct ss; [apply startswith_sep_name | apply startswith_sep_valid];
    assumption.
Qed.

Lemma resolve_cons (n m : string) (rest : list string) (t : list TreeEntry) :
  resolve (n :: m :: rest) t =
  match tree_getitem t n with
  | Some (_, Tree sub) => resolve (m :: rest) sub
  | _ => None
  end.
Proof. reflexivity. Qed.

Lemma tree_getitem_here (name : string) (obj : Object) (rest : list TreeEntry) :
  tree_getitem ((name, obj) :: rest) name = Some (name, obj).
Proof. simpl. unfold entry_name. simpl. rewrite String.eqb_refl. reflexivity. Qed.

Lemma tree_getitem_later (name n : string) (obj : Object) (rest : list TreeEntry) :
  name <> n -> tree_getitem ((name, obj) :: rest) n = tree_getitem rest n.
Proof.
  intros Hne. apply String.eqb_neq in Hne.
  simpl. unfold entry_name. simpl. rewrite Hne. reflexivity.
Qed.

Lemma iter_tree_reaches (o : Object) :
  wf_object o = true ->
  forall entries, o = Tree entries ->
  forall segs e, resolve segs entries = Some e ->
  exists w, In w (iter_tree entries) /\ tree_entry w = e /\
            path w = String.concat "/" segs.
Proof.
  induction o as [data|es IH] using Object_nested_ind; [discriminate|].
  intros Hwf entries [= <-].
  induction es as [|[name obj] rest IHrest].
  { intros segs e H. apply resolve_head in H as (n & r & x & _ & Hx).
    discriminate Hx. }
  pose proof Hwf as Hwf0.
  apply wf_object_cons in Hwf as (Hv & Hobj & Hfresh & Hrest).
  simpl in Hv, Hobj, Hfresh.
  inversion IH as [|? ? IHobj IHtl]; subst.
  specialize (IHrest IHtl Hrest).
  intros segs e H.
  destruct segs as [|n segs]; [discriminate|].
  destruct (String.eqb_spec name n) as [<-|Hne].
  - (* the path goes through the first entry *)
    destruct segs as [|m segs].
    + change (tree_getitem ((name, obj) :: rest) name = Some e) in H.
      rewrite tree_getitem_here in H. injection H as <-.
      destruct obj as [data|sub].
      * rewrite iter_tree_cons_blob. eexists. split; [left; reflexivity|].
        split; reflexivity.
      * rewrite iter_tree_cons_tree. eexists. split; [left; reflexivity|].
        split; reflexivity.
    + rewrite resolve_cons, tree_getitem_here in H.
      destruct obj as [data|sub]; [discriminate|].
      destruct (IHobj Hobj sub eq_refl _ _ H) as (w & Hw & He & Hp).
      exists (reyield name w). rewrite iter_tree_cons_tree.
      split; [right; apply in_or_app; left; apply in_map; exact Hw|].
      split; [exact He|].
      simpl path. rewrite Hp.
      rewrite join_valid; [reflexivity | assumption |].
      apply concat_not_absolute; [discriminate|].
      exact (resolve_names _ _ _ Hobj H).
  - (* the path goes through a later entry *)
    assert (Hr : resolve (n :: segs) rest = Some e).
    { destruct segs as [|m segs].
      - change (tree_getitem ((name, obj) :: rest) n = Some e) in H.
        rewrite tree_getitem_later in H by assumption. exact H.
      - rewrite resolve_cons, tree_getitem_later in H by assumption.
        rewrite resolve_cons. exact H. }
    destruct (IHrest _ _ Hr) as (w & Hw & He & Hp).
    exists w. split; [|split; assumption].
    destruct obj as [data|sub].
    + rewrite iter_tree_cons_blob. right. exact Hw.
    + rewrite iter_tree_cons_tree. right. apply in_or_app. right. exact Hw.
Qed.

(** X2.  Whatever a path of names reaches in a tree whose names are
    valid and distinct, [iter_tree] yields, under that path. *)
Theorem iter_tree_yields_what_paths_reach
    (entries : list TreeEntry) (segs : list string) (e : TreeEntry) :
  wf_object (Tree entries) = true ->
  resolve segs entries = Some e ->
  exists w, In w (iter_tree entries) /\ tree_entry w = e /\
            path w = String.concat "/" segs /\
            blob w = (if is_tree (entry_oid e) then None else Some (entry_oid e)).
Proof.
  intros Hwf H.
  destruct (iter_tree_reaches _ Hwf entries eq_refl segs e H) as (w & Hw & He & Hp).
  exists w. repeat split; try assumption.
  rewrite <- He. exact (iter_tree_blob _ entries eq_refl w Hw).
Qed.

Lemma app_sep_inj (a a' x x' : string) :
  Path.has_sep a = false -> Path.has_sep a' = false ->
  a +:+ "/" +:+ x = a' +:+ "/" +:+ x' -> a = a' /\ x = x'.
Proof.
  revert a'. induction a as [|c a IH]; intros [|c' a'] Ha Ha' H; simpl in *.
  - injection H as H. simpl in H. auto.
  - injection H as Hc _. subst c'. apply orb_false_iff in Ha' as [Hc _].
    unfold Path.sep in Hc. rewrite Ascii.eqb_refl in Hc. discriminate.
  - injection H as Hc _. subst c. apply orb_false_iff in Ha as [Hc _].
    unfold Path.sep in Hc. rewrite Ascii.eqb_refl in Hc. discriminate.
  - injection H as Hc H. subst c'.
    apply orb_false_iff in Ha as [_ Ha]. apply orb_false_iff in Ha' as [_ Ha'].
    destruct (IH a' Ha Ha' H) as [-> ->]. auto.
Qed.

Lemma concat_sep_inj (segs : list string) :
  forall segs',
  Forall (fun s => valid_name s = true) segs ->
  Forall (fun s => valid_name s = true) segs' ->
  String.concat "/" segs = String.concat "/" segs' -> segs = segs'.
Proof.
  induction segs as [|s ss IH]; intros [|s' ss'] Hv Hv' H.
  - reflexivity.
  - inversion Hv' as [|? ? Hs' _]; subst.
    apply valid_name_spec in Hs' as [Hne _].
    simpl in H. destruct ss'; destruct s'; try congruence; discriminate.
  - inversion Hv as [|? ? Hs _]; subst.
    apply valid_name_spec in Hs as [Hne _].
    simpl in H. destruct ss; destruct s; try congruence; discriminate.
  - inversion Hv as [|? ? Hs Hss]; subst.
    inversion Hv' as [|? ? Hs' Hss']; subst.
    apply valid_name_spec in Hs as [_ Hs].
    apply valid_name_spec in Hs' as [_ Hs'].
    simpl in H.
    destruct ss as [|t ss]; destruct ss' as [|t' ss'].
    + congruence.
    + subst s. rewrite has_sep_app in Hs. simpl in Hs.
      rewrite orb_true_r in Hs. discriminate.
    + subst s'. rewrite has_sep_app in Hs'. simpl in Hs'.
      rewrite orb_true_r in Hs'. discriminate.
    + apply app_sep_inj in H as [-> H]; try assumption.
      f_equal. exact (IH _ Hss Hss' H).
Qed.

Lemma NoDup_map_injective {A B} (f : A -> B) (l : list A) :
  (forall x y, In x l -> In y l -> f x = f y -> x = y) ->
  List.NoDup l -> List.NoDup (map f l).
Proof.
  intros Hinj Hl. induction Hl as [|a l Ha Hl IH]; [constructor|].
  simpl. constructor.
  - intros Hin. apply in_map_iff in Hin as (y & Hy & Hin).
    assert (y = a) by (apply Hinj; [right; exact Hin | left; reflexivity | exact Hy]).
    subst y. exact (Ha Hin).
  - apply IH. intros x y Hx Hy. apply Hinj; right; assumption.
Qed.

(** What [iter_tree] yields for the entries after the first is not under
    a path that starts with the name of the first. *)
Lemma iter_tree_rest_elsewhere (name : string) (rest : list TreeEntry)
    (tail : list string) (w : TreeEntryWrapper) :
  wf_object (Tree rest) = true -> ~ In name (map fst rest) ->
  valid_name name = true -> Forall (fun s => valid_name s = true) tail ->
  In w (iter_tree rest) -> path w <> String.concat "/" (name :: tail).
Proof.
  intros Hwf Hfresh Hv Htail Hw Hp.
  destruct (iter_tree_paths _ Hwf rest eq_refl w Hw) as (segs & Hsegs & Hp' & Hr).
  assert (segs = name :: tail) as ->.
  { apply concat_sep_inj; [assumption | constructor; assumption | congruence]. }
  apply resolve_head in Hr as (n & r & x & [= <- <-] & Hx).
  apply tree_getitem_In in Hx as [Hin <-].
  apply Hfresh. apply in_map. exact Hin.
Qed.

Lemma iter_tree_NoDup (o : Object) :
  wf_object o = true ->
  forall entries, o = Tree entries ->
  List.NoDup (map path (iter_tree entries)).
Proof.
  induction o as [data|es IH] using Object_nested_ind; [discriminate|].
  intros Hwf entries [= <-].
  induction es as [|[name obj] rest IHrest]; [constructor|].
  apply wf_object_cons in Hwf as (Hv & Hobj & Hfresh & Hrest).
  simpl in Hv, Hobj, Hfresh.
  inversion IH as [|? ? IHobj IHtl]; subst.
  specialize (IHrest IHtl Hrest).
  assert (Hname : ~ In name (map path (iter_tree rest))).
  { intros Hin. apply in_map_iff in Hin as (w & Hp & Hw).
    exact (iter_tree_rest_elsewhere name rest [] w Hrest Hfresh Hv
             (List.Forall_nil _) Hw Hp). }
  destruct obj as [data|sub].
  - rewrite iter_tree_cons_blob. simpl. constructor; assumption.
  - rewrite iter_tree_cons_tree. simpl. rewrite map_app.
    replace (map path (map (reyield name) (iter_tree sub)))
      with (map (Path.join name) (map path (iter_tree sub)))
      by (rewrite !map_map; reflexivity).
    assert (Hsub : forall w, In w (iter_tree sub) ->
              exists segs, Forall (fun s => valid_name s = true) segs /\
                path (reyield name w) = String.concat "/" (name :: segs) /\
                path w = String.concat "/" segs).
    { intros w Hw.
      destruct (iter_tree_paths _ Hobj sub eq_refl w Hw) as (segs & Hsegs & Hp & Hr).
      exists segs. split; [assumption|]. split; [|assumption].
      simpl path. rewrite Hp.
      destruct segs as [|s ss]; [discriminate Hr|].
      rewrite join_valid; [reflexivity | assumption |].
      apply concat_not_absolute; [discriminate | assumption]. }
    constructor.
    + intros Hin. apply in_app_or in Hin as [Hin|Hin]; [|exact (Hname Hin)].
      apply in_map_iff in Hin as (p & Hp & _).
      pose proof (has_sep_join name p Hv) as Hj. rewrite Hp in Hj.
      apply valid_name_spec in Hv as [_ Hsep]. congruence.
    + apply List.NoDup_app.
      * apply NoDup_map_injective; [|exact (IHobj Hobj sub eq_refl)].
        intros p q Hp Hq E.
        apply in_map_iff in Hp as (w & <- & Hw).
        apply in_map_iff in Hq as (w' & <- & Hw').
        destruct (Hsub w Hw) as (segs & Hsegs & Hpw & Hpp).
        destruct (Hsub w' Hw') as (segs' & Hsegs' & Hpw' & Hpp').
        change (Path.join name (path w) = String.concat "/" (name :: segs)) in Hpw.
        change (Path.join name (path w') = String.concat "/" (name :: segs')) in Hpw'.
        rewrite Hpw, Hpw' in E.
        apply concat_sep_inj in E; try (constructor; assumption).
        injection E as <-. congruence.
      * exact IHrest.
      * intros p Hp Hp'.
        apply in_map_iff in Hp as (q & <- & Hq).
        apply in_map_iff in Hq as (w & <- & Hw).
        apply in_map_iff in Hp' as (w' & E & Hw').
        destruct (Hsub w Hw) as (segs & Hsegs & Hpw & _).
        apply (iter_tree_rest_elsewhere name rest segs w' Hrest Hfresh Hv
                 Hsegs Hw').
        change (Path.join name (path w) = String.concat "/" (name :: segs)) in Hpw.
        congruence.
Qed.

(** X3.  In a tree whose names are valid and distinct at every level,
    [iter_tree] yields no path twice, and two entries it yields under
    the same path are one entry: a path names what it was yielded for. *)
Theorem iter_tree_paths_are_distinct (entries : list TreeEntry) :
  wf_object (Tree entries) = true ->
  List.NoDup (map path (iter_tree entries)) /\
  (forall w1 w2, In w1 (iter_tree entries) -> In w2 (iter_tree entries) ->
     path w1 = path w2 -> w1 = w2).
Proof.
  intros Hwf. split; [exact (iter_tree_NoDup _ Hwf entries eq_refl)|].
  intros w1 w2 H1 H2 Hp.
  destruct (iter_tree_paths _ Hwf entries eq_refl w1 H1) as (s1 & V1 & P1 & R1).
  destruct (iter_tree_paths _ Hwf entries eq_refl w2 H2) as (s2 & V2 & P2 & R2).
  assert (s1 = s2) as ->
      by (apply concat_sep_inj; try assumption; congruence).
  assert (He : tree_entry w1 = tree_entry w2) by congruence.
  pose proof (iter_tree_blob _ entries eq_refl w1 H1) as B1.
  pose proof (iter_tree_blob _ entries eq_refl w2 H2) as B2.
  destruct w1 as [e1 p1 b1], w2 as [e2 p2 b2]. simpl in *.
  subst. reflexivity.
Qed.

(* ===================================================================== *)
(** ** Versions that are refused *)
(* ===================================================================== *)


Lemma init_source {ext : Externals} (id : Z) (w : World) :
  AddonGitRepository.__init__ id "source" w =
  (Return {| AddonGitRepository.git_repository_path :=
               Path.join (Path.join GIT_FILE_STORAGE_PATH (id_to_path id)) "source";
             AddonGitRepository.cached_git_repository := None |}, w).
Proof. reflexivity. Qed.



(* ===================================================================== *)
(** ** What a step leaves alone *)
(* ===================================================================== *)

#[global] Instance only_footprint (p : string) : Footprint (only p) (fun h => h = p).
Proof.
  split.
  - intros w rp _. reflexivity.
  - intros w1 w2 w3 H1 H2 rp Hrp. rewrite (H2 rp Hrp). exact (H1 rp Hrp).
  - intros f w rp _. reflexivity.
  - intros n w rp _. reflexivity.
  - intros h x w -> rp Hrp. simpl. apply lookup_insert_ne. congruence.
Qed.

#[global] Instance same_disk_footprint : Footprint same_disk (fun _ => False).
Proof.
  split.
  - intros w. reflexivity.
  - intros w1 w2 w3 H1 H2. unfold same_disk in *. congruence.
  - intros f w. reflexivity.
  - intros n w. reflexivity.
  - intros h x w [].
Qed.

#[global] Instance same_hashes_footprint : Footprint same_hashes (fun _ => True).
Proof.
  split.
  - intros w. repeat split.
  - intros w1 w2 w3 (A1 & B1) (A2 & B2). split; congruence.
  - intros f w. repeat split.
  - intros n w. repeat split.
  - intros h x w _. repeat split.
Qed.

Section Footprints.

Context {ext : Externals}.
Context (R : World -> World -> Prop) (touch : string -> Prop)
        `{!Footprint R touch}.

Ltac footprint :=
  simpl;
  first [ reflexivity
        | apply footprint_tmpfs
        | apply footprint_draws
        | apply footprint_disk; assumption
        | eapply transitivity; [|apply footprint_tmpfs];
          apply footprint_disk; assumption
        | eapply transitivity; [|apply footprint_tmpfs]; apply footprint_draws ].

Lemma fp_bind {A B} (m : Py A) (k : A -> Py B) :
  respects R m -> (forall a, respects R (k a)) -> respects R (bind m k).
Proof. apply respects_bind; apply _. Qed.

Lemma fp_bind_returning {A B} (Q : A -> Prop) (m : Py A) (k : A -> Py B) :
  respects R m -> (forall w a w', m w = (Return a, w') -> Q a) ->
  (forall a, Q a -> respects R (k a)) -> respects R (bind m k).
Proof using Footprint0.
  intros Hm HQ Hk w. unfold bind. specialize (Hm w).
  destruct (m w) as [[a|e] w1] eqn:E; simpl in *; [|assumption].
  etransitivity; [exact Hm | apply Hk; eapply HQ; eassumption].
Qed.

Lemma fp_ret {A} (a : A) : respects R (ret a).
Proof. apply respects_ret; apply _. Qed.

Lemma fp_raise {A} (e : Exn) : respects R (@raise A e).
Proof. apply respects_raise; apply _. Qed.

Lemma fp_get {A} (f : World -> A) : respects R (get f).
Proof. apply respects_get; apply _. Qed.

Lemma fp_io op e : respects R (io op e).
Proof. apply respects_io; apply _. Qed.

Lemma fp_lift {A} (r : Exn + A) : respects R (lift r).
Proof. apply respects_lift; apply _. Qed.

Lemma fp_for {X} (xs : list X) (body : X -> Py unit) :
  (forall x, respects R (body x)) -> respects R (for_ xs body).
Proof. apply respects_for; apply _. Qed.

Lemma fp_set_tmpfs f : respects R (modify (set_tmpfs f)).
Proof using Footprint0. intros w. apply footprint_tmpfs. Qed.

Lemma fp_uuid4 : respects R uuid4.
Proof using Footprint0. intros w. apply footprint_draws. Qed.

Lemma fp_fs_op op f : respects R (fs_op op f).
Proof using Footprint0. run_primitive w; footprint. Qed.

Lemma fp_the_repo h : respects R (Git.the_repo h).
Proof using Footprint0. run_primitive w; footprint. Qed.

Lemma fp_branches_get h n : respects R (Git.branches_get h n).
Proof using Footprint0. run_primitive w; footprint. Qed.

Lemma fp_head_peel h : respects R (Git.head_peel h).
Proof using Footprint0. unfold Git.head_peel. run_primitive w; footprint. Qed.

Lemma fp_worktree_head_tree h n : respects R (Git.worktree_head_tree h n).
Proof using Footprint0.
  unfold Git.worktree_head_tree. run_primitive w; footprint.
Qed.

Lemma fp_Repository_open p : respects R (Git.Repository_open p).
Proof using Footprint0. unfold Git.Repository_open. run_primitive w; footprint. Qed.

Lemma fp_TreeBuilder_write h : respects R (Git.TreeBuilder_write h).
Proof using Footprint0. unfold Git.TreeBuilder_write. run_primitive w; footprint. Qed.

Lemma fp_makedirs p : touch p -> respects R (AddonGitRepository.makedirs p).
Proof using Footprint0.
  intros Hp. unfold AddonGitRepository.makedirs. run_primitive w; footprint.
Qed.

Lemma fp_init_repository p : touch p -> respects R (Git.init_repository p).
Proof using Footprint0.
  intros Hp. unfold Git.init_repository. run_primitive w; footprint.
Qed.

Lemma fp_create_commit h ref a k m t ps :
  touch h -> respects R (Git.create_commit h ref a k m t ps).
Proof using Footprint0.
  intros Hp. unfold Git.create_commit. run_primitive w; footprint.
Qed.

Lemma fp_create_branch h n c : touch h -> respects R (Git.create_branch h n c).
Proof using Footprint0.
  intros Hp. unfold Git.create_branch. run_primitive w; footprint.
Qed.

Lemma fp_set_target b c :
  touch (Git.branch_repo b) -> respects R (Git.set_target b c).
Proof using Footprint0.
  intros Hp. unfold Git.set_target. run_primitive w; footprint.
Qed.

Lemma fp_add_worktree h n p : touch h -> respects R (Git.add_worktree h n p).
Proof using Footprint0.
  intros Hp. unfold Git.add_worktree. run_primitive w; footprint.
Qed.

Lemma fp_prune h n : touch h -> respects R (Git.prune h n).
Proof using Footprint0.
  intros Hp. unfold Git.prune. run_primitive w; footprint.
Qed.

Lemma fp_branch_delete b :
  touch (Git.branch_repo b) -> respects R (Git.branch_delete b).
Proof using Footprint0.
  intros Hp. unfold Git.branch_delete. run_primitive w; footprint.
Qed.

End Footprints.

(** One step of a program, for a relation with a footprint. *)
Ltac fp_step :=
  lazymatch goal with
  | |- respects _ (bind _ _) => eapply fp_bind; [try apply _| |intros ?]
  | |- respects _ (ret _) => eapply fp_ret; apply _
  | |- respects _ (raise _) => eapply fp_raise; apply _
  | |- respects _ (get _) => eapply fp_get; apply _
  | |- respects _ (io _ _) => eapply fp_io; apply _
  | |- respects _ (lift _) => eapply fp_lift; apply _
  | |- respects _ (for_ _ _) => eapply fp_for; [apply _|intros ?]
  | |- respects _ (modify (set_tmpfs _)) => eapply fp_set_tmpfs; apply _
  | |- respects _ uuid4 => eapply fp_uuid4; apply _
  | |- respects _ (fs_op _ _) => eapply fp_fs_op; apply _
  | |- respects _ (Git.the_repo _) => eapply fp_the_repo; apply _
  | |- respects _ (Git.branches_get _ _) => eapply fp_branches_get; apply _
  | |- respects _ (Git.head_peel _) => eapply fp_head_peel; apply _
  | |- respects _ (Git.worktree_head_tree _ _) =>
      eapply fp_worktree_head_tree; apply _
  | |- respects _ (Git.Repository_open _) => eapply fp_Repository_open; apply _
  | |- respects _ (Git.TreeBuilder_write _) => eapply fp_TreeBuilder_write; apply _
  | |- respects _ (AddonGitRepository.makedirs _) =>
      eapply fp_makedirs; [apply _|auto]
  | |- respects _ (Git.init_repository _) =>
      eapply fp_init_repository; [apply _|auto]
  | |- respects _ (Git.create_branch _ _ _) =>
      eapply fp_create_branch; [apply _|auto]
  | |- respects _ (Git.add_worktree _ _ _) =>
      eapply fp_add_worktree; [apply _|auto]
  | |- respects _ (Git.prune _ _) => eapply fp_prune; [apply _|auto]
  | |- respects _ (Git.create_commit _ _ _ _ _ _ _) =>
      eapply fp_create_commit; [apply _|auto]
  | |- respects _ (Git.set_target _ _) => eapply fp_set_target; [apply _|auto]
  | |- respects _ (Git.branch_delete _) =>
      eapply fp_branch_delete; [apply _|auto]
  | |- respects _ (match ?x with _ => _ end) => destruct x
  | |- respects _ (let '(_, _) := ?x in _) => destruct x
  end.

Ltac fp_program := repeat fp_step.

Lemma init_repository_returns p w h w' :
  Git.init_repository p w = (Return h, w') -> h = p.
Proof. unfold Git.init_repository. intros H. run_in H; reflexivity. Qed.

Section FootprintPrograms.

Context {ext : Externals}.
Context (R : World -> World -> Prop) (touch : string -> Prop)
        `{!Footprint R touch}.

Lemma fp_mkdtemp : respects R mkdtemp.
Proof using Footprint0. unfold mkdtemp. fp_program. Qed.

Lemma fp_worktree_init h : respects R (TemporaryWorktree.__init__ h).
Proof using Footprint0.
  unfold TemporaryWorktree.__init__. fp_program. apply fp_mkdtemp.
Qed.

Lemma fp_worktree_enter s :
  touch (TemporaryWorktree.git_repository s) ->
  respects R (TemporaryWorktree.__enter__ s).
Proof using Footprint0.
  intros Ht. unfold TemporaryWorktree.__enter__. fp_program.
Qed.

Lemma fp_worktree_exit s :
  touch (TemporaryWorktree.git_repository s) ->
  respects R (TemporaryWorktree.__exit__ s).
Proof using Footprint0.
  intros Ht. unfold TemporaryWorktree.__exit__.
  eapply fp_bind; [apply _|fp_program|intros _].
  eapply fp_bind; [apply _|fp_program|intros _].
  intros w. unfold Git.lookup_branch, Git.branches_get, Git.the_repo, bind, ret.
  destruct (disk w !! TemporaryWorktree.git_repository s) as [[r|]|];
    try reflexivity.
  destruct (refs r !! TemporaryWorktree.name s) as [t|]; simpl; [|reflexivity].
  apply (fp_branch_delete R touch). exact Ht.
Qed.

Lemma fp_git_repository_at depth self :
  touch (AddonGitRepository.git_repository_path self) ->
  respects R (AddonGitRepository.git_repository_at depth self).
Proof using Footprint0.
  revert self. induction depth as [|depth IH]; intros self Ht; simpl.
  - fp_program.
  - destruct (AddonGitRepository.cached_git_repository self); [fp_program|].
    unfold AddonGitRepository.is_extracted.
    eapply fp_bind; [apply _|fp_program|intros extracted].
    eapply fp_bind; [apply _| |intros [res self1]; fp_program].
    destruct (negb extracted); [|fp_program].
    eapply fp_bind; [apply _|fp_program|intros _].
    apply (fp_bind_returning R touch
             (fun h => h = AddonGitRepository.git_repository_path self)).
    + fp_program.
    + intros w h w'. apply init_repository_returns.
    + intros h ->.
      eapply fp_bind; [apply _|apply IH; exact Ht|intros [inner self1]].
      fp_program.
Qed.

Lemma fp_git_repository self :
  touch (AddonGitRepository.git_repository_path self) ->
  respects R (AddonGitRepository.git_repository self).
Proof using Footprint0. apply fp_git_repository_at. Qed.

Lemma fp_with {T A} (I J : T -> Prop)
    (mgr : Py T) (enter : T -> Py T) (exit : T -> Py unit) (body : T -> Py A) :
  respects R mgr -> (forall w s w', mgr w = (Return s, w') -> I s) ->
  (forall s, I s -> respects R (enter s)) ->
  (forall s w s' w', I s -> enter s w = (Return s', w') -> J s') ->
  (forall s, J s -> respects R (exit s)) ->
  (forall s, J s -> respects R (body s)) ->
  respects R (with_ mgr enter exit body).
Proof using Footprint0.
  intros Hm HI He HJ Hx Hb w. unfold with_, bind.
  specialize (Hm w). destruct (mgr w) as [[s|e] w1] eqn:Em; [|exact Hm].
  simpl in Hm. pose proof (HI _ _ _ Em) as Hs.
  specialize (He s Hs w1).
  destruct (enter s w1) as [[s'|e] w2] eqn:Ee;
    [|simpl in *; etransitivity; eassumption].
  simpl in He. pose proof (HJ _ _ _ _ Hs Ee) as Hs'.
  pose proof (respects_try_finally R _ _ (Hb s' Hs') (Hx s' Hs') w2) as Ht.
  etransitivity; [exact Hm|]. etransitivity; [exact He | exact Ht].
Qed.

Lemma fp_find_or_create_branch self name :
  wf_self self ->
  touch (AddonGitRepository.git_repository_path self) ->
  respects R (AddonGitRepository.find_or_create_branch self name).
Proof using Footprint0.
  intros Hwf Ht. unfold AddonGitRepository.find_or_create_branch.
  set (p := AddonGitRepository.git_repository_path self).
  set (Q := fun x : Git.Handle * AddonGitRepository.t =>
              fst x = p /\ AddonGitRepository.git_repository_path (snd x) = p /\
              wf_self (snd x)).
  assert (HQ : forall s, AddonGitRepository.git_repository_path s = p ->
             wf_self s -> forall w a w',
             AddonGitRepository.git_repository s w = (Return a, w') -> Q a).
  { intros s Hs Hw w [h s'] w' H.
    destruct (git_repository_returns _ _ _ _ _ Hw H) as (-> & Hp & Hc & _).
    unfold Q. simpl. rewrite Hp, Hs. repeat split.
    right. rewrite Hc, Hp. reflexivity. }
  apply (fp_bind_returning R touch Q);
    [apply fp_git_repository; exact Ht | apply HQ; [reflexivity | exact Hwf] |].
  intros [repo self1] (Hr & Hp1 & Hw1). simpl in Hr, Hp1, Hw1. subst repo.
  eapply fp_bind; [apply _|fp_program|intros [b|]]; [fp_program|].
  apply (fp_bind_returning R touch Q);
    [apply fp_git_repository; rewrite Hp1; exact Ht | apply HQ; assumption |].
  intros [repo2 self2] (Hr & Hp2 & Hw2). simpl in Hr, Hp2, Hw2. subst repo2.
  eapply fp_bind;
    [apply _|apply fp_git_repository; rewrite Hp2; exact Ht|intros [repo3 self3]].
  fp_program.
Qed.

Lemma fp_rename_dot_git p files :
  respects R (AddonGitRepository.rename_dot_git p files).
Proof using Footprint0.
  unfold AddonGitRepository.rename_dot_git. fp_program.
Qed.

Lemma fp_commit_in_worktree path message author branch worktree :
  (forall h, TemporaryWorktree.repo worktree = Some h -> touch h) ->
  touch (Git.branch_repo branch) ->
  respects R (AddonGitRepository.commit_in_worktree path message author branch
                worktree).
Proof using Footprint0.
  intros Hw Hb. unfold AddonGitRepository.commit_in_worktree.
  unfold Index.read, Index.add_all, Index.write, Index.write_tree.
  pose proof fp_rename_dot_git as Hr.
  destruct (TemporaryWorktree.repo worktree) as [wrepo|].
  - specialize (Hw wrepo eq_refl). fp_program. apply Hr.
  - fp_program. apply Hr.
Qed.

Lemma fp_commit_through_worktree self path message author branch :
  wf_self self ->
  touch (AddonGitRepository.git_repository_path self) ->
  touch (Git.branch_repo branch) ->
  respects R (AddonGitRepository._commit_through_worktree
                self path message author branch).
Proof using Footprint0.
  intros Hwf Ht Hb. unfold AddonGitRepository._commit_through_worktree.
  set (p := AddonGitRepository.git_repository_path self).
  apply (fp_bind_returning R touch
           (fun x : Git.Handle * AddonGitRepository.t => fst x = p)).
  - apply fp_git_repository. exact Ht.
  - intros w [h s'] w' H.
    destruct (git_repository_returns _ _ _ _ _ Hwf H) as (-> & _). reflexivity.
  - intros [repo self1] Hr. simpl in Hr. subst repo.
    eapply fp_bind; [apply _| |intros c; fp_program].
    apply (fp_with
             (fun s => TemporaryWorktree.git_repository s = p)
             (fun s => TemporaryWorktree.git_repository s = p /\
                       TemporaryWorktree.repo s = Some p)).
    + apply fp_worktree_init.
    + intros w s w' (Hg & _)%worktree_init_returns. exact Hg.
    + intros s Hs. apply fp_worktree_enter. rewrite Hs. exact Ht.
    + intros s w s' w' Hs ->%worktree_enter_returns. simpl.
      rewrite Hs. split; reflexivity.
    + intros s [Hs _]. apply fp_worktree_exit. rewrite Hs. exact Ht.
    + intros s [_ Hs]. apply fp_commit_in_worktree; [|exact Hb].
      intros h. rewrite Hs. intros [= <-]. exact Ht.
Qed.

End FootprintPrograms.

(* ===================================================================== *)
(** ** One upload, one repository *)
(* ===================================================================== *)

Lemma only_same_disk (p : string) {A} (m : Py A) :
  (forall w, disk (snd (m w)) = disk w) -> respects (only p) m.
Proof. intros H w rp _. rewrite H. reflexivity. Qed.

Lemma only_activate p l : respects (only p) (AddonGitRepository.activate l).
Proof. apply only_same_disk. reflexivity. Qed.

Lemma only_version_update_git_hash p v c :
  respects (only p) (AddonGitRepository.version_update_git_hash v c).
Proof.
  apply only_same_disk. intros w.
  unfold AddonGitRepository.version_update_git_hash, bind, io, modify.
  destruct (faults w _); reflexivity.
Qed.

Lemma only_version_update_source_git_hash p v c :
  respects (only p) (AddonGitRepository.version_update_source_git_hash v c).
Proof.
  apply only_same_disk. intros w.
  unfold AddonGitRepository.version_update_source_git_hash, bind, io, modify.
  destruct (faults w _); reflexivity.
Qed.

(** From looking up the branch to the commit, all is done in the
    repository of the instance. *)
Lemma only_branch_and_commit {ext : Externals} (p : string)
    (self : AddonGitRepository.t) (name path : string)
    (message : string -> string) (author : option User)
    (k : Commit * AddonGitRepository.t -> Py AddonGitRepository.t) :
  AddonGitRepository.git_repository_path self = p ->
  wf_self self ->
  (forall x, respects (only p) (k x)) ->
  respects (only p)
    (let2 branch, repo <- AddonGitRepository.find_or_create_branch self name ;;
     lang <- AddonGitRepository.get_language ;;
     x <- AddonGitRepository._commit_through_worktree repo path (message lang)
            author branch ;;
     k x).
Proof.
  intros Hp Hwf Hk.
  apply (fp_bind_returning (only p) (fun h => h = p)
           (fun x : Git.Branch * AddonGitRepository.t =>
              Git.branch_repo (fst x) = p /\
              AddonGitRepository.git_repository_path (snd x) = p /\
              wf_self (snd x))).
  - apply (fp_find_or_create_branch (only p) (fun h => h = p));
      [exact Hwf | exact Hp].
  - intros w [b s] w' H.
    destruct (find_or_create_branch_returns _ _ _ _ _ _ Hwf H)
      as (Hs & Hc & Hb & _).
    simpl. rewrite Hb, Hs, Hp. repeat split.
    right. rewrite Hc, Hs. reflexivity.
  - intros [branch repo] (Hb & Hs & Hw). simpl in Hb, Hs, Hw.
    eapply fp_bind; [apply _|eapply fp_get; apply _|intros lang].
    eapply fp_bind; [apply _| |exact Hk].
    apply (fp_commit_through_worktree (only p) (fun h => h = p)); assumption.
Qed.

Lemma string_app_inv_head (a x y : string) : a +:+ x = a +:+ y -> x = y.
Proof. induction a as [|c a IH]; simpl; [auto|]. intros [= H]. exact (IH H). Qed.

Lemma package_paths_differ {ext : Externals} (id : Z) :
  addon_path id <> addon_source_path id.
Proof.
  unfold addon_path, addon_source_path, Path.join at 1 3.
  change (Path.startswith "/" "addon") with false.
  change (Path.startswith "/" "source") with false. cbv iota.
  destruct (_ || _); intros H; apply string_app_inv_head in H; discriminate.
Qed.

(** X6.  An upload writes to one repository, the one of the add-on and of
    the kind of package: every other repository is as it was, whether the
    upload returns or raises.  The repository of the packages and the one
    of the sources of an add-on are at different paths, so an upload of
    one kind leaves the repository of the other kind as it was. *)
Theorem uploads_write_to_one_repository {ext : Externals}
    (version : Version) (author : option User) (w : World) (rp : string) :
  (rp <> addon_path (addon_id version) ->
   disk (snd (AddonGitRepository.extract_and_commit_from_version
                version author w)) !! rp = disk w !! rp) /\
  (rp <> addon_source_path (addon_id version) ->
   disk (snd (AddonGitRepository.extract_and_commit_source_from_version
                version author w)) !! rp = disk w !! rp) /\
  addon_path (addon_id version) <> addon_source_path (addon_id version).
Proof.
  split; [|split; [|apply package_paths_differ]]; intros Hrp.
  - set (p := addon_path (addon_id version)) in *.
    assert (H : respects (only p)
                  (AddonGitRepository.extract_and_commit_from_version
                     version author)); [|exact (H w rp Hrp)].
    unfold AddonGitRepository.extract_and_commit_from_version.
    eapply fp_bind; [apply _|eapply fp_get; apply _|intros lang0].
    apply (respects_try_finally (only p)); [|apply only_activate].
    eapply fp_bind; [apply _|apply only_activate|intros _].
    intros w0. rewrite (bind_return _ _ _ _ _ (init_addon _ _)). revert w0.
    change (respects (only p)
      (file_obj <- match all_files version with
                   | f :: _ => ret f
                   | [] => raise IndexError
                   end ;;
       name <- match BRANCHES (channel version) with
               | Some n => ret n
               | None => raise (KeyError (str (channel version)))
               end ;;
       let2 branch, repo <-
         AddonGitRepository.find_or_create_branch
           (AddonGitRepository.mk p None) name ;;
       lang <- AddonGitRepository.get_language ;;
       let2 commit, repo <-
         AddonGitRepository._commit_through_worktree repo
           (current_file_path file_obj)
           ("Create new version " +:+ version_repr version lang +:+ " ("
            +:+ str (version_id version) +:+ ") for "
            +:+ addon_repr version lang +:+ " from " +:+ file_repr file_obj lang)
           author branch ;;
       AddonGitRepository.version_update_git_hash version commit ;;
       ret repo)).
    eapply fp_bind; [apply _|destruct (all_files version); fp_program|intros f].
    eapply fp_bind;
      [apply _|destruct (BRANCHES (channel version)); fp_program|intros name].
    apply (only_branch_and_commit p (AddonGitRepository.mk p None) name
             (current_file_path f)
             (fun lang =>
                "Create new version " +:+ version_repr version lang +:+ " ("
                +:+ str (version_id version) +:+ ") for "
                +:+ addon_repr version lang +:+ " from " +:+ file_repr f lang)
             author
             (fun x => let '(commit, repo) := x in
                AddonGitRepository.version_update_git_hash version commit ;;
                ret repo));
      [reflexivity | left; reflexivity |].
    intros [commit repo].
    eapply fp_bind; [apply _|apply only_version_update_git_hash|intros _].
    fp_program.
  - set (p := addon_source_path (addon_id version)) in *.
    assert (H : respects (only p)
                  (AddonGitRepository.extract_and_commit_source_from_version
                     version author)); [|exact (H w rp Hrp)].
    unfold AddonGitRepository.extract_and_commit_source_from_version.
    intros w0. rewrite (bind_return _ _ _ _ _ (init_source _ _)). revert w0.
    change (respects (only p)
      (name <- match BRANCHES (channel version) with
               | Some n => ret n
               | None => raise (KeyError (str (channel version)))
               end ;;
       let2 branch, repo <-
         AddonGitRepository.find_or_create_branch
           (AddonGitRepository.mk p None) name ;;
       lang <- AddonGitRepository.get_language ;;
       let2 commit, repo <-
         AddonGitRepository._commit_through_worktree repo
           (source_path version)
           ("Create new version " +:+ version_repr version lang +:+ " ("
            +:+ str (version_id version) +:+ ") for "
            +:+ addon_repr version lang +:+ " from source file")
           author branch ;;
       AddonGitRepository.version_update_source_git_hash version commit ;;
       ret repo)).
    eapply fp_bind;
      [apply _|destruct (BRANCHES (channel version)); fp_program|intros name].
    apply (only_branch_and_commit p (AddonGitRepository.mk p None) name
             (source_path version)
             (fun lang =>
                "Create new version " +:+ version_repr version lang +:+ " ("
                +:+ str (version_id version) +:+ ") for "
                +:+ addon_repr version lang +:+ " from source file")
             author
             (fun x => let '(commit, repo) := x in
                AddonGitRepository.version_update_source_git_hash version commit ;;
                ret repo));
      [reflexivity | left; reflexivity |].
    intros [commit repo].
    eapply fp_bind; [apply _|apply only_version_update_source_git_hash|intros _].
    fp_program.
Qed.

(* ===================================================================== *)
(** ** The hash on the version *)
(* ===================================================================== *)

#[global] Instance same_records_footprint : Footprint same_records (fun _ => True).
Proof.
  split.
  - intros w. repeat split.
  - intros w1 w2 w3 ((A1 & B1) & C1) ((A2 & B2) & C2).
    repeat split; congruence.
  - intros f w. repeat split.
  - intros n w. repeat split.
  - intros h x w _. repeat split.
Qed.

Lemma ends_weaken {A} (m : Py A) w
    (raised raised' : Exn -> World -> Prop) (returned returned' : A -> World -> Prop) :
  ends m w raised returned ->
  (forall e w', raised e w' -> raised' e w') ->
  (forall a w', returned a w' -> returned' a w') ->
  ends m w raised' returned'.
Proof.
  unfold ends. destruct (m w) as [[a|e] w']; auto.
Qed.

(** A step, then what follows it from where the step returned. *)
Lemma ends_then {A B} (m : Py A) (k : A -> Py B) (w : World)
    (raised : Exn -> World -> Prop) (returned : B -> World -> Prop) :
  ends m w raised (fun a w1 => ends (k a) w1 raised returned) ->
  ends (bind m k) w raised returned.
Proof. unfold ends, bind. destruct (m w) as [[a|e] w1]; auto. Qed.

Lemma ends_bind (R : World -> World -> Prop) `{!Reflexive R} `{!Transitive R}
    {A B} (w0 : World) (m : Py A) (k : A -> Py B) (w : World)
    (returned : B -> World -> Prop) :
  R w0 w -> respects R m ->
  (forall a w1, R w0 w1 -> m w = (Return a, w1) ->
     ends (k a) w1 (fun _ => R w0) returned) ->
  ends (bind m k) w (fun _ => R w0) returned.
Proof.
  intros H0 Hm Hk. unfold ends, bind. specialize (Hm w).
  destruct (m w) as [[a|e] w1] eqn:E; simpl in Hm.
  - apply Hk; [etransitivity; eassumption | reflexivity].
  - etransitivity; eassumption.
Qed.

Lemma ends_try_finally_activate {A} (body : Py A) (l : string) (w : World)
    (raised : Exn -> World -> Prop) (returned : A -> World -> Prop) :
  ends body w (fun e w' => raised e (set_language l w'))
              (fun a w' => returned a (set_language l w')) ->
  ends (try_finally body (AddonGitRepository.activate l)) w raised returned.
Proof.
  unfold ends, try_finally, AddonGitRepository.activate, modify.
  destruct (body w) as [[a|e] w']; auto.
Qed.

Lemma same_hashes_activate l : respects same_hashes (AddonGitRepository.activate l).
Proof. intros w. split; reflexivity. Qed.

Lemma BRANCHES_not_random {ext : Externals} (c : Z) (n : string) :
  BRANCHES c = Some n -> String.length n <> 32.
Proof. intros [-> | ->]%BRANCHES_names; discriminate. Qed.

Lemma commit_through_worktree_self {ext : Externals}
    self path message author branch w c self' w' :
  wf_self self ->
  AddonGitRepository._commit_through_worktree self path message author branch w
    = (Return (c, self'), w') ->
  AddonGitRepository.git_repository_path self' =
  AddonGitRepository.git_repository_path self.
Proof.
  intros Hwf H. unfold AddonGitRepository._commit_through_worktree in H.
  inv_bind H as [repo self1] w1 H1. inv_bind H as c' w2 H2.
  apply ret_inv in H as [[= <- <-] <-].
  exact (proj1 (proj2 (git_repository_returns _ _ _ _ _ Hwf H1))).
Qed.

(** X7.  [extract_and_commit_from_version] writes the hash of the
    version last: when it raises, no hash of any version has changed;
    when it returns, the version has the commit its branch points at as
    its hash and no other hash has changed.  It never writes a hash of
    sources. *)
Theorem upload_records_the_hash_last {ext : Externals}
    (version : Version) (author : option User) (w : World) :
  ends (AddonGitRepository.extract_and_commit_from_version version author) w
    (fun _ w' => git_hash w' = git_hash w /\
                 source_git_hash w' = source_git_hash w)
    (fun repo w' =>
       AddonGitRepository.git_repository_path repo
         = addon_path (addon_id version) /\
       source_git_hash w' = source_git_hash w /\
       exists c,
                 git_hash w' = <[version_id version := c]> (git_hash w) /\
                 forall n, BRANCHES (channel version) = Some n ->
                   branch_pointer w' (addon_path (addon_id version)) n = Some c).
Proof.
  set (p := addon_path (addon_id version)).
  set (returned := fun (repo : AddonGitRepository.t) (w' : World) =>
         AddonGitRepository.git_repository_path repo = p /\
         source_git_hash w' = source_git_hash w /\
         exists c,
           git_hash w' = <[version_id version := c]> (git_hash w) /\
           forall n, BRANCHES (channel version) = Some n ->
             branch_pointer w' p n = Some c).
  unfold AddonGitRepository.extract_and_commit_from_version.
  unfold AddonGitRepository.get_language at 1.
  change (ends ?m w ?rr ?rq) with
    (ends (try_finally
             (AddonGitRepository.activate "en-US" ;;
              repo <- AddonGitRepository.__init__ (addon_id version) "addon" ;;
              file_obj <- match all_files version with
                          | f :: _ => ret f
                          | [] => raise IndexError
                          end ;;
              name <- match BRANCHES (channel version) with
                      | Some n => ret n
                      | None => raise (KeyError (str (channel version)))
                      end ;;
              let2 branch, repo <-
                AddonGitRepository.find_or_create_branch repo name ;;
              lang <- AddonGitRepository.get_language ;;
              let2 commit, repo <-
                AddonGitRepository._commit_through_worktree repo
                  (current_file_path file_obj)
                  ("Create new version " +:+ version_repr version lang +:+ " ("
                   +:+ str (version_id version) +:+ ") for "
                   +:+ addon_repr version lang
                   +:+ " from " +:+ file_repr file_obj lang)
                  author branch ;;
              AddonGitRepository.version_update_git_hash version commit ;;
              ret repo)
             (AddonGitRepository.activate (language w))) w
       (fun _ => same_hashes w) returned).
  apply ends_try_finally_activate.
  apply (ends_weaken _ _ (fun _ => same_hashes w) _ returned); [|auto|auto].
  apply (ends_bind same_hashes); [reflexivity | apply same_hashes_activate |].
  intros _ w1 H1 _.
  apply (ends_bind same_hashes); [exact H1 | |].
  { intros w'. rewrite init_addon. reflexivity. }
  intros self w2 H2 Hself. rewrite init_addon in Hself.
  injection Hself as <- <-.
  apply (ends_bind same_hashes); [exact H1 | |].
  { destruct (all_files version); intros w'; reflexivity. }
  intros f w2 H2' Hf.
  apply (ends_bind same_hashes); [exact H2' | |].
  { destruct (BRANCHES (channel version)); intros w'; reflexivity. }
  intros name w3 H3 Hname.
  assert (Hn : BRANCHES (channel version) = Some name).
  { destruct (BRANCHES (channel version)); [|discriminate].
    injection Hname as -> _. reflexivity. }
  apply (ends_bind same_hashes); [exact H3 | |].
  { apply (fp_find_or_create_branch same_hashes (fun _ => True));
      [left; reflexivity | exact I]. }
  intros [branch repo] w4 H4 Hfind.
  assert (Hwf0 : wf_self (AddonGitRepository.mk (addon_path (addon_id version)) None))
    by (left; reflexivity).
  destruct (find_or_create_branch_returns _ _ _ _ _ _ Hwf0 Hfind)
    as (Hrp & Hrc & Hbr & Hbn & _).
  simpl in Hrp, Hrc, Hbr.
  assert (Hwf : wf_self repo) by (right; rewrite Hrc, Hrp; reflexivity).
  apply (ends_bind same_hashes);
    [exact H4 | apply (fp_get same_hashes (fun _ => True)) |].
  intros lang w5 H5 [= <- <-].
  apply (ends_bind same_hashes); [exact H4 | |].
  { apply (fp_commit_through_worktree same_hashes (fun _ => True));
      [exact Hwf | exact I | exact I]. }
  intros [commit repo'] w6 H6 Hcommit.
  pose proof (commit_through_worktree_self _ _ _ _ _ _ _ _ _ Hwf Hcommit) as Hp'.
  apply commit_through_worktree_returns in Hcommit as [_ Hptr].
  rewrite Hbr, Hbn in Hptr.
  specialize (Hptr (BRANCHES_not_random _ _ Hn)).
  unfold ends, AddonGitRepository.version_update_git_hash, bind, io, modify, ret.
  destruct (faults w6 OpVersionUpdate); [exact H6|].
  destruct H6 as [Hg Hs]. split; [rewrite Hp', Hrp; reflexivity|].
  split; [exact Hs|].
  exists commit. simpl. split; [rewrite Hg; reflexivity|].
  intros n Hn'. rewrite Hn in Hn'. injection Hn' as <-. exact Hptr.
Qed.

(** X8.  [extract_and_commit_source_from_version] commits to the
    repository of the sources of the add-on, under a message whose reprs
    are taken in the language that is active (it does not switch to
    en-US), and writes the hash of the sources last: when it raises, no
    hash has changed; when it returns, the version has the commit its
    branch points at as the hash of its sources.  It never writes the
    hash of the package, and the language stays as it was. *)
Theorem source_upload_records_the_source_hash {ext : Externals}
    (version : Version) (author : option User) (w : World) :
  ends (AddonGitRepository.extract_and_commit_source_from_version version author) w
    (fun _ w' => git_hash w' = git_hash w /\
                 source_git_hash w' = source_git_hash w /\
                 language w' = language w)
    (fun repo w' =>
       AddonGitRepository.git_repository_path repo
         = addon_source_path (addon_id version) /\
       git_hash w' = git_hash w /\ language w' = language w /\
               exists tree t0,
                 let c := mkCommit tree (get_author author) ROBOT
                            (source_message_of version (language w)) [t0] in
                 source_git_hash w'
                   = <[version_id version := c]> (source_git_hash w) /\
                 forall n, BRANCHES (channel version) = Some n ->
                   branch_pointer w' (addon_source_path (addon_id version)) n
                     = Some c).
Proof.
  set (p := addon_source_path (addon_id version)).
  set (returned := fun (repo : AddonGitRepository.t) (w' : World) =>
         AddonGitRepository.git_repository_path repo = p /\
         git_hash w' = git_hash w /\ language w' = language w /\
         exists tree t0,
           let c := mkCommit tree (get_author author) ROBOT
                      (source_message_of version (language w)) [t0] in
           source_git_hash w' = <[version_id version := c]> (source_git_hash w) /\
           forall n, BRANCHES (channel version) = Some n ->
             branch_pointer w' p n = Some c).
  apply (ends_weaken _ _ (fun _ => same_records w) _ returned);
    [|intros e w' [[Hg Hs] Hl]; auto|auto].
  unfold AddonGitRepository.extract_and_commit_source_from_version.
  assert (H0 : same_records w w) by (repeat split).
  apply (ends_bind same_records); [exact H0 | |].
  { intros w'. rewrite init_source. repeat split. }
  intros self w1 H1 Hself. rewrite init_source in Hself.
  injection Hself as <- <-.
  apply (ends_bind same_records); [exact H0 | |].
  { destruct (BRANCHES (channel version)); intros w'; repeat split. }
  intros name w3 H3 Hname.
  assert (Hn : BRANCHES (channel version) = Some name).
  { destruct (BRANCHES (channel version)); [|discriminate].
    injection Hname as -> _. reflexivity. }
  apply (ends_bind same_records); [exact H3 | |].
  { apply (fp_find_or_create_branch same_records (fun _ => True));
      [left; reflexivity | exact I]. }
  intros [branch repo] w4 H4 Hfind.
  assert (Hwf0 : wf_self (AddonGitRepository.mk p None)) by (left; reflexivity).
  destruct (find_or_create_branch_returns _ _ _ _ _ _ Hwf0 Hfind)
    as (Hrp & Hrc & Hbr & Hbn & _).
  simpl in Hrp, Hrc, Hbr.
  assert (Hwf : wf_self repo) by (right; rewrite Hrc, Hrp; reflexivity).
  apply (ends_bind same_records);
    [exact H4 | apply (fp_get same_records (fun _ => True)) |].
  intros lang w5 H5 [= <- <-].
  apply (ends_bind same_records); [exact H4 | |].
  { apply (fp_commit_through_worktree same_records (fun _ => True));
      [exact Hwf | exact I | exact I]. }
  intros [commit repo'] w6 H6 Hcommit.
  pose proof (commit_through_worktree_self _ _ _ _ _ _ _ _ _ Hwf Hcommit) as Hp'.
  apply commit_through_worktree_returns in Hcommit as [(tree & Hc) Hptr].
  rewrite Hbr, Hbn in Hptr.
  specialize (Hptr (BRANCHES_not_random _ _ Hn)).
  unfold ends, AddonGitRepository.version_update_source_git_hash, bind, io,
    modify, ret.
  destruct (faults w6 OpVersionUpdate); [exact H6|].
  destruct H4 as [_ Hl4]. destruct H6 as [[Hg Hs] Hl].
  split; [rewrite Hp', Hrp; reflexivity|].
  split; [exact Hg|]. split; [exact Hl|].
  exists tree, (Git.target branch). simpl.
  rewrite Hl4 in Hc. fold (source_message_of version (language w)) in Hc.
  rewrite <- Hc. split; [rewrite Hs; reflexivity|].
  intros n Hn'. rewrite Hn in Hn'. injection Hn' as <-. exact Hptr.
Qed.

(* ===================================================================== *)
(** ** The life of a sandbox *)
(* ===================================================================== *)

Lemma startswith_app (a x : string) : Path.startswith a (a +:+ x) = true.
Proof.
  induction a as [|c a IH]; [destruct x; reflexivity|].
  simpl. rewrite Ascii.eqb_refl. exact IH.
Qed.

Lemma join_startswith (a b : string) :
  Path.startswith "/" b = false -> Path.startswith a (Path.join a b) = true.
Proof.
  intros Hb. unfold Path.join. rewrite Hb.
  destruct (_ || _); apply startswith_app.
Qed.

Lemma Fs_lookup_app (p : string) (fs fs' : Fs.t) :
  Fs.lookup p (fs ++ fs') =
  match Fs.lookup p fs with Some e => Some e | None => Fs.lookup p fs' end.
Proof.
  unfold Fs.lookup. induction fs as [|[q e] fs IH]; [reflexivity|].
  simpl. destruct (String.eqb q p); [reflexivity | exact IH].
Qed.

Lemma Fs_makedirs_isdir (p : string) (fs fs' : Fs.t) :
  Fs.makedirs p fs = inr fs' -> Fs.isdir p fs' = true.
Proof.
  unfold Fs.makedirs, Fs.exists_, Fs.isdir.
  destruct (Fs.lookup p fs) eqn:E; [discriminate|].
  intros [= <-]. rewrite Fs_lookup_app, E.
  unfold Fs.lookup. simpl. rewrite String.eqb_refl. reflexivity.
Qed.

Lemma fs_op_returns op f w x w' :
  fs_op op f w = (Return x, w') ->
  faults w op = false /\
  exists fs', f (tmpfs w) = inr fs' /\ w' = set_tmpfs (fun _ => fs') w.
Proof.
  unfold fs_op, bind, io, get, lift, modify.
  destruct (faults w op); [discriminate|].
  destruct (f (tmpfs w)) as [e|fs']; [discriminate|].
  intros [= <-]. eauto.
Qed.

Lemma mkdtemp_returns {ext : Externals} w p w' :
  mkdtemp w = (Return p, w') ->
  Path.startswith TMP_PATH p = true /\
  Fs.isdir p (tmpfs w') = true /\ disk w' = disk w.
Proof.
  unfold mkdtemp. intros H.
  inv_bind H as u w1 Hu. injection Hu as <- <-.
  inv_bind H as x w2 H2. apply ret_inv in H as [<- <-].
  apply fs_op_returns in H2 as (_ & fs' & Hfs & ->).
  split; [apply join_startswith; reflexivity|].
  split; [exact (Fs_makedirs_isdir _ _ _ Hfs) | reflexivity].
Qed.

Lemma worktree_init_sets_up {ext : Externals} h w s w' :
  TemporaryWorktree.__init__ h w = (Return s, w') ->
  Path.startswith TMP_PATH (TemporaryWorktree.temp_directory s) = true /\
  TemporaryWorktree.path s =
    Path.join (TemporaryWorktree.temp_directory s) (TemporaryWorktree.name s) /\
  TemporaryWorktree.extraction_target_path s =
    Path.join (TemporaryWorktree.path s) EXTRACTED_PREFIX /\
  Fs.isdir (TemporaryWorktree.temp_directory s) (tmpfs w') = true /\
  disk w' = disk w.
Proof.
  unfold TemporaryWorktree.__init__. intros H.
  inv_bind H as u w1 Hu. injection Hu as <- <-.
  inv_bind H as d w2 Hd. apply ret_inv in H as [<- <-]. simpl.
  apply mkdtemp_returns in Hd as (Hs & Hd & Hdisk).
  repeat split; assumption.
Qed.

Lemma add_worktree_raises h n p w e w' :
  Git.add_worktree h n p w = (Raise e, w') -> w' = w.
Proof. unfold Git.add_worktree. intros H. run_in H; reflexivity. Qed.

(** X9.  When the worktree cannot be added, [__enter__] raises and
    [__exit__] is not run: the call raises that error, and the temporary
    directory that was made for the sandbox stays behind; the
    repositories are as they were when the sandbox was made. *)
Theorem failed_enter_leaves_the_temporary_directory {ext : Externals}
    self path message author branch w repo self1 w0 wt0 w0' e w1 :
  AddonGitRepository.git_repository self w = (Return (repo, self1), w0) ->
  TemporaryWorktree.__init__ repo w0 = (Return wt0, w0') ->
  Git.add_worktree (TemporaryWorktree.git_repository wt0)
    (TemporaryWorktree.name wt0) (TemporaryWorktree.path wt0) w0'
    = (Raise e, w1) ->
  AddonGitRepository._commit_through_worktree self path message author branch w
    = (Raise e, w0') /\
  Fs.isdir (TemporaryWorktree.temp_directory wt0) (tmpfs w0') = true /\
  disk w0' = disk w0.
Proof.
  intros Hg Hi Ha.
  pose proof (add_worktree_raises _ _ _ _ _ _ Ha) as ->.
  destruct (worktree_init_sets_up _ _ _ _ Hi) as (_ & _ & _ & Hd & Hdisk).
  split; [|split; assumption].
  unfold AddonGitRepository._commit_through_worktree.
  rewrite (bind_return _ _ _ _ _ Hg). cbv beta iota.
  unfold with_. unfold bind at 1.
  rewrite (bind_return _ _ _ _ _ Hi).
  unfold TemporaryWorktree.__enter__. unfold bind at 1. unfold bind at 1.
  rewrite Ha. reflexivity.
Qed.

Lemma add_worktree_effect h n p w x w' :
  Git.add_worktree h n p w = (Return x, w') ->
  exists r c,
    repo_at w h = Some r /\ refs r !! head r = Some c /\
    refs r !! n = None /\ ~ n ∈ worktrees r /\
    disk w' = <[h := Some {| refs := <[n := c]> (refs r); head := head r;
                             worktrees := worktrees r ++ [n];
                             odb := odb r |}]> (disk w).
Proof.
  unfold Git.add_worktree, bind, Git.the_repo, io, get, Git.put_repo, modify,
    ret, raise.
  intros H.
  destruct (disk w !! h) as [[r|]|] eqn:Eh; try discriminate.
  destruct (faults w OpAddWorktree); [discriminate|].
  destruct (refs r !! head r) as [c|] eqn:Ec; [|discriminate].
  destruct (bool_decide (n ∈ worktrees r)
            || bool_decide (is_Some (refs r !! n))
            || Fs.exists_ p (tmpfs w)) eqn:Eb; [discriminate|].
  injection H as _ <-.
  apply orb_false_iff in Eb as [Eb _].
  apply orb_false_iff in Eb as [Hw Hr].
  apply bool_decide_eq_false in Hw. apply bool_decide_eq_false in Hr.
  exists r, c. split; [apply repo_at_lookup; exact Eh|].
  split; [exact Ec|]. split; [|split; [exact Hw | reflexivity]].
  destruct (refs r !! n) eqn:E; [|reflexivity].
  exfalso. apply Hr. eauto.
Qed.

Lemma worktree_enter_effect s w s' w' :
  TemporaryWorktree.__enter__ s w = (Return s', w') ->
  Fs.isdir (TemporaryWorktree.extraction_target_path s) (tmpfs w') = true /\
  exists r c,
    repo_at w (TemporaryWorktree.git_repository s) = Some r /\
    refs r !! head r = Some c /\
    refs r !! TemporaryWorktree.name s = None /\
    ~ TemporaryWorktree.name s ∈ worktrees r /\
    repo_at w' (TemporaryWorktree.git_repository s) =
      Some {| refs := <[TemporaryWorktree.name s := c]> (refs r);
              head := head r;
              worktrees := worktrees r ++ [TemporaryWorktree.name s];
              odb := odb r |}.
Proof.
  unfold TemporaryWorktree.__enter__. intros H.
  inv_bind H as obj w1 Hobj.
  apply add_worktree_effect in Hobj as (r & c & Hr & Hc & Hn & Hw & Hd).
  inv_bind H as repo w2 Hrepo. apply Repository_open_returns in Hrepo as [-> ->].
  inv_bind H as tree w3 Htree.
  assert (w3 = w1) as ->.
  { unfold Git.worktree_head_tree in Htree. run_in Htree; reflexivity. }
  inv_bind H as x4 w4 H4. inv_bind H as x5 w5 H5.
  apply ret_inv in H as [_ <-].
  assert (Hloop : same_disk w1 w4).
  { pose proof (fp_for same_disk (fun _ => False) tree
                  (fun entry =>
                     isfile <- get (fun w =>
                       Fs.isfile (Path.join (TemporaryWorktree.path s)
                                    (entry_name entry)) (tmpfs w)) ;;
                     if isfile
                     then fs_op OpRmtree
                            (Fs.unlink (Path.join (TemporaryWorktree.path s)
                                          (entry_name entry)))
                     else fs_op OpRmtree
                            (Fs.rmtree (Path.join (TemporaryWorktree.path s)
                                          (entry_name entry))))) as Hfor.
    assert (Hbody : forall x : TreeEntry, respects same_disk
              (isfile <- get (fun w =>
                 Fs.isfile (Path.join (TemporaryWorktree.path s)
                              (entry_name x)) (tmpfs w)) ;;
               if isfile
               then fs_op OpRmtree
                      (Fs.unlink (Path.join (TemporaryWorktree.path s)
                                    (entry_name x)))
               else fs_op OpRmtree
                      (Fs.rmtree (Path.join (TemporaryWorktree.path s)
                                    (entry_name x))))).
    { intros x. fp_program. }
    specialize (Hfor Hbody w1). rewrite H4 in Hfor. exact Hfor. }
  apply fs_op_returns in H5 as (_ & fs' & Hfs & ->).
  split; [exact (Fs_makedirs_isdir _ _ _ Hfs)|].
  exists r, c. repeat split; try assumption.
  apply repo_at_lookup. simpl. rewrite Hloop, Hd. apply lookup_insert_eq.
Qed.

(** X10.  Inside the [with] block the sandbox is set up: its temporary
    directory is below [TMP_PATH], its path is the temporary directory
    joined with its name, the directory to extract to exists, and the
    repository lists a worktree of its name, with a new branch of that
    name at the commit of [HEAD]; everything else in the repository is as
    before. *)
Theorem entered_sandbox_is_set_up {ext : Externals} repo w0 wt0 w0' wt w1 :
  TemporaryWorktree.__init__ repo w0 = (Return wt0, w0') ->
  TemporaryWorktree.__enter__ wt0 w0' = (Return wt, w1) ->
  Path.startswith TMP_PATH (TemporaryWorktree.temp_directory wt) = true /\
  TemporaryWorktree.path wt =
    Path.join (TemporaryWorktree.temp_directory wt) (TemporaryWorktree.name wt) /\
  TemporaryWorktree.extraction_target_path wt =
    Path.join (TemporaryWorktree.path wt) EXTRACTED_PREFIX /\
  Fs.isdir (TemporaryWorktree.extraction_target_path wt) (tmpfs w1) = true /\
  exists r c,
    repo_at w0 repo = Some r /\ refs r !! head r = Some c /\
    refs r !! TemporaryWorktree.name wt = None /\
    repo_at w1 repo =
      Some {| refs := <[TemporaryWorktree.name wt := c]> (refs r);
              head := head r;
              worktrees := worktrees r ++ [TemporaryWorktree.name wt];
              odb := odb r |}.
Proof.
  intros Hi He.
  destruct (worktree_init_sets_up _ _ _ _ Hi) as (Hs & Hp & Hx & _ & Hdisk).
  apply worktree_init_returns in Hi as (Hg & _).
  pose proof (worktree_enter_returns _ _ _ _ He) as ->. simpl.
  apply worktree_enter_effect in He as (Hdir & r & c & Hr & Hc & Hn & _ & Hr').
  rewrite Hg in Hr, Hr'. rewrite (repo_at_disk _ _ _ Hdisk) in Hr.
  repeat split; try assumption.
  exists r, c. repeat split; assumption.
Qed.

(** X11.  A call of [_commit_through_worktree] that returns has released
    the sandbox it made: nothing is left at or below its temporary
    directory, the repository lists no worktree of its name and has no
    branch of its name. *)
Theorem returned_commit_has_released_its_sandbox {ext : Externals}
    self path message author branch w c self' w' :
  AddonGitRepository._commit_through_worktree self path message author branch w
    = (Return (c, self'), w') ->
  exists repo w0 wt0 w0' wt w1,
    AddonGitRepository.git_repository self w = (Return (repo, self'), w0) /\
    TemporaryWorktree.__init__ repo w0 = (Return wt0, w0') /\
    TemporaryWorktree.__enter__ wt0 w0' = (Return wt, w1) /\
    released wt w'.
Proof.
  unfold AddonGitRepository._commit_through_worktree. intros H.
  inv_bind H as [repo self1] w0 Hg. inv_bind H as c' w2 H2.
  apply ret_inv in H as [[= <- <-] <-].
  apply with_inv_return in H2 as (wt0 & w0' & wt & w1 & w3 & Hi & He & Hb & Hx).
  exists repo, w0, wt0, w0', wt, w1.
  split; [exact Hg|]. split; [exact Hi|]. split; [exact He|].
  apply (worktree_exit_releases wt w3 w2); [|exact Hx].
  rewrite (worktree_enter_returns _ _ _ _ He). discriminate.
Qed.

(* ===================================================================== *)
(** ** Branches under uploads *)
(* ===================================================================== *)

(** X12.  No upload moves master: a repository whose [HEAD] is master
    keeps master where it points, whether the upload returns or raises;
    the commits of the versions go to the branches of the channels
    only. *)
Theorem uploads_leave_master {ext : Externals}
    (version : Version) (author : option User) (w : World)
    (rp : string) (c : Commit) :
  master_at c w rp ->
  master_at c
    (snd (AddonGitRepository.extract_and_commit_from_version version author w))
    rp /\
  master_at c
    (snd (AddonGitRepository.extract_and_commit_source_from_version
            version author w)) rp.
Proof.
  intros Hm.
  assert (Hb : forall n, BRANCHES (channel version) = Some n -> n <> "master")
    by (intros n [-> | ->]%BRANCHES_names; discriminate).
  assert (Hr : forall n, String.length n = 32 -> n <> "master")
    by (intros n Hlen ->; discriminate Hlen).
  split.
  - exact (respects_extract_and_commit_from_version keeps_master
             (fun _ => True) (fun n => n <> "master") version author
             (fun _ => I) (fun _ _ _ => I) Hb Hr w rp c Hm).
  - exact (respects_extract_and_commit_source_from_version keeps_master
             (fun _ => True) (fun n => n <> "master") version author
             (fun _ => I) (fun _ _ _ => I) Hb Hr w rp c Hm).
Qed.




(* ===================================================================== *)
(** ** Reading [git_repository] *)
(* ===================================================================== *)

Ltac ends_cases :=
  unfold ends;
  cbv beta iota delta [bind io modify get ret raise lift Git.the_repo
                       Git.put_repo];
  repeat (case_match; simpl in *; simplify_eq);
  unfold store_error; eauto 6.

Lemma ends_makedirs p w :
  disk w !! p = None ->
  ends (AddonGitRepository.makedirs p) w
    (fun e _ => store_error e)
    (fun _ w1 => w1 = set_disk (fun d => <[p := None]> d) w).
Proof. intros Hd. unfold AddonGitRepository.makedirs. ends_cases. Qed.

Lemma ends_init_repository p w :
  ends (Git.init_repository p) w
    (fun e _ => store_error e)
    (fun h w1 => h = p /\ exists r, disk w1 !! p = Some (Some r)).
Proof.
  unfold Git.init_repository. ends_cases.
  all: split; [reflexivity|]; eexists; apply lookup_insert_eq.
Qed.

Lemma ends_Repository_open p w :
  ends (Git.Repository_open p) w
    (fun e _ => store_error e)
    (fun h w1 => h = p /\ w1 = w /\ exists r, disk w !! p = Some (Some r)).
Proof. unfold Git.Repository_open. ends_cases. Qed.

Lemma ends_TreeBuilder_write h w :
  ends (Git.TreeBuilder_write h) w
    (fun e _ => store_error e) (fun _ w1 => w1 = w).
Proof. unfold Git.TreeBuilder_write. ends_cases. Qed.

Lemma ends_create_commit h ref a k m t ps w :
  ends (Git.create_commit h ref a k m t ps) w
    (fun e _ => store_error e)
    (fun _ w1 => exists r, disk w1 !! h = Some (Some r)).
Proof.
  unfold Git.create_commit. ends_cases.
  all: eexists; apply lookup_insert_eq.
Qed.

Lemma ends_git_repository_at_existing depth self w :
  AddonGitRepository.cached_git_repository self = None ->
  is_Some (disk w !! AddonGitRepository.git_repository_path self) ->
  ends (AddonGitRepository.git_repository_at (S depth) self) w
    (fun e _ => store_error e)
    (fun x w' =>
       fst x = AddonGitRepository.git_repository_path self /\
       snd x = AddonGitRepository.mk (AddonGitRepository.git_repository_path self)
                 (Some (AddonGitRepository.git_repository_path self)) /\
       w' = w).
Proof.
  intros Hc Hex. unfold ends.
  rewrite git_repository_at_existing by assumption.
  pose proof (ends_Repository_open
                (AddonGitRepository.git_repository_path self) w) as Ho.
  unfold ends in Ho. unfold bind, ret.
  destruct (Git.Repository_open _ w) as [[h|e] w1]; [|exact Ho].
  destruct Ho as (-> & -> & _). simpl. auto.
Qed.

Lemma ends_git_repository_at depth self w :
  AddonGitRepository.cached_git_repository self = None ->
  ends (AddonGitRepository.git_repository_at (S (S depth)) self) w
    (fun e _ => store_error e)
    (fun x w' =>
       fst x = AddonGitRepository.git_repository_path self /\
       snd x = AddonGitRepository.mk (AddonGitRepository.git_repository_path self)
                 (Some (AddonGitRepository.git_repository_path self)) /\
       exists r, disk w' !! AddonGitRepository.git_repository_path self
                 = Some (Some r)).
Proof.
  intros Hc. set (p := AddonGitRepository.git_repository_path self).
  destruct (disk w !! p) as [x|] eqn:Hd.
  - (* the path exists: the repository is opened *)
    assert (Hex : is_Some (disk w !! p)) by (rewrite Hd; eauto).
    pose proof (ends_git_repository_at_existing (S depth) self w Hc Hex) as He.
    pose proof (ends_Repository_open p w) as Ho.
    unfold ends in *. rewrite git_repository_at_existing in * by assumption.
    unfold bind, ret in *. fold p in He |- *.
    destruct (Git.Repository_open p w) as [[h|e] w1]; [|exact Ho].
    destruct Ho as (-> & -> & r & Hr). simpl. eauto.
  - (* the path does not exist: the repository is initialised, and the
       read of the property inside the body opens it *)
    rewrite git_repository_at_step, Hc. fold p.
    apply ends_then. unfold AddonGitRepository.is_extracted. fold p.
    unfold ends at 1. unfold get.
    rewrite bool_decide_eq_false_2 by (rewrite Hd; intros [? [=]]).
    change (negb false) with true. cbv iota.
    apply ends_then. apply ends_then.
    eapply ends_weaken; [apply ends_makedirs; exact Hd|auto|].
    intros _ w1 ->. apply ends_then.
    eapply ends_weaken; [apply ends_init_repository|auto|].
    intros g w2 (-> & r2 & Hr2). apply ends_then.
    eapply ends_weaken;
      [apply (ends_git_repository_at_existing depth self w2 Hc);
       fold p; rewrite Hr2; eauto|auto|].
    intros [inner self0] w3 (Hi & Hs & ->). simpl in Hi, Hs. subst inner self0.
    apply ends_then.
    eapply ends_weaken; [apply ends_TreeBuilder_write|auto|].
    intros tree w4 ->. apply ends_then.
    eapply ends_weaken; [apply ends_create_commit|auto|].
    intros c w5 Hr5. unfold ends, ret. simpl. auto.
Qed.

(** X14.  Reading [git_repository] raises nothing but an error of the
    file system or of the object store: the read of the property inside
    its own body finds the repository that was just initialised and opens
    it, so the recursion ends at the second level.  What is returned is
    kept on the instance; on an instance that had nothing kept it is the
    handle of the path of the instance, where a repository then exists. *)
Theorem reading_git_repository_ends (self : AddonGitRepository.t) (w : World) :
  ends (AddonGitRepository.git_repository self) w
    (fun e _ => store_error e /\
                AddonGitRepository.cached_git_repository self = None)
    (fun x w' =>
       AddonGitRepository.cached_git_repository (snd x) = Some (fst x) /\
       AddonGitRepository.git_repository_path (snd x)
         = AddonGitRepository.git_repository_path self /\
       (AddonGitRepository.cached_git_repository self = None ->
        fst x = AddonGitRepository.git_repository_path self /\
        exists r, disk w' !! AddonGitRepository.git_repository_path self
                  = Some (Some r))).
Proof.
  destruct (AddonGitRepository.cached_git_repository self) as [h|] eqn:Hc.
  - unfold ends, AddonGitRepository.git_repository.
    rewrite (git_repository_at_cached _ _ h w Hc). simpl.
    split; [exact Hc|]. split; [reflexivity | discriminate].
  - unfold AddonGitRepository.git_repository. rewrite recursion_limit_deep.
    eapply ends_weaken; [apply (ends_git_repository_at 998 self w Hc)|auto|].
    intros [h self'] w' (Hh & Hs & Hr). simpl in Hh, Hs. subst h self'.
    simpl. auto.
Qed.

(* ===================================================================== *)
(** ** Renaming, and leaving a sandbox that was not entered *)
(* ===================================================================== *)

Lemma hex_digit_is_hex (d : N) : Uuid.is_hex (Uuid.hex_digit d) = true.
Proof.
  destruct d as [|p]; [reflexivity|].
  do 5 (try (destruct p as [p|p|]; try reflexivity)).
Qed.

Lemma format_hex_all_hex (width : nat) (n : N) (acc : string) :
  all_hex acc = true -> all_hex (Uuid.format_hex width n acc) = true.
Proof.
  revert n acc. induction width as [|width IH]; intros n acc Hacc; simpl;
    [exact Hacc|].
  apply IH. simpl. rewrite hex_digit_is_hex. exact Hacc.
Qed.

Lemma take_all_hex (k : nat) (s : string) :
  all_hex s = true -> all_hex (Uuid.take k s) = true.
Proof.
  revert s. induction k as [|k IH]; intros [|c s]; simpl; try reflexivity.
  intros [Hc Hs]%andb_true_iff. rewrite Hc. exact (IH s Hs).
Qed.

Lemma take_length (k : nat) (s : string) :
  k <= String.length s -> String.length (Uuid.take k s) = k.
Proof.
  revert s. induction k as [|k IH]; intros [|c s]; simpl; try reflexivity;
    try lia.
  intros H. rewrite IH by lia. reflexivity.
Qed.

Lemma rename_dot_git_cons p f rest :
  AddonGitRepository.rename_dot_git p (f :: rest) =
  ((if String.eqb (Path.basename f) ".git" then
      u <- uuid4 ;;
      fs_op OpMove (Fs.move (Path.join p f)
                      (Path.join p (f +:+ "." +:+ Uuid.take 8 (Uuid.hex u))))
    else ret tt) ;;
   AddonGitRepository.rename_dot_git p rest).
Proof. reflexivity. Qed.

(** X15.  The loop over the enumerated paths moves the paths whose last
    segment is [.git] and no other: where none has that name nothing is
    moved and no random number is drawn; a path of that name is moved to
    its own name followed by a dot and the first eight digits of a new
    uuid, lower-case hexadecimal, before the loop goes on. *)
Theorem rename_dot_git_moves_dot_git_only (p : string) (files : list string)
    (w : World) :
  (Forall (fun f => Path.basename f <> ".git") files ->
   AddonGitRepository.rename_dot_git p files w = (Return tt, w)) /\
  (forall f rest, files = f :: rest -> Path.basename f = ".git" ->
   exists suffix,
     String.length suffix = 8 /\ all_hex suffix = true /\
     suffix = Uuid.take 8 (Uuid.hex (Uuid.uuid4_int (entropy w (draws w)))) /\
     AddonGitRepository.rename_dot_git p files w =
     (fs_op OpMove (Fs.move (Path.join p f)
                      (Path.join p (f +:+ "." +:+ suffix))) ;;
      AddonGitRepository.rename_dot_git p rest)
       (set_draws (S (draws w)) w)).
Proof.
  split.
  - induction 1 as [|f rest Hf _ IH]; [reflexivity|].
    rewrite rename_dot_git_cons.
    apply String.eqb_neq in Hf. rewrite Hf. exact IH.
  - intros f rest -> Hf.
    exists (Uuid.take 8 (Uuid.hex (Uuid.uuid4_int (entropy w (draws w))))).
    split; [apply take_length; rewrite hex_length; lia|].
    split; [apply take_all_hex, format_hex_all_hex; reflexivity|].
    split; [reflexivity|].
    rewrite rename_dot_git_cons.
    apply String.eqb_eq in Hf. rewrite Hf. reflexivity.
Qed.

(** X16.  Leaving a sandbox that was never entered: the temporary
    directory is removed, pruning is skipped, and as the repository has no
    branch of the name of the sandbox the call raises [AttributeError],
    the repositories untouched. *)
Theorem exit_without_enter_raises {ext : Externals} repo w0 wt0 w0' r :
  TemporaryWorktree.__init__ repo w0 = (Return wt0, w0') ->
  faults w0' OpRmtree = false ->
  repo_at w0' repo = Some r ->
  refs r !! TemporaryWorktree.name wt0 = None ->
  TemporaryWorktree.__exit__ wt0 w0' =
  (Raise (AttributeError "'NoneType' object has no attribute 'delete'"),
   set_tmpfs (fun _ => Fs.remove (TemporaryWorktree.temp_directory wt0)
                         (tmpfs w0')) w0').
Proof.
  intros Hi Hf Hr Hn.
  destruct (worktree_init_sets_up _ _ _ _ Hi) as (_ & _ & _ & Hd & _).
  apply worktree_init_returns in Hi as (Hg & Ho & _).
  set (w1 := set_tmpfs (fun _ => Fs.remove (TemporaryWorktree.temp_directory wt0)
                                   (tmpfs w0')) w0').
  assert (H1 : fs_op OpRmtree (Fs.rmtree (TemporaryWorktree.temp_directory wt0)) w0'
               = (Return tt, w1)).
  { unfold fs_op, bind, io, get, lift, modify, Fs.rmtree.
    rewrite Hf, Hd. reflexivity. }
  assert (H2 : Git.lookup_branch repo (TemporaryWorktree.name wt0) w1
               = (Return None, w1)).
  { unfold Git.lookup_branch, Git.branches_get, Git.the_repo, bind, ret.
    unfold repo_at in Hr. change (disk w1) with (disk w0').
    destruct (disk w0' !! repo) as [[r'|]|]; try discriminate.
    injection Hr as ->. rewrite Hn. reflexivity. }
  unfold TemporaryWorktree.__exit__. rewrite Ho, Hg.
  rewrite (bind_return _ _ _ _ _ H1). rewrite bind_ret_l.
  rewrite (bind_return _ _ _ _ _ H2). reflexivity.
Qed.

(** X17.  An initialisation that fails after the directory was made is
    not repaired: the read raises, the directory stays without a
    repository, and from then on every read of the property on an
    instance for that path finds the path, tries to open it and raises,
    leaving things as they are. *)
Theorem failed_initialisation_is_not_repaired
    (self : AddonGitRepository.t) (w : World) :
  AddonGitRepository.cached_git_repository self = None ->
  disk w !! AddonGitRepository.git_repository_path self = None ->
  faults w OpMakedirs = false -> faults w OpInitRepository = true ->
  exists w1,
    AddonGitRepository.git_repository self w
      = (Raise (GitError "init_repository"), w1) /\
    disk w1 !! AddonGitRepository.git_repository_path self = Some None /\
    forall w2,
      disk w2 !! AddonGitRepository.git_repository_path self = Some None ->
      exists s,
        AddonGitRepository.git_repository self w2 = (Raise (GitError s), w2).
Proof.
  intros Hc Hd Fm Fi.
  set (p := AddonGitRepository.git_repository_path self) in *.
  exists (set_disk (fun d => <[p := None]> d) w).
  split; [|split].
  - unfold AddonGitRepository.git_repository. rewrite recursion_limit_deep.
    rewrite git_repository_at_step, Hc.
    unfold AddonGitRepository.is_extracted. fold p.
    unfold bind at 1. unfold get.
    rewrite bool_decide_eq_false_2 by (rewrite Hd; intros [? [=]]).
    change (negb false) with true. cbv iota.
    unfold bind at 1. unfold bind at 1.
    rewrite (makedirs_run p w Fm Hd).
    unfold bind at 1. unfold Git.init_repository, bind, io.
    change (faults (set_disk (fun d => <[p := None]> d) w) OpInitRepository)
      with (faults w OpInitRepository).
    rewrite Fi. reflexivity.
  - simpl. apply lookup_insert_eq.
  - intros w2 H2.
    unfold AddonGitRepository.git_repository. rewrite recursion_limit_deep.
    rewrite git_repository_at_existing by (try assumption; fold p; rewrite H2; eauto).
    fold p. unfold bind, Git.Repository_open, bind, io, Git.the_repo.
    destruct (faults w2 OpOpenRepository); [eexists; reflexivity|].
    rewrite H2. eexists. reflexivity.
Qed.

Lemma ends_unchanged {A} (m : Py A) w
    (raised : Exn -> World -> Prop) (returned : A -> World -> Prop) :
  ends m w raised returned -> snd (m w) = w ->
  ends m w (fun e w' => raised e w' /\ w' = w) returned.
Proof. unfold ends. destruct (m w) as [[a|e] w']; simpl; auto. Qed.

(** X18.  In a repository without a commit at [HEAD] (the root commit
    could not be written when the repository was initialised), no branch
    can be created: [find_or_create_branch] raises for every name that is
    not a branch yet, and changes nothing. *)
Theorem no_branch_without_a_root_commit
    (self : AddonGitRepository.t) (name : string) (w : World) (r : Repository) :
  AddonGitRepository.cached_git_repository self = None ->
  repo_at w (AddonGitRepository.git_repository_path self) = Some r ->
  refs r !! head r = None -> refs r !! name = None ->
  ends (AddonGitRepository.find_or_create_branch self name) w
    (fun e w' => store_error e /\ w' = w) (fun _ _ => False).
Proof.
  intros Hc Hr Hh Hn.
  set (p := AddonGitRepository.git_repository_path self) in *.
  assert (Hd : disk w !! p = Some (Some r)).
  { unfold repo_at in Hr. destruct (disk w !! p) as [[r'|]|]; congruence. }
  assert (Hex : is_Some (disk w !! p)) by (rewrite Hd; eauto).
  unfold AddonGitRepository.find_or_create_branch.
  apply ends_then. unfold AddonGitRepository.git_repository.
  rewrite recursion_limit_deep.
  eapply ends_weaken;
    [apply ends_unchanged;
     [apply (ends_git_repository_at_existing _ self w Hc Hex)
     |apply git_repository_at_existing_unchanged; exact Hex]
    |auto|].
  intros [h self1] w1 (Hh1 & Hs1 & ->). simpl in Hh1, Hs1. subst h self1.
  fold p. apply ends_then.
  unfold ends at 1, Git.branches_get, Git.the_repo, bind, ret.
  rewrite Hd, Hn. simpl.
  apply ends_then. unfold ends at 1.
  unfold Git.head_peel, Git.the_repo, bind, raise.
  rewrite Hd, Hh. split; [right; eauto | reflexivity].
Qed.

(* ===================================================================== *)
(** ** What a commit through a sandbox changes *)
(* ===================================================================== *)

Lemma repo_at_inv w h r : repo_at w h = Some r -> disk w !! h = Some (Some r).
Proof. unfold repo_at. destruct (disk w !! h) as [[r'|]|]; congruence. Qed.

Lemma create_commit_effect h a k m t ps w c w' r :
  repo_at w h = Some r ->
  Git.create_commit h None a k m t ps w = (Return c, w') ->
  c = mkCommit t a k m ps /\
  disk w' = <[h := Some {| refs := refs r; head := head r;
                           worktrees := worktrees r;
                           odb := odb r ++ [c] |}]> (disk w).
Proof.
  intros Hr%repo_at_inv.
  unfold Git.create_commit, bind, Git.the_repo, io, Git.put_repo, modify, ret.
  rewrite Hr. destruct (faults w OpCreateCommit); [discriminate|].
  intros H. inversion H. split; reflexivity.
Qed.

Lemma set_target_effect b c w x w' r :
  repo_at w (Git.branch_repo b) = Some r ->
  Git.set_target b c w = (Return x, w') ->
  disk w' = <[Git.branch_repo b :=
                Some {| refs := <[Git.branch_name b := c]> (refs r);
                        head := head r; worktrees := worktrees r;
                        odb := odb r |}]> (disk w).
Proof.
  intros Hr%repo_at_inv.
  unfold Git.set_target, bind, Git.the_repo, io, Git.put_repo, modify, raise.
  rewrite Hr. destruct (faults w OpSetTarget); [discriminate|].
  destruct (refs r !! Git.branch_name b); [|discriminate].
  intros H. inversion H. reflexivity.
Qed.

Lemma commit_in_worktree_effect {ext : Externals}
    path message author branch worktree w c w' r :
  TemporaryWorktree.repo worktree = Some (Git.branch_repo branch) ->
  repo_at w (Git.branch_repo branch) = Some r ->
  AddonGitRepository.commit_in_worktree path message author branch worktree w
    = (Return c, w') ->
  repo_at w' (Git.branch_repo branch) =
    Some {| refs := <[Git.branch_name branch := c]> (refs r);
            head := head r; worktrees := worktrees r;
            odb := odb r ++ [c] |}.
Proof.
  intros Hw Hr H. unfold AddonGitRepository.commit_in_worktree in H.
  rewrite Hw in H.
  assert (Hsame : forall {A} (m : Py A) w1 a w2,
            respects same_disk m -> m w1 = (Return a, w2) -> disk w2 = disk w1).
  { intros A m w1 a w2 Hm E. specialize (Hm w1). rewrite E in Hm. exact Hm. }
  inv_bind H as fs w1 H1. apply Hsame in H1; [|fp_program].
  inv_bind H as fs' w2 H2. apply Hsame in H2; [|fp_program].
  inv_bind H as x3 w3 H3. apply Hsame in H3; [|fp_program].
  inv_bind H as x4 w4 H4.
  apply Hsame in H4; [|unfold Index.read; fp_program].
  inv_bind H as x5 w5 H5.
  apply Hsame in H5;
    [|apply (fp_rename_dot_git same_disk (fun _ => False))].
  inv_bind H as staged w6 H6.
  apply Hsame in H6; [|unfold Index.add_all; fp_program].
  inv_bind H as x7 w7 H7.
  apply Hsame in H7; [|unfold Index.write; fp_program].
  inv_bind H as tree w8 H8.
  apply Hsame in H8; [|unfold Index.write_tree; fp_program].
  inv_bind H as c' w9 H9. inv_bind H as x10 w10 H10.
  apply ret_inv in H as [<- <-].
  assert (Hd8 : disk w8 = disk w) by congruence.
  assert (Hr8 : repo_at w8 (Git.branch_repo branch) = Some r)
    by (rewrite (repo_at_disk _ _ _ Hd8); exact Hr).
  destruct (create_commit_effect _ _ _ _ _ _ _ _ _ _ Hr8 H9) as [Hc Hd9].
  assert (Hr9 : repo_at w9 (Git.branch_repo branch) =
                Some {| refs := refs r; head := head r;
                        worktrees := worktrees r; odb := odb r ++ [c'] |}).
  { apply repo_at_lookup. rewrite Hd9. apply lookup_insert_eq. }
  pose proof (set_target_effect _ _ _ _ _ _ Hr9 H10) as Hd10.
  apply repo_at_lookup. rewrite Hd10. simpl. apply lookup_insert_eq.
Qed.

Lemma worktree_exit_effect (wt : TemporaryWorktree.t) w w' r :
  TemporaryWorktree.obj wt <> None ->
  repo_at w (TemporaryWorktree.git_repository wt) = Some r ->
  TemporaryWorktree.__exit__ wt w = (Return tt, w') ->
  repo_at w' (TemporaryWorktree.git_repository wt) =
    Some {| refs := delete (TemporaryWorktree.name wt) (refs r);
            head := head r;
            worktrees := filter (fun n => n <> TemporaryWorktree.name wt)
                           (worktrees r);
            odb := odb r |}.
Proof.
  intros Hobj Hr H. unfold TemporaryWorktree.__exit__ in H.
  inv_bind H as x1 w1 H1.
  apply fs_op_returns in H1 as (_ & fs' & _ & ->).
  destruct (TemporaryWorktree.obj wt) as [o|]; [|congruence].
  inv_bind H as x2 w2 H2. inv_bind H as found w3 H3.
  apply repo_at_inv in Hr.
  unfold Git.prune, bind, Git.the_repo, io, Git.put_repo, modify in H2.
  change (disk (set_tmpfs (fun _ => fs') w)) with (disk w) in H2.
  rewrite Hr in H2.
  destruct (faults _ OpPrune); [discriminate|]. injection H2 as H2. subst w2.
  apply branches_get_returns in H3 as (-> & r1 & Hr1 & ->).
  rewrite repo_at_insert, decide_True in Hr1 by reflexivity.
  injection Hr1 as <-. simpl in H.
  destruct (refs r !! TemporaryWorktree.name wt) as [t|]; simpl in H;
    [|discriminate].
  unfold Git.branch_delete, bind, Git.the_repo, io, Git.put_repo, modify,
    raise in H.
  simpl in H. rewrite lookup_insert_eq in H.
  destruct (faults _ OpDeleteBranch); [discriminate|].
  simpl in H.
  destruct (_ || _); [discriminate|]. injection H as H. subst w'.
  apply repo_at_lookup. simpl. rewrite lookup_insert_eq. reflexivity.
Qed.

Lemma filter_out_new (name : string) (l : list string) :
  ~ name ∈ l -> filter (fun n => n <> name) (l ++ [name]) = l.
Proof.
  intros Hn. rewrite filter_app.
  rewrite (filter_cons_False (fun n => n <> name) name [])
    by (intros H; apply H; reflexivity).
  rewrite filter_nil, app_nil_r.
  induction l as [|x l IH]; [reflexivity|].
  rewrite filter_cons_True.
  - f_equal. apply IH. intros H. apply Hn. right. exact H.
  - intros ->. apply Hn. left.
Qed.

(** What a call of [_commit_through_worktree] that returns has changed in
    a repository that was there. *)
Lemma commit_through_worktree_effect {ext : Externals}
    self path message author branch w c self' w' r :
  wf_self self ->
  Git.branch_repo branch = AddonGitRepository.git_repository_path self ->
  String.length (Git.branch_name branch) <> 32 ->
  repo_at w (AddonGitRepository.git_repository_path self) = Some r ->
  AddonGitRepository._commit_through_worktree self path message author branch w
    = (Return (c, self'), w') ->
  repo_at w' (AddonGitRepository.git_repository_path self) =
    Some {| refs := <[Git.branch_name branch := c]> (refs r);
            head := head r; worktrees := worktrees r;
            odb := odb r ++ [c] |}.
Proof.
  intros Hwf Hbr Hlen Hr H.
  set (p := AddonGitRepository.git_repository_path self) in *.
  unfold AddonGitRepository._commit_through_worktree in H.
  inv_bind H as [repo self1] w0 Hg. inv_bind H as c' w5 H5.
  apply ret_inv in H as [[= <- <-] <-].
  apply with_inv_return in H5 as (wt0 & w0' & wt & w1 & w2 & Hi & He & Hb & Hx).
  (* the repository is there: reading the property changes nothing *)
  assert (Hex : is_Some (disk w !! p)) by (rewrite (repo_at_inv _ _ _ Hr); eauto).
  pose proof (git_repository_at_existing_unchanged recursion_limit self w Hex) as Hw0.
  change (AddonGitRepository.git_repository_at recursion_limit self w)
    with (AddonGitRepository.git_repository self w) in Hw0.
  rewrite Hg in Hw0. simpl in Hw0. subst w0.
  destruct (git_repository_returns _ _ _ _ _ Hwf Hg) as (-> & _).
  fold p in Hi.
  (* the sandbox *)
  destruct (worktree_init_sets_up _ _ _ _ Hi) as (_ & _ & _ & _ & Hd0).
  pose proof (worktree_init_returns _ _ _ _ Hi) as (Hg0 & _ & u & Hu).
  pose proof (worktree_enter_returns _ _ _ _ He) as Hwt.
  apply worktree_enter_effect in He as (_ & r0 & c0 & Hr0 & Hc0 & Hn0 & Hw0 & Hr1).
  rewrite Hg0 in Hr0, Hr1. rewrite (repo_at_disk _ _ _ Hd0), Hr in Hr0.
  injection Hr0 as <-.
  assert (Hne : TemporaryWorktree.name wt0 <> Git.branch_name branch).
  { rewrite Hu. apply ne_length. rewrite hex_length. congruence. }
  (* the body *)
  rewrite <- Hbr in Hr1.
  assert (Hwrepo : TemporaryWorktree.repo wt = Some (Git.branch_repo branch))
    by (rewrite Hwt; simpl; rewrite Hg0, Hbr; reflexivity).
  pose proof (commit_in_worktree_effect _ _ _ _ _ _ _ _ _ Hwrepo Hr1 Hb) as Hr2.
  simpl in Hr2.
  (* the release *)
  assert (Hgwt : TemporaryWorktree.git_repository wt = Git.branch_repo branch)
    by (rewrite Hwt; simpl; rewrite Hg0, Hbr; reflexivity).
  rewrite <- Hgwt in Hr2.
  assert (Hobj : TemporaryWorktree.obj wt <> None) by (rewrite Hwt; discriminate).
  pose proof (worktree_exit_effect wt w2 w5 _ Hobj Hr2 Hx) as Hr5.
  rewrite Hgwt, Hbr in Hr5. rewrite Hr5. simpl.
  assert (Hnm : TemporaryWorktree.name wt = TemporaryWorktree.name wt0)
    by (rewrite Hwt; reflexivity).
  rewrite Hnm.
  f_equal. f_equal.
  - rewrite delete_insert_ne by exact Hne.
    rewrite delete_insert_id by exact Hn0. reflexivity.
  - apply filter_out_new. exact Hw0.
Qed.

(** X19.  What a call of [_commit_through_worktree] that returns has
    changed in a repository that was there: the branch of the handle
    points at the commit, the commit is the one object more, and nothing
    else is different; no other branch was created, moved or deleted, the
    worktrees are those there were, [HEAD] names the branch it named. *)
Theorem returned_commit_is_the_only_change {ext : Externals}
    self path message author branch w c self' w' r :
  wf_self self ->
  Git.branch_repo branch = AddonGitRepository.git_repository_path self ->
  String.length (Git.branch_name branch) <> 32 ->
  repo_at w (AddonGitRepository.git_repository_path self) = Some r ->
  AddonGitRepository._commit_through_worktree self path message author branch w
    = (Return (c, self'), w') ->
  repo_at w' (AddonGitRepository.git_repository_path self) =
    Some {| refs := <[Git.branch_name branch := c]> (refs r);
            head := head r; worktrees := worktrees r;
            odb := odb r ++ [c] |}.
Proof.
  intros Hwf Hbr Hlen Hr H.
  exact (commit_through_worktree_effect _ _ _ _ _ _ _ _ _ _ Hwf Hbr Hlen Hr H).
Qed.

Lemma find_or_create_branch_effect self name w b self' w' r :
  wf_self self ->
  repo_at w (AddonGitRepository.git_repository_path self) = Some r ->
  AddonGitRepository.find_or_create_branch self name w = (Return (b, self'), w') ->
  (refs r !! name = Some (Git.target b) /\ w' = w) \/
  (refs r !! name = None /\ refs r !! head r = Some (Git.target b) /\
   repo_at w' (AddonGitRepository.git_repository_path self) =
     Some {| refs := <[name := Git.target b]> (refs r); head := head r;
             worktrees := worktrees r; odb := odb r |}).
Proof.
  intros Hwf Hr H. unfold AddonGitRepository.find_or_create_branch in H.
  set (rp := AddonGitRepository.git_repository_path self) in *.
  inv_bind H as [repo self1] w1 H1.
  pose proof (git_repository_returns _ _ _ _ _ Hwf H1)
    as (-> & Hp1 & Hc1 & Hw1 & _).
  fold rp in Hp1, Hc1, Hw1.
  assert (w1 = w) as ->.
  { destruct Hw1 as [->|[Hd _]]; [reflexivity|].
    apply repo_at_inv in Hr. congruence. }
  inv_bind H as found w2 H2.
  apply branches_get_returns in H2 as (-> & r' & Hr' & ->).
  fold rp in Hr'. rewrite Hr in Hr'. injection Hr' as <-.
  destruct (refs r !! name) as [t|] eqn:Ht; simpl in H.
  - apply ret_inv in H as [[= <- <-] <-]. left. auto.
  - assert (Hc1' : AddonGitRepository.cached_git_repository self1 =
                   Some (AddonGitRepository.git_repository_path self1))
      by (rewrite Hp1; exact Hc1).
    rewrite (bind_return _ _ _ _ _ (git_repository_cached self1 w Hc1')) in H.
    rewrite (bind_return _ _ _ _ _ (git_repository_cached self1 w Hc1')) in H.
    rewrite Hp1 in H.
    inv_bind H as c w3 H3. apply head_peel_returns in H3 as [-> Hhead].
    inv_bind H as b' w4 H4.
    apply create_branch_effect in H4 as (-> & r' & Hr' & Hn & ->).
    apply ret_inv in H as [[= <- <-] <-]. simpl.
    fold rp in Hhead, Hr'. rewrite Hr in Hr'. injection Hr' as <-.
    right. split; [reflexivity|].
    split; [unfold head_commit in Hhead; rewrite Hr in Hhead; exact Hhead|].
    rewrite repo_at_insert, decide_True by reflexivity. reflexivity.
Qed.

(** An upload that returns: the branch it found or created, and what the
    commit through the sandbox then changed. *)
Lemma upload_returns_branch {ext : Externals}
    (version : Version) (author : option User) (w : World) self' w' (n : string) :
  BRANCHES (channel version) = Some n ->
  AddonGitRepository.extract_and_commit_from_version version author w
    = (Return self', w') ->
  exists branch repo1 w2 tree,
    AddonGitRepository.find_or_create_branch
      (AddonGitRepository.mk (addon_path (addon_id version)) None) n
      (set_language "en-US" w) = (Return (branch, repo1), w2) /\
    forall r2,
      repo_at w2 (addon_path (addon_id version)) = Some r2 ->
      let c := mkCommit tree (get_author author) ROBOT (message_of version)
                 [Git.target branch] in
      repo_at w' (addon_path (addon_id version)) =
        Some {| refs := <[n := c]> (refs r2); head := head r2;
                worktrees := worktrees r2; odb := odb r2 ++ [c] |}.
Proof.
  intros Hn H.
  unfold AddonGitRepository.extract_and_commit_from_version in H.
  set (rp := addon_path (addon_id version)) in *.
  inv_bind H as lang0 w0 H0. apply ret_inv in H0 as [<- <-].
  apply try_finally_inv in H as (o & w5 & Hb & [[Hf <-]|(e & Hf & [=])]).
  injection Hf as <-.
  inv_bind Hb as x1 w1 H1.
  assert (w1 = set_language "en-US" w) as -> by (injection H1; auto).
  clear H1 x1.
  rewrite (bind_return _ _ _ _ _ (init_addon _ _)) in Hb. fold rp in Hb.
  destruct (all_files version) as [|file_obj files] eqn:Hfiles; [discriminate|].
  rewrite bind_ret_l in Hb.
  rewrite Hn in Hb. rewrite bind_ret_l in Hb.
  inv_bind Hb as [branch repo1] w2 H2.
  assert (Hwf0 : wf_self {| AddonGitRepository.git_repository_path := rp;
                            AddonGitRepository.cached_git_repository := None |})
    by (left; reflexivity).
  pose proof (find_or_create_branch_returns _ _ _ _ _ _ Hwf0 H2)
    as (Hp & Hc & Hrepo & Hname & _ & _ & Hlang).
  simpl in Hp, Hc, Hrepo. fold rp in Hp, Hc, Hrepo.
  inv_bind Hb as lang w3 H3. apply ret_inv in H3 as [<- <-].
  simpl in Hlang. rewrite Hlang in Hb.
  assert (Hmsg : "Create new version " +:+ version_repr version "en-US" +:+ " ("
                 +:+ str (version_id version) +:+ ") for "
                 +:+ addon_repr version "en-US" +:+
                 " from " +:+ file_repr file_obj "en-US" = message_of version)
    by (unfold message_of; rewrite Hfiles; reflexivity).
  rewrite Hmsg in Hb. clear Hmsg.
  inv_bind Hb as [commit repo2] w4 H4.
  inv_bind Hb as x6 w6 H6. apply ret_inv in Hb as [_ <-].
  assert (Hwf1 : wf_self repo1) by (right; rewrite Hc, Hp; reflexivity).
  assert (Hn32 : String.length (Git.branch_name branch) <> 32)
    by (rewrite Hname; exact (BRANCHES_not_random _ _ Hn)).
  assert (Hbr : Git.branch_repo branch =
                AddonGitRepository.git_repository_path repo1)
    by (rewrite Hrepo, Hp; reflexivity).
  pose proof (commit_through_worktree_returns _ _ _ _ _ _ _ _ _ H4)
    as [(tree & Hcommit) _].
  assert (Hw6 : repo_at w6 rp = repo_at w4 rp).
  { unfold AddonGitRepository.version_update_git_hash in H6.
    inv_bind H6 as x7 w7 H7.
    assert (w7 = w4) as -> by (unfold io in H7; destruct (faults w4 _); congruence).
    injection H6 as H6. subst w6. apply repo_at_disk. reflexivity. }
  exists branch, repo1, w2, tree. split; [exact H2|].
  intros r2 Hr2. cbv zeta. rewrite <- Hcommit.
  rewrite (repo_at_disk w6 (set_language (language w) w6) rp eq_refl), Hw6.
  rewrite <- Hp in Hr2. rewrite <- Hp.
  rewrite (commit_through_worktree_effect _ _ _ _ _ _ _ _ _ _
             Hwf1 Hbr Hn32 Hr2 H4).
  rewrite Hname. reflexivity.
Qed.

(** X20.  What an upload that returns has changed in a repository that
    was there: the branch of the channel points at the new commit, the
    commit is the one object more, and nothing else in the repository is
    different.  The commit carries the message of the version, the
    uploader as its author, and as its only parent the commit the branch
    pointed at, or the commit of [HEAD] when the branch was not there. *)
Theorem upload_changes_one_branch {ext : Externals}
    (version : Version) (author : option User) (w : World) self' w'
    (r : Repository) (n : string) :
  repo_at w (addon_path (addon_id version)) = Some r ->
  BRANCHES (channel version) = Some n ->
  AddonGitRepository.extract_and_commit_from_version version author w
    = (Return self', w') ->
  exists tree t0,
    let c := mkCommit tree (get_author author) ROBOT (message_of version) [t0] in
    repo_at w' (addon_path (addon_id version)) =
      Some {| refs := <[n := c]> (refs r); head := head r;
              worktrees := worktrees r; odb := odb r ++ [c] |} /\
    (refs r !! n = Some t0 \/
     refs r !! n = None /\ refs r !! head r = Some t0).
Proof.
  intros Hr Hn H.
  set (rp := addon_path (addon_id version)) in *.
  destruct (upload_returns_branch _ _ _ _ _ _ Hn H)
    as (branch & repo1 & w2 & tree & H2 & Hafter).
  fold rp in H2, Hafter.
  assert (Hwf0 : wf_self (AddonGitRepository.mk rp None)) by (left; reflexivity).
  assert (Hr1 : repo_at (set_language "en-US" w) rp = Some r)
    by (rewrite (repo_at_disk w (set_language "en-US" w) rp eq_refl); exact Hr).
  pose proof (find_or_create_branch_effect _ _ _ _ _ _ _ Hwf0 Hr1 H2) as Hcases.
  simpl in Hcases. fold rp in Hcases.
  exists tree, (Git.target branch). cbv zeta.
  destruct Hcases as [[Hsome ->]|(Hnone & Hhead & Hr2)].
  - rewrite (Hafter r Hr1). split; [reflexivity | left; exact Hsome].
  - rewrite (Hafter _ Hr2). simpl. rewrite insert_insert_eq.
    split; [reflexivity | right; split; assumption].
Qed.

Lemma find_or_create_branch_after_read self name w h self1 w1 :
  AddonGitRepository.git_repository self w = (Return (h, self1), w1) ->
  AddonGitRepository.cached_git_repository self1 = Some h ->
  AddonGitRepository.find_or_create_branch self name w =
  AddonGitRepository.find_or_create_branch self1 name w1.
Proof.
  intros Hg Hc. unfold AddonGitRepository.find_or_create_branch.
  rewrite (bind_return _ _ _ _ _ Hg).
  assert (Hg1 : AddonGitRepository.git_repository self1 w1
                = (Return (h, self1), w1))
    by (apply git_repository_at_cached; exact Hc).
  rewrite (bind_return _ _ _ _ _ Hg1). reflexivity.
Qed.

(** X21.  The first upload for an add-on that returns leaves a
    repository with two branches and two commits: master at the root
    commit, where [HEAD] stays, and the branch of the channel at the
    commit of the version, whose only parent is the root commit; no
    worktree is left. *)
Theorem first_upload_makes_the_repository {ext : Externals}
    (version : Version) (author : option User) (w : World) self' w'
    (n : string) :
  disk w !! addon_path (addon_id version) = None ->
  BRANCHES (channel version) = Some n ->
  AddonGitRepository.extract_and_commit_from_version version author w
    = (Return self', w') ->
  exists tree,
    let c := mkCommit tree (get_author author) ROBOT (message_of version)
               [root_commit] in
    repo_at w' (addon_path (addon_id version)) =
      Some {| refs := <[n := c]> (<["master" := root_commit]> ∅);
              head := "master"; worktrees := [];
              odb := [root_commit; c] |}.
Proof.
  intros Hd Hn H.
  set (rp := addon_path (addon_id version)) in *.
  destruct (upload_returns_branch _ _ _ _ _ _ Hn H)
    as (branch & repo1 & w2 & tree & H2 & Hafter).
  fold rp in H2, Hafter.
  set (self0 := AddonGitRepository.mk rp None) in *.
  assert (Hwf0 : wf_self self0) by (left; reflexivity).
  (* the read of the property initialises the repository *)
  pose proof H2 as H2'.
  unfold AddonGitRepository.find_or_create_branch in H2'.
  inv_bind H2' as [h self1] w1 Hg. clear H2'.
  destruct (git_repository_returns _ _ _ _ _ Hwf0 Hg)
    as (-> & Hp1 & Hc1 & Hw1 & Hex).
  simpl in Hp1, Hc1, Hw1, Hex.
  assert (w1 = set_disk (fun d => <[rp := Some initial_repository]> d)
                 (set_language "en-US" w)) as ->.
  { destruct Hw1 as [->|[_ ->]]; [|reflexivity].
    destruct (Hex eq_refl) as [r0 Hr0]. simpl in Hr0. congruence. }
  rewrite (find_or_create_branch_after_read _ _ _ _ _ _ Hg Hc1) in H2.
  assert (Hwf1 : wf_self self1) by (right; rewrite Hc1, Hp1; reflexivity).
  assert (Hr1 : repo_at (set_disk (fun d => <[rp := Some initial_repository]> d)
                           (set_language "en-US" w))
                  (AddonGitRepository.git_repository_path self1)
                = Some initial_repository).
  { rewrite Hp1, repo_at_insert, decide_True by reflexivity. reflexivity. }
  pose proof (find_or_create_branch_effect _ _ _ _ _ _ _ Hwf1 Hr1 H2) as Hcases.
  rewrite Hp1 in Hcases.
  assert (Hnm : n <> "master")
    by (apply BRANCHES_names in Hn as [-> | ->]; discriminate).
  exists tree. cbv zeta.
  destruct Hcases as [[Hsome _]|(_ & Hhead & Hr2)].
  - exfalso. unfold initial_repository in Hsome. simpl in Hsome.
    rewrite lookup_insert_ne in Hsome by congruence.
    rewrite lookup_empty in Hsome. discriminate.
  - rewrite (Hafter _ Hr2). simpl.
    assert (Ht : Git.target branch = root_commit).
    { unfold initial_repository in Hhead. simpl in Hhead.
      rewrite lookup_insert_eq in Hhead. congruence. }
    rewrite Ht, insert_insert_eq. reflexivity.
Qed.
(** X22.  What an upload of sources that returns has changed in a
    repository of sources that was there: the branch of the channel
    points at the new commit, the commit is the one object more, and
    nothing else in that repository is different.  The message of the
    commit is written in the language of the caller, and its only parent
    is the commit the branch pointed at, or the commit of [HEAD] when the
    branch was not there. *)
Theorem source_upload_changes_one_branch {ext : Externals}
    (version : Version) (author : option User) (w : World) self' w'
    (r : Repository) (n : string) :
  repo_at w (addon_source_path (addon_id version)) = Some r ->
  BRANCHES (channel version) = Some n ->
  AddonGitRepository.extract_and_commit_source_from_version version author w
    = (Return self', w') ->
  exists tree t0,
    let c := mkCommit tree (get_author author) ROBOT
               (source_message_of version (language w)) [t0] in
    repo_at w' (addon_source_path (addon_id version)) =
      Some {| refs := <[n := c]> (refs r); head := head r;
              worktrees := worktrees r; odb := odb r ++ [c] |} /\
    (refs r !! n = Some t0 \/
     refs r !! n = None /\ refs r !! head r = Some t0).
Proof.
  intros Hr Hn H.
  unfold AddonGitRepository.extract_and_commit_source_from_version in H.
  set (rp := addon_source_path (addon_id version)) in *.
  rewrite (bind_return _ _ _ _ _ (init_source _ _)) in H.
  change (Path.join (Path.join GIT_FILE_STORAGE_PATH (id_to_path (addon_id version)))
            "source") with rp in H.
  rewrite Hn in H. rewrite bind_ret_l in H.
  inv_bind H as [branch repo1] w2 H2.
  assert (Hwf0 : wf_self (AddonGitRepository.mk rp None)) by (left; reflexivity).
  pose proof (find_or_create_branch_returns _ _ _ _ _ _ Hwf0 H2)
    as (Hp & Hc & Hrepo & Hname & _ & _ & Hlang).
  simpl in Hp, Hc, Hrepo, Hlang.
  pose proof (find_or_create_branch_effect _ _ _ _ _ _ _ Hwf0 Hr H2) as Hcases.
  simpl in Hcases.
  inv_bind H as lang w3 H3. apply ret_inv in H3 as [<- <-].
  rewrite Hlang in H. fold (source_message_of version (language w)) in H.
  inv_bind H as [commit repo2] w4 H4.
  inv_bind H as x6 w6 H6. apply ret_inv in H as [_ <-].
  assert (Hwf1 : wf_self repo1) by (right; rewrite Hc, Hp; reflexivity).
  assert (Hn32 : String.length (Git.branch_name branch) <> 32)
    by (rewrite Hname; exact (BRANCHES_not_random _ _ Hn)).
  assert (Hbr : Git.branch_repo branch =
                AddonGitRepository.git_repository_path repo1)
    by (rewrite Hrepo, Hp; reflexivity).
  pose proof (commit_through_worktree_returns _ _ _ _ _ _ _ _ _ H4)
    as [(tree & Hcommit) _].
  assert (Hw6 : repo_at w6 rp = repo_at w4 rp).
  { unfold AddonGitRepository.version_update_source_git_hash in H6.
    inv_bind H6 as x7 w7 H7.
    assert (w7 = w4) as -> by (unfold io in H7; destruct (faults w4 _); congruence).
    injection H6 as H6. subst w6. apply repo_at_disk. reflexivity. }
  exists tree, (Git.target branch). cbv zeta. rewrite <- Hcommit, Hw6.
  rewrite <- Hp.
  destruct Hcases as [[Hsome ->]|(Hnone & Hhead & Hr2)].
  - rewrite <- Hp in Hr.
    rewrite (commit_through_worktree_effect _ _ _ _ _ _ _ _ _ _
               Hwf1 Hbr Hn32 Hr H4).
    rewrite Hname. split; [reflexivity | left; exact Hsome].
  - rewrite <- Hp in Hr2.
    rewrite (commit_through_worktree_effect _ _ _ _ _ _ _ _ _ _
               Hwf1 Hbr Hn32 Hr2 H4).
    rewrite Hname. simpl. rewrite insert_insert_eq.
    split; [reflexivity | right; split; assumption].
Qed.

(* ===================================================================== *)
(** ** The further theorems at the reference collaborators *)
(* ===================================================================== *)

Lemma iter_tree_yields_what_paths_reach_witness :
  let tree := [("README.md", Blob "# readme");
               ("_locales", Tree [("de", Tree [("messages.json", Blob "{}")])]);
               ("manifest.json", Blob "{}")] in
  exists w, In w (iter_tree tree) /\
            tree_entry w = ("messages.json", Blob "{}") /\
            path w = "_locales/de/messages.json" /\
            blob w = Some (Blob "{}").
Proof.
  intros tree.
  exact (iter_tree_yields_what_paths_reach tree
           ["_locales"; "de"; "messages.json"] ("messages.json", Blob "{}")
           eq_refl eq_refl).
Defined.

Lemma iter_tree_paths_are_distinct_witness :
  let tree := [("README.md", Blob "# readme");
               ("_locales", Tree [("de", Tree [("messages.json", Blob "{}")])]);
               ("manifest.json", Blob "{}")] in
  List.NoDup (map path (iter_tree tree)).
Proof.
  intros tree. exact (proj1 (iter_tree_paths_are_distinct tree eq_refl)).
Defined.



Lemma failed_enter_leaves_the_temporary_directory_witness :
  let self := AddonGitRepository.mk "/storage/git/1/1/1/addon" None in
  let branch := Git.mkBranch "/storage/git/1/1/1/addon" "master" root_commit in
  exists w',
    AddonGitRepository._commit_through_worktree (ext := Reference.externals)
      self "webextension_no_id.xpi" "message" None branch
      (Reference.world [OpAddWorktree])
    = (Raise (GitError "add_worktree"), w') /\
    Fs.isdir "/tmp/tmpb236f599" (tmpfs w') = true.
Proof.
  intros self branch.
  pose (w := Reference.world [OpAddWorktree]).
  pose (g := AddonGitRepository.git_repository self w).
  pose (repo := "/storage/git/1/1/1/addon").
  pose (i := TemporaryWorktree.__init__ (ext := Reference.externals) repo (snd g)).
  pose (wt0 := match fst i with
               | Return s => s
               | Raise _ => TemporaryWorktree.mk "" "" "" "" "" None None
               end).
  exists (snd i).
  destruct (failed_enter_leaves_the_temporary_directory
              (ext := Reference.externals) self "webextension_no_id.xpi"
              "message" None branch w repo
              (AddonGitRepository.mk repo (Some repo)) (snd g) wt0 (snd i)
              (GitError "add_worktree") (snd i))
    as (Hrun & Hdir & _).
  - vm_compute. reflexivity.
  - vm_compute. reflexivity.
  - vm_compute. reflexivity.
  - split; [exact Hrun | exact Hdir].
Defined.

Lemma entered_sandbox_is_set_up_witness :
  let repo := "/storage/git/1/1/1/addon" in
  let w0 := snd (AddonGitRepository.git_repository
                   (AddonGitRepository.mk repo None) (Reference.world [])) in
  let i := TemporaryWorktree.__init__ (ext := Reference.externals) repo w0 in
  exists wt w1,
    Fs.isdir (TemporaryWorktree.extraction_target_path wt) (tmpfs w1) = true /\
    TemporaryWorktree.path wt
      = "/tmp/tmpb236f599/b236f5994773477bbcd2d1b75ab1458f".
Proof.
  intros repo w0 i.
  pose (wt0 := match fst i with
               | Return s => s
               | Raise _ => TemporaryWorktree.mk "" "" "" "" "" None None
               end).
  pose (n := TemporaryWorktree.__enter__ wt0 (snd i)).
  pose (wt := match fst n with Return s => s | Raise _ => wt0 end).
  exists wt, (snd n).
  destruct (entered_sandbox_is_set_up (ext := Reference.externals)
              repo w0 wt0 (snd i) wt (snd n))
    as (_ & Hp & _ & Hd & _).
  - vm_compute. reflexivity.
  - vm_compute. reflexivity.
  - split; [exact Hd|]. rewrite Hp. vm_compute. reflexivity.
Defined.

Lemma returned_commit_has_released_its_sandbox_witness :
  let repo := "/storage/git/1/1/1/addon" in
  let self := AddonGitRepository.mk repo None in
  let branch := Git.mkBranch repo "master" root_commit in
  let run := AddonGitRepository._commit_through_worktree
               (ext := Reference.externals) self "webextension_no_id.xpi"
               "message" None branch (Reference.world []) in
  exists wt, released wt (snd run) /\
             TemporaryWorktree.temp_directory wt = "/tmp/tmpb236f599".
Proof.
  intros repo self branch run.
  pose (c := mkCommit
               [("extracted", Tree [("README.md", Blob "# readme");
                                    ("manifest.json", Blob "{}")])]
               ROBOT ROBOT "message" [root_commit]).
  destruct (returned_commit_has_released_its_sandbox
              (ext := Reference.externals) self "webextension_no_id.xpi"
              "message" None branch (Reference.world []) c
              (AddonGitRepository.mk repo (Some repo)) (snd run))
    as (repo' & w0 & wt0 & w0' & wt & w1 & Hg & Hi & He & Hrel).
  - vm_compute. reflexivity.
  - exists wt. split; [exact Hrel|].
    rewrite (worktree_enter_returns _ _ _ _ He). simpl.
    assert (Hg' : AddonGitRepository.git_repository self (Reference.world [])
                  = (Return (repo, AddonGitRepository.mk repo (Some repo)),
                     snd (AddonGitRepository.git_repository self
                            (Reference.world []))))
      by (vm_compute; reflexivity).
    rewrite Hg' in Hg. injection Hg as <- <-.
    assert (Hi' : TemporaryWorktree.temp_directory
                    (match fst (TemporaryWorktree.__init__
                                  (ext := Reference.externals) repo
                                  (snd (AddonGitRepository.git_repository self
                                          (Reference.world []))))
                     with Return s => s | Raise _ => wt0 end)
                  = "/tmp/tmpb236f599")
      by (vm_compute; reflexivity).
    rewrite Hi in Hi'. exact Hi'.
Defined.

Lemma uploads_leave_master_witness :
  let w := snd (AddonGitRepository.extract_and_commit_from_version
                  (ext := Reference.externals) (Reference.version 7 2 "") None
                  (Reference.world [])) in
  master_at root_commit
    (snd (AddonGitRepository.extract_and_commit_from_version
            (ext := Reference.externals) (Reference.version 8 2 "")
            (Some Reference.uploader) w))
    "/storage/git/1/1/1/addon".
Proof.
  intros w.
  refine (proj1 (uploads_leave_master (ext := Reference.externals)
                   (Reference.version 8 2 "") (Some Reference.uploader) w
                   "/storage/git/1/1/1/addon" root_commit _)).
  eexists. vm_compute. repeat split.
Defined.


Lemma exit_without_enter_raises_witness :
  let repo := "/storage/git/1/1/1/addon" in
  let w0 := snd (AddonGitRepository.git_repository
                   (AddonGitRepository.mk repo None) (Reference.world [])) in
  let i := TemporaryWorktree.__init__ (ext := Reference.externals) repo w0 in
  exists wt0,
    fst i = Return wt0 /\
    fst (TemporaryWorktree.__exit__ wt0 (snd i))
      = Raise (AttributeError "'NoneType' object has no attribute 'delete'").
Proof.
  intros repo w0 i.
  pose (wt0 := match fst i with
               | Return s => s
               | Raise _ => TemporaryWorktree.mk "" "" "" "" "" None None
               end).
  exists wt0. split; [vm_compute; reflexivity|].
  rewrite (exit_without_enter_raises (ext := Reference.externals)
             repo w0 wt0 (snd i) initial_repository).
  - reflexivity.
  - vm_compute. reflexivity.
  - vm_compute. reflexivity.
  - vm_compute. reflexivity.
  - vm_compute. reflexivity.
Defined.

Lemma failed_initialisation_is_not_repaired_witness :
  let repo := "/storage/git/1/1/1/addon" in
  exists w1,
    AddonGitRepository.git_repository (AddonGitRepository.mk repo None)
      (Reference.world [OpInitRepository])
    = (Raise (GitError "init_repository"), w1) /\
    disk w1 !! repo = Some None.
Proof.
  intros repo.
  destruct (failed_initialisation_is_not_repaired
              (AddonGitRepository.mk repo None)
              (Reference.world [OpInitRepository]))
    as (w1 & Hrun & Hd & _); try reflexivity.
  exists w1. split; [exact Hrun | exact Hd].
Defined.

Lemma no_branch_without_a_root_commit_witness :
  let repo := "/storage/git/1/1/1/addon" in
  let self := AddonGitRepository.mk repo None in
  let w := snd (AddonGitRepository.git_repository self
                  (Reference.world [OpCreateCommit])) in
  ends (AddonGitRepository.find_or_create_branch self "listed") w
    (fun e w' => store_error e /\ w' = w) (fun _ _ => False).
Proof.
  intros repo self w.
  apply (no_branch_without_a_root_commit self "listed" w
           {| refs := ∅; head := "master"; worktrees := []; odb := [] |});
    vm_compute; reflexivity.
Defined.

Lemma returned_commit_is_the_only_change_witness :
  let repo := "/storage/git/1/1/1/addon" in
  let self := AddonGitRepository.mk repo None in
  let w := snd (AddonGitRepository.find_or_create_branch self "listed"
                  (Reference.world [])) in
  let branch := Git.mkBranch repo "listed" root_commit in
  let c := mkCommit
             [("extracted", Tree [("README.md", Blob "# readme");
                                  ("manifest.json", Blob "{}")])]
             ROBOT ROBOT "message" [root_commit] in
  repo_at (snd (AddonGitRepository._commit_through_worktree
                  (ext := Reference.externals) self "webextension_no_id.xpi"
                  "message" None branch w)) repo =
    Some {| refs := <["listed" := c]>
                      (<["listed" := root_commit]> (refs initial_repository));
            head := "master"; worktrees := [];
            odb := [root_commit; c] |}.
Proof.
  intros repo self w branch c.
  assert (Hwf : wf_self self) by (left; reflexivity).
  refine (returned_commit_is_the_only_change (ext := Reference.externals)
            self "webextension_no_id.xpi" "message" None branch w c
            (AddonGitRepository.mk repo (Some repo)) _
            {| refs := <["listed" := root_commit]> (refs initial_repository);
               head := "master"; worktrees := []; odb := [root_commit] |}
            Hwf _ _ _ _).
  - reflexivity.
  - vm_compute. discriminate.
  - vm_compute. reflexivity.
  - vm_compute. reflexivity.
Defined.

Lemma upload_changes_one_branch_witness :
  let repo := "/storage/git/1/1/1/addon" in
  let w := snd (AddonGitRepository.extract_and_commit_from_version
                  (ext := Reference.externals) (Reference.version 7 2 "") None
                  (Reference.world [])) in
  let r := default initial_repository (repo_at w repo) in
  let w' := snd (AddonGitRepository.extract_and_commit_from_version
                   (ext := Reference.externals) (Reference.version 8 2 "")
                   (Some Reference.uploader) w) in
  exists c t0,
    repo_at w' repo =
      Some {| refs := <["listed" := c]> (refs r); head := head r;
              worktrees := worktrees r; odb := odb r ++ [c] |} /\
    commit_parents c = [t0] /\
    commit_message c = "Create new version <Version: 0.8> (8) for <Addon: 1> from <File: 1>" /\
    refs r !! "listed" = Some t0.
Proof.
  intros repo w r w'.
  destruct (upload_changes_one_branch (ext := Reference.externals)
              (Reference.version 8 2 "") (Some Reference.uploader) w
              (AddonGitRepository.mk repo (Some repo)) w' r "listed")
    as (tree & t0 & Hrepo & Hcase).
  - vm_compute. reflexivity.
  - vm_compute. reflexivity.
  - vm_compute. reflexivity.
  - eexists _, t0. split; [exact Hrepo|]. split; [reflexivity|].
    split; [vm_compute; reflexivity|].
    destruct Hcase as [H|[H _]]; [exact H|].
    exfalso. revert H. vm_compute. discriminate.
Defined.

Lemma first_upload_makes_the_repository_witness :
  let repo := "/storage/git/1/1/1/addon" in
  exists tree,
    let c := mkCommit tree ROBOT ROBOT
               "Create new version <Version: 0.7> (7) for <Addon: 1> from <File: 1>"
               [root_commit] in
    repo_at (snd (AddonGitRepository.extract_and_commit_from_version
                    (ext := Reference.externals) (Reference.version 7 2 "") None
                    (Reference.world []))) repo =
      Some {| refs := <["listed" := c]> (<["master" := root_commit]> ∅);
              head := "master"; worktrees := [];
              odb := [root_commit; c] |}.
Proof.
  intros repo.
  refine (first_upload_makes_the_repository (ext := Reference.externals)
            (Reference.version 7 2 "") None (Reference.world [])
            (AddonGitRepository.mk repo (Some repo))
            (snd (AddonGitRepository.extract_and_commit_from_version
                    (ext := Reference.externals) (Reference.version 7 2 "")
                    None (Reference.world []))) "listed" _ _ _).
  - vm_compute. reflexivity.
  - vm_compute. reflexivity.
  - vm_compute. reflexivity.
Defined.

Lemma source_upload_changes_one_branch_witness :
  let repo := "/storage/git/1/1/1/source" in
  let w := snd (AddonGitRepository.extract_and_commit_source_from_version
                  (ext := Reference.externals)
                  (Reference.version 7 2 "source.zip") None
                  (Reference.world [])) in
  let r := default initial_repository (repo_at w repo) in
  let w' := snd (AddonGitRepository.extract_and_commit_source_from_version
                   (ext := Reference.externals)
                   (Reference.version 8 1 "source.zip")
                   (Some Reference.uploader) w) in
  exists c,
    repo_at w' repo =
      Some {| refs := <["unlisted" := c]> (refs r); head := head r;
              worktrees := worktrees r; odb := odb r ++ [c] |} /\
    commit_parents c = [root_commit] /\
    commit_message c = "Create new version <Version: 0.8> (8) for <Addon: 1> from source file" /\
    refs r !! "unlisted" = None.
Proof.
  intros repo w r w'.
  destruct (source_upload_changes_one_branch (ext := Reference.externals)
              (Reference.version 8 1 "source.zip") (Some Reference.uploader) w
              (AddonGitRepository.mk repo (Some repo)) w' r "unlisted")
    as (tree & t0 & Hrepo & Hcase).
  - vm_compute. reflexivity.
  - vm_compute. reflexivity.
  - vm_compute. reflexivity.
  - assert (Ht0 : t0 = root_commit /\ refs r !! "unlisted" = None).
    { destruct Hcase as [H|[Hnone H]].
      - exfalso. revert H. vm_compute. discriminate.
      - split; [|exact Hnone]. revert H. vm_compute. congruence. }
    destruct Ht0 as [-> Hnone].
    eexists. split; [exact Hrepo|]. split; [reflexivity|].
    split; [vm_compute; reflexivity | exact Hnone].
Defined.
